(* ===== verification/_CoqProject ===== *)
-Q . S2P
Prelude.v
Bytes.v
Stream.v
SoundState.v
Chunk.v
Scan.v
Wave.v
SoundFile.v
Children.v
Reader.v
Writer.v
Invariants.v
Hooks.v
WriterHooks.v
RoundTrip.v
Session.v
Pingpong.v
Draw.v
Screen.v
Binary32.v
Rounding.v
