(* ===== verification/Prelude.v ===== *)
(** * OTTO sound-file codec: a verification development

    ** The program

    The repository is the firmware of an audio workstation.  Two source
    files are at hand:

    - [src/util/soundfile.cpp], the WAVE codec.  A [SoundFile] is a
      [ByteFile] (a seekable stream of bytes with one cursor) together with
      the stream's [info] (container type, channel count, sample rate), the
      byte offset [audioOffset] of the first sample and the width
      [sample_size] of one sample.  The codec reads and writes a tree of
      chunks: every chunk is a 4-byte tag [id], a 4-byte little-endian
      [size] and a payload.  The virtual methods [read_fields] and
      [write_fields] are overridden by three chunk types of the file:
      [Header] (the RIFF container, whose payload is a 4-byte [format]
      followed by child chunks), [WAVE_fmt] (the stream description) and
      [WAVE_data] (the marker of the sample payload).  [SoundFile::read_file]
      and [SoundFile::write_file] drive them; [SoundFile::seek], [position]
      and [length] translate sample indices to byte positions.
    - [src/engines/fx/pingpong/pingpong.cpp], the screen of a delay
      effect: it forwards audio to a generated DSP engine, steps four
      parameters on rotary events, toggles one flag on key presses and
      draws a visualisation.

    The classes [ByteFile], [ByteFile::Chunk] and [bytes<N>] that the codec
    builds on, and the members of [SoundFile], are declared in headers that
    are not among the sources.  They are modelled from the design document
    (sections 3, 4.1, 4.2 and 4.3) and are marked as such in the project
    map; every theorem on the codec is a theorem about the code of
    soundfile.cpp running on that model of the stream.

    ** The files

    - [Prelude] (this file): the state-and-exception monad in which every
      method is written, its notations (scope [otto_scope]), the tactics
      and the hint databases of the development, and the arithmetic facts
      about C++ integer division and wrap-around that the components share.
    - [Bytes]: the fixed-width fields [bytes<N>]: a field is a list of
      bytes, [as_u] reads it as a little-endian unsigned integer, [of_u]
      stores an integer (wrapping at the width, as the C++ assignment
      through [as_u()] does), [tag] builds a field from a string literal.
    - [Stream]: the stream, Module [ByteFile]: the bytes and the cursor,
      with [seek], [position], [size], [read_bytes] and [write_bytes], and
      the contract the codec relies on.
    - [SoundState]: the [SoundFile] object ([Info], [audioOffset],
      [sample_size]), the errors the codec throws, and the stream
      operations lifted to the monad [SF].
    - [Chunk]: [ByteFile::Chunk], its [read] and [write], the class
      [ChunkLike] of the virtual methods, and [for_chunks_in_range].
    - [Scan]: the theorems on [for_chunks_in_range]: the fuel is enough,
      the result over a well-formed sequence of chunks, the error when the
      range ends inside a chunk; the three cases of one round of the loop
      ([scan_round]) are shared by its proofs.
    - [Wave]: the chunk types of soundfile.cpp lines 9-98: [Header],
      [WAVE_fmt] and [WAVE_data] with their [read_fields] and
      [write_fields], as instances of [ChunkLike], and the theorems on the
      format chunk (the checks, the computed fields, the round trip).  A
      chunk type of an embedder is a [CustomChunk]: a chunk with its own
      [read_fields] and [write_fields].
    - [SoundFile]: the methods of soundfile.cpp lines 106-194 in Module
      [SoundFile] ([read_file], [write_file], [seek], [position],
      [length]), the classes [CustomChunks] and [FileCreator] of the three
      virtual functions an embedder may override, and the theorems on
      addressing by sample.
    - [Children]: the theorems on reading a [Header]: its children tile the
      payload range, the scan terminates, a range that ends inside a child
      is an error.
    - [Reader]: the theorems on [read_file]: the refinement of a
      chunk-level specification ([absorb]) on WAVE files, its cases, the
      containers of another kind and the empty file.
    - [Writer]: the theorems on [write_file]: the 44 bytes it stores, what
      a reader finds in them, and the start on an empty file.
    - [Invariants]: what [read_file] and [write_file] keep on every file
      and for every embedder: relations between the state before and after
      a method (classes [ReadStable] and [WriteStable]) with their closure
      under the monad, and the class [HooksKeep] of the embedders whose
      chunk types keep such a relation.
    - [Hooks]: the contract [LawfulHooks] between the codec and the hook
      [replace_custom_chunk], and the theorems that [read_file] with the
      hooks of a lawful embedder is [read_file] without hooks; the contract
      [OverridingHooks] of an embedder that replaces every chunk, under
      which [read_file] takes nothing from the file.  States are compared
      up to the cursor ([same_but_cursor], an equivalence with its [Proper]
      instances) and results by [agree].
    - [WriterHooks]: [write_file] with the chunks that [add_custom_chunks]
      appends: the layout of the header, which lies over the first bytes
      of the payload.
    - [RoundTrip]: the header of [write_file] with its sizes set, written
      and read back.
    - [Session]: the sound file as a transition system: a step is a call
      of one of the five public methods with what it returned or threw, a
      session is a sequence of steps, and [run] executes a list of calls.
      The calls and labels are the notation of the development for what an
      embedder does; the sources have no type for them.
    - [Pingpong]: the effect engine ([Pingpong::Pingpong], [process]) and
      the event handlers of its screen, [PingpongScreen::rotary] and
      [keypress] (pingpong.cpp lines 23-58), over any property type with a
      [step].
    - [Draw]: [PingpongScreen::draw] (pingpong.cpp lines 60-100): the
      canvas as the list of the calls made on it, the loop as a fold over
      the twenty indices, the arithmetic on [int], [float] and [double] as
      the class [FloatArith].
    - [Screen]: the interface [EngineScreen] that [PingpongScreen]
      implements (pingpong.cpp lines 15-21), and the user interface around
      a screen as a transition system over rotary events, key presses and
      frames.  The dispatcher [handle] stands for the caller of the three
      entry points, which is not among the sources.
    - [Binary32]: the instance of [FloatArith] in IEEE 754 (binary32 and
      binary64 on the [SpecFloat] of the Standard Library), and runs of
      [draw] in it.
    - [Rounding]: the rounding of a product to 24 bits followed by the
      conversion to [int]: the bound on the heights of [draw] in binary32,
      and the sign of the heights for a factor below zero.

    ** Modelling choices

    - A C++ method that mutates [*this] and may throw is a function
      [St -> result E A * St]: the state after a throw is the state at the
      throw, because what a method assigned before it threw stays assigned.
      The string literals and the [Error] value that the code throws are
      the constructors of [Error], named after section 7 of the design
      document.
    - [Position] is [Z].  Division is the truncating division of C++
      ([Z.quot]), which differs from [Z.div] on negative numerators; the
      difference is visible in [SoundFile::position].  No wrap-around of
      [Position] is modelled, and a division by a [sample_size] of zero,
      which is undefined in C++, is [0] in the model: the theorems on
      addressing assume [0 < sample_size], and the theorems that end with
      [length] without that hypothesis describe the model only when
      [sample_size] is zero.
    - A [bytes<N>] field keeps its width: storing an integer wraps it
      modulo [2^(8N)], which is the choice of this model for the assignment
      through [as_u()] ([bytes<N>] is not among the sources, and the design
      document calls a value that does not fit an error).  The products of
      [byteRate] are taken modulo [2^32] as those of [uint32_t] are; the
      product of [blockAlign] is computed in [Z] and stored in 16 bits.
    - A virtual method is a method of a class: [ChunkLike] for
      [read_fields] and [write_fields], with one instance for each chunk
      type and one for [AnyChunk], the dynamic type behind a
      [unique_ptr<Chunk>]; [CustomChunks] and [FileCreator] for the
      virtual functions of [SoundFile].  The subclasses of [Chunk] that
      an embedder defines are not known to the codec: [CustomChunk]
      carries the two virtual methods as functions, and what the codec
      needs of them is stated as a class of embedders ([LawfulHooks],
      [OverridingHooks], [HooksKeep]) against which the theorems are proved
      and which the concrete embedders of the witnesses are shown to meet.
      The hooks themselves are functions on chunks: a hook of the sources
      is a member of [SoundFile] and could assign to the object as well,
      which no contract of the development allows.
    - [draw] computes in three number types.  The integers of the loop are
      [Z]; [float] and [double] are the two types of the class
      [FloatArith], whose operations are the operations and conversions
      the source applies, explicit or implicit, in the order C++ applies
      them.  The theorems on the structure of [draw] hold for every
      instance; the runs and the witnesses are in the IEEE 754 instance,
      where every operation rounds to nearest even and a conversion to
      [int] truncates.  The width of [int] is not modelled:
      [Rounding.draw_bounded_binary32] bounds the heights by 100.
    - The stream has no error state: a read past the end of the file
      leaves the rest of the field as it was and moves the cursor, a write
      past the end extends the file.  That is the reading of this model of
      what the design document leaves open; the theorems on the empty file
      ([read_file_bootstrap], [read_file_new_file]) rest on it.
    - Logging ([LOG_F]) has no effect on the state and is left out.

    ** Fuel

    The loop of [for_chunks_in_range] is the only loop without a bound in
    its syntax.  It runs on [scan_fuel i o = (o - i) / 8 + 1] rounds: every
    round moves the cursor forward by 8 bytes at least and a round that
    would pass the end [o] of the range throws, so that many rounds always
    reach the end.  [Scan.scan_fuel_enough] and [Children.header_scan_total]
    show that any larger number of rounds gives the same result and state.
    The loops over the children of a header are structural ([mapM]), and
    the loop of [draw] is a fold over the twenty indices of the delay
    lines: neither needs fuel.

    ** What is proved

    - Addressing ([SoundFile]): [seek] then [position] is the identity on
      sample indices; [position] is never negative; the exact cursors at
      which its clamp moves the stream; [length] counts whole samples.
    - The format chunk ([Wave]): the two checks of [read_fields] and the
      state each leaves, the derived fields [write_fields] computes, and
      the round trip from [write_fields] to [read_fields].
    - The header ([Children]): the children tile the payload range; the
      scan terminates; a range that ends inside a child is refused.
    - [read_file] ([Reader]): the refinement theorem for WAVE files with
      any sequence of well-formed chunks, and from it the canonical file,
      the refused format chunks, the skipped foreign chunks; the errors for
      containers of another kind; the empty file.
    - [write_file] ([Writer]): the layout of the 44 bytes; that the sizes
      of the header and of the format chunk are written as 0 and that a
      reader therefore finds no chunk; the start on an empty file.
    - Invariants ([Invariants]): on every file, well formed or not,
      [read_file] changes neither the bytes of the file nor [sample_size],
      whether it returns or throws; [write_file] changes neither [info]
      nor [sample_size]; both for every embedder whose chunk types keep
      the relation.
    - Embedders ([Hooks], [WriterHooks]): with lawful hooks [read_file]
      returns or throws as without hooks and leaves the same state up to
      the cursor, so the refinement theorem of [Reader] holds for every
      lawful embedder; with a hook that replaces every chunk [read_file]
      accepts every WAVE container and takes nothing from it, whatever the
      format chunk announces.  [write_file] stores the chunks an embedder
      adds between the format chunk and the data chunk and puts the
      payload offset behind them; it never moves the payload.
    - Round trip ([RoundTrip]): with the three sizes of the header set,
      what [Header::write] stores is read back by [read_file] with the
      channel count, the rate and the payload offset of the writer.
    - Sessions ([Session]): by induction on the steps, a session without
      [write_file] leaves the bytes of the file as they were; on a WAVE
      file with a format chunk and a data chunk every [read_file] of such
      a session returns and leaves the same description, however often it
      is called and whatever is called in between.
    - The effect screen ([Pingpong]): a rotary event steps the property of
      its encoder and nothing else; events of different encoders commute;
      [keypress] toggles [bpm_follow] on the four clicks and only on them,
      and pressing a key twice restores the properties.
    - The picture ([Draw], [Binary32]): the loop of [draw] in closed form
      (the calls of each bar from the index, with the heights as iterated
      scalings of 100, and every level refreshed once); the heights stay
      within 100 pixels when the factors lengthen no bar; the picture does
      not depend on [spread] or [bpm_follow].
    - Events in any order ([Screen]): after any sequence of events the
      parameters are those after its rotary events alone, [bpm_follow]
      counts the clicks, the canvas counts the frames and the keys left to
      the caller are the keys that are not clicks; the agreement of two
      sets of properties on the knobs is an equivalence that the handlers
      respect.
    - Rounding ([Rounding]): in binary32 every finite factor of size at
      most 1 lengthens no bar of at most 100 pixels, although the product
      is rounded to nearest before its fraction is discarded; hence the
      heights of [draw] stay within 100 pixels for all such factors.  The
      proof follows [binary_round_aux] of the Standard Library: the shift
      rounds down, rounding to nearest adds at most one unit of a grid on
      which every integer lies.  For every factor whose sign bit is set
      the heights alternate in sign: the loop does not clamp, and a
      [feedback] near 0 gives such a factor.

    The theorems that take a hypothesis come with a witness: the theorem
    applied to a concrete file.  The project manifest lists the main
    theorems by claim id and records where the code and the design
    document differ.

    ** Not modelled

    The generated DSP engine, the property class of the user interface
    and the canvas (all three are declared outside the sources: the first
    two are parameters of the model, the third is the trace of its
    calls), logging, and the operating-system side of the stream (open
    modes, the error flags of the stream).  The range of [int] and the
    undefined conversions of C++ (of a NaN, of an infinity, of a value
    outside the range of [int]) are not modelled; no rounding mode but the
    default one is.  The bound on the heights of [draw] assumes that the
    two factors are of size at most 1; that [feedback] and [tone] in their
    ranges give such factors is not proved (the ranges are set where the
    properties are declared, outside the sources).  The theorems of [Reader] on the
    children of a WAVE file and the theorems of [Writer] are for the sound
    file that overrides no chunk hook; [Hooks] and [WriterHooks] extend
    them to embedders, and the theorems of [Invariants] hold for every
    embedder that keeps the invariant. *)

From Stdlib Require Import ZArith Lia List.
From stdpp Require Import base list.
Import ListNotations.
Local Open Scope Z_scope.

(** ** Results and the state-and-exception monad *)

Inductive result (E A : Type) : Type :=
| Ok (a : A)
| Throw (e : E).
Arguments Ok {E A} a.
Arguments Throw {E A} e.

Definition M (St E A : Type) : Type := St -> result E A * St.

Definition ret {St E A} (a : A) : M St E A := fun s => (Ok a, s).

Definition bind {St E A B} (m : M St E A) (f : A -> M St E B) : M St E B :=
  fun s => match m s with
           | (Ok a, s') => f a s'
           | (Throw e, s') => (Throw e, s')
           end.

Definition throw {St E A} (e : E) : M St E A := fun s => (Throw e, s).
Definition get {St E} : M St E St := fun s => (Ok s, s).
Definition gets {St E A} (f : St -> A) : M St E A := fun s => (Ok (f s), s).
Definition put {St E} (s : St) : M St E unit := fun _ => (Ok tt, s).
Definition modify {St E} (f : St -> St) : M St E unit := fun s => (Ok tt, f s).

Declare Scope otto_scope.
Delimit Scope otto_scope with otto.
Notation "x <- c1 ;; c2" := (bind c1 (fun x => c2))
  (at level 100, c1 at next level, right associativity) : otto_scope.
Notation "c1 ;; c2" := (bind c1 (fun _ => c2))
  (at level 100, right associativity) : otto_scope.
Local Open Scope otto_scope.

(** A range-based [for] over a vector whose body may replace the element. *)
Fixpoint mapM {St E A B} (f : A -> M St E B) (l : list A) : M St E (list B) :=
  match l with
  | [] => ret []
  | x :: l' => y <- f x ;; ys <- mapM f l' ;; ret (y :: ys)
  end.

(** What a computation returns and the state it leaves. *)
Definition returns {St E A} (m : M St E A) (s : St) (a : A) (s' : St) : Prop :=
  m s = (Ok a, s').
Definition throws {St E A} (m : M St E A) (s : St) (e : E) (s' : St) : Prop :=
  m s = (Throw e, s').

(** ** Integer arithmetic of the source language *)

(** Conversion to an unsigned integer of [w] bits. *)
Definition wrap (w : Z) (z : Z) : Z := z mod 2 ^ w.

(** ** Automation *)

Create HintDb otto discriminated.
Create Rewrite HintDb otto_rw.

Ltac invc H := inversion H; subst; clear H.

(** Unfold one layer of the monad at a given state. *)
Ltac munfold := unfold returns, throws, bind, ret, throw, get, gets, put, modify in *.

(** Case analysis on the computation that blocks a [bind]. *)
Ltac case_bind :=
  match goal with
  | |- context [match ?m ?s with (_, _) => _ end] =>
      let r := fresh "r" in let s' := fresh "s" in let E := fresh "E" in
      destruct (m s) as [r s'] eqn:E; destruct r
  end.

(** Closed side conditions: comparisons of numerals and conjunctions of them. *)
Ltac concrete :=
  repeat split; vm_compute; first [reflexivity | discriminate | lia].

(** Lists of a known length become explicit lists of variables. *)
Ltac explode_lists :=
  repeat match goal with
  | H : length ?l = O |- _ => destruct l; [clear H | discriminate H]
  | H : length ?l = S _ |- _ =>
      destruct l; [discriminate H | cbn [length] in H; apply Nat.succ_inj in H]
  end.

(** Arithmetic goals with [Z.quot], [Z.rem], [/] and [mod]. *)
Ltac zdiv := Z.to_euclidean_division_equations; nia.

(** ** Monad laws *)

Section MonadLaws.
Context {St E A B C : Type}.
Implicit Types (s : St) (m : M St E A) (f : A -> M St E B) (g : B -> M St E C).

Lemma bind_ret_l a f s : bind (ret a) f s = f a s.
Proof. reflexivity. Qed.

Lemma bind_ret_r m s : bind m ret s = m s.
Proof. unfold bind, ret. destruct (m s) as [[a|e] s']; reflexivity. Qed.

Lemma bind_assoc m f g s : bind (bind m f) g s = bind m (fun a => bind (f a) g) s.
Proof. unfold bind. destruct (m s) as [[a|e] s']; reflexivity. Qed.

Lemma bind_ok m f s a s' : m s = (Ok a, s') -> bind m f s = f a s'.
Proof. unfold bind. now intros ->. Qed.

Lemma bind_throw m f s e s' : m s = (Throw e, s') -> bind m f s = (Throw e, s').
Proof. unfold bind. now intros ->. Qed.

Lemma bind_returns_inv m f s b s2 :
  bind m f s = (Ok b, s2) -> exists a s1, m s = (Ok a, s1) /\ f a s1 = (Ok b, s2).
Proof.
  unfold bind. destruct (m s) as [[a|e] s1]; intros H; [eauto | discriminate].
Qed.

Lemma bind_cong_l (m1 m2 : M St E A) f s :
  m1 s = m2 s -> bind m1 f s = bind m2 f s.
Proof. unfold bind. now intros ->. Qed.

Lemma gets_bind (h : St -> A) f s : bind (gets h) f s = f (h s) s.
Proof. reflexivity. Qed.

End MonadLaws.

Lemma mapM_length {St E A B} (f : A -> M St E B) l s ys s' :
  mapM f l s = (Ok ys, s') -> length ys = length l.
Proof.
  revert s ys; induction l as [|x l IH]; intros s ys H; simpl in H.
  - invc H. reflexivity.
  - apply bind_returns_inv in H as (y & s1 & _ & H).
    apply bind_returns_inv in H as (ys' & s2 & H & H2).
    invc H2. simpl. f_equal. eauto.
Qed.

(** A loop whose results are dropped: the first round, then the rest. *)
Lemma mapM_cons_tt {St E A B} (f : A -> M St E B) x l s :
  (_ <- mapM f (x :: l) ;; ret tt) s =
  (_ <- (_ <- f x ;; ret tt) ;; _ <- mapM f l ;; ret tt) s.
Proof.
  cbn [mapM]. unfold bind, ret. destruct (f x s) as [[y|e] s1]; [|reflexivity].
  destruct (mapM f l s1) as [[ys|e] s2]; reflexivity.
Qed.

(** A loop over two vectors, one after the other. *)
Lemma mapM_app {St E A B} (f : A -> M St E B) l1 l2 s :
  mapM f (l1 ++ l2) s =
  (ys1 <- mapM f l1 ;; ys2 <- mapM f l2 ;; ret (ys1 ++ ys2)) s.
Proof.
  revert s. induction l1 as [|x l1 IH]; intros s; cbn [mapM app].
  - unfold bind, ret. destruct (mapM f l2 s) as [[ys|e] s']; reflexivity.
  - unfold bind, ret. destruct (f x s) as [[y|e] s1]; [|reflexivity].
    rewrite IH. unfold bind, ret.
    destruct (mapM f l1 s1) as [[ys1|e] s2]; [|reflexivity].
    destruct (mapM f l2 s2) as [[ys2|e] s3]; reflexivity.
Qed.

(** ** Wrap-around and truncating division *)

Lemma wrap_range w z : 0 <= w -> 0 <= wrap w z < 2 ^ w.
Proof. intros. apply Z.mod_pos_bound. now apply Z.pow_pos_nonneg. Qed.

Lemma wrap_small w z : 0 <= z < 2 ^ w -> wrap w z = z.
Proof. apply Z.mod_small. Qed.

Lemma wrap_idemp w z : 0 <= w -> wrap w (wrap w z) = wrap w z.
Proof. intros. apply wrap_small, wrap_range; assumption. Qed.

Lemma wrap_mul_idemp w a b : 0 <= w -> wrap w (wrap w a * b) = wrap w (a * b).
Proof.
  intros. unfold wrap. apply Z.mul_mod_idemp_l.
  apply Z.pow_nonzero; lia.
Qed.

(** [a * b / b] for the truncating division. *)
Lemma quot_mul_cancel a b : b <> 0 -> Z.quot (a * b) b = a.
Proof. apply Z.quot_mul. Qed.

(** The truncating division rounds towards zero: the quotient is negative
    only when the numerator is at or below [- b]. *)
Lemma quot_neg_iff a b : 0 < b -> Z.quot a b < 0 <-> a <= - b.
Proof. intros. split; intros; zdiv. Qed.

Lemma quot_zero_iff a b : 0 < b -> Z.quot a b = 0 <-> - b < a < b.
Proof. intros. split; intros; zdiv. Qed.

Lemma quot_nonneg_div a b : 0 <= a -> 0 < b -> Z.quot a b = a / b.
Proof. intros. apply Z.quot_div_nonneg; lia. Qed.

Lemma quot_bounds a b :
  0 <= a -> 0 < b -> Z.quot a b * b <= a < (Z.quot a b + 1) * b.
Proof. intros. zdiv. Qed.

#[export] Hint Rewrite @bind_ret_l : otto_rw.
#[export] Hint Rewrite length_app @length_take @length_drop @length_replicate : otto_rw.
#[export] Hint Resolve wrap_range : otto.
