(* ===== verification/Bytes.v ===== *)
(** * Fixed-width byte fields

    The codec stores every number of a chunk in a [bytes<N>] field: an array
    of [N] bytes that is read and written through [as_u()], a reference to
    the array seen as an unsigned integer of [8 N] bits of the (little-endian)
    target.  A field is modelled as the list of its bytes; [as_u] decodes it,
    [of_u] is an assignment through [as_u()] (the value is converted to the
    field's width, so it wraps), [tag] is the construction from a string
    literal, and [zeros] is a default-constructed field.

    The lemmas give the width of what each operation builds, the two round
    trips between integers and fields, and the range of [as_u]. *)

From Stdlib Require Import ZArith Lia List String.
From stdpp Require Import base list.
From coqutil Require Import Byte Word.LittleEndianList.
From S2P Require Import Prelude.
Import ListNotations.
Local Open Scope Z_scope.

(** A value of type [bytes<N>]: the [N] bytes of the array [data]. *)
Abbreviation bytes := (list byte).

#[export] Instance byte_eq_dec : EqDecision byte := Byte.byte_eq_dec.

(** [bytes<N>()]: the array is zero-initialised. *)
Definition zeros (n : nat) : bytes := replicate n Byte.x00.

(** [b.as_u()] as a value. *)
Definition as_u (b : bytes) : Z := le_combine b.

(** [b.as_u() = v] for a field [b] of [n] bytes, and [bytes<n>(v)]. *)
Definition of_u (n : nat) (v : Z) : bytes := le_split n v.

(** [bytes<N>("....")]: the characters of the literal. *)
Definition tag (s : string) : bytes := list_byte_of_string s.

(** [b == "...."]: the field holds the characters of the literal. *)
Definition tag_eqb (b : bytes) (s : string) : bool := bool_decide (b = tag s).

(** The field has the width its type gives it. *)
Definition has_width (n : nat) (b : bytes) : Prop := length b = n.

(** ** Widths *)

Lemma zeros_width n : has_width n (zeros n).
Proof. apply length_replicate. Qed.

Lemma of_u_width n v : has_width n (of_u n v).
Proof. apply length_le_split. Qed.

Lemma length_of_u n v : length (of_u n v) = n.
Proof. apply length_le_split. Qed.

Lemma length_zeros n : length (zeros n) = n.
Proof. apply length_replicate. Qed.

(** ** Round trips between integers and fields *)

Lemma as_u_of_u n v : as_u (of_u n v) = wrap (8 * Z.of_nat n) v.
Proof.
  unfold as_u, of_u, wrap. rewrite le_combine_split. f_equal. f_equal. lia.
Qed.

Lemma as_u_of_u_small n v :
  0 <= v < 2 ^ (8 * Z.of_nat n) -> as_u (of_u n v) = v.
Proof. intros. rewrite as_u_of_u. now apply wrap_small. Qed.

Lemma of_u_as_u n b : has_width n b -> of_u n (as_u b) = b.
Proof. intros <-. apply split_le_combine. Qed.

Lemma as_u_range b : 0 <= as_u b < 2 ^ (8 * Z.of_nat (length b)).
Proof. apply le_combine_bound. Qed.

Lemma as_u_nonneg b : 0 <= as_u b.
Proof. apply as_u_range. Qed.

Lemma as_u_inj b1 b2 : length b1 = length b2 -> as_u b1 = as_u b2 -> b1 = b2.
Proof. apply le_combine_inj. Qed.

Lemma as_u_zeros n : as_u (zeros n) = 0.
Proof.
  unfold as_u, zeros. induction n as [|n IH]; [reflexivity|].
  change (Z.lor 0 (Z.shiftl (le_combine (replicate n Byte.x00)) 8) = 0).
  now rewrite IH.
Qed.

(** [b.as_u() == 0] holds exactly of the all-zero field. *)
Lemma as_u_zero_iff b : as_u b = 0 <-> b = zeros (length b).
Proof.
  split.
  - intros H. apply as_u_inj; [now rewrite length_zeros|].
    now rewrite as_u_zeros.
  - intros ->. apply as_u_zeros.
Qed.

Lemma of_u_wrap n v : of_u n (wrap (8 * Z.of_nat n) v) = of_u n v.
Proof.
  unfold of_u, wrap. replace (8 * Z.of_nat n) with (Z.of_nat n * 8) by lia.
  symmetry. apply le_split_mod.
Qed.

(** ** Tags *)

Lemma tag_eqb_true b s : tag_eqb b s = true <-> b = tag s.
Proof. unfold tag_eqb. apply bool_decide_eq_true. Qed.

Lemma tag_eqb_false b s : tag_eqb b s = false <-> b <> tag s.
Proof. unfold tag_eqb. apply bool_decide_eq_false. Qed.

Lemma tag_eqb_refl s : tag_eqb (tag s) s = true.
Proof. now apply tag_eqb_true. Qed.

(** The test of a tag and a format together. *)
Lemma tag_pair_false a b s t :
  ~ (a = tag s /\ b = tag t) -> tag_eqb a s && tag_eqb b t = false.
Proof.
  intros H. apply andb_false_iff.
  destruct (decide (a = tag s)) as [Ha|Ha]; [right | left];
    apply tag_eqb_false; tauto.
Qed.

Lemma tag_length s : length (tag s) = String.length s.
Proof.
  unfold tag, list_byte_of_string.
  rewrite length_map. induction s; simpl; congruence.
Qed.

#[export] Hint Rewrite length_of_u length_zeros tag_length : otto_rw.
#[export] Hint Rewrite as_u_of_u as_u_zeros : otto_rw.
#[export] Hint Resolve of_u_width zeros_width as_u_nonneg : otto.
