(* ===== verification/Stream.v ===== *)
(** * The byte stream under the codec

    [ByteFile] wraps one seekable stream.  The model keeps what the codec
    can observe of it: the bytes of the file and the cursor.  [seek] moves
    the cursor to an absolute position and reports the position reached (a
    negative position is refused and the cursor stays); [read_bytes] fills a
    field from the cursor on and [write_bytes] stores a field at the cursor,
    both advancing the cursor by the width of the field.  A read that runs
    past the end of the file leaves the rest of the field as it was; a write
    past the end extends the file, filling a gap with zero bytes.

    The lemmas are the contract the codec relies on: the cursor after each
    operation, the size after a write, that a read returns what was written
    at the same place, and that a write leaves the bytes outside its range
    alone. *)

From Stdlib Require Import ZArith Lia List.
From stdpp Require Import base list.
From coqutil Require Import Byte.
From S2P Require Import Prelude Bytes.
Import ListNotations.
Local Open Scope Z_scope.

(** ** Slices of a list of bytes *)

(** The [n] bytes from index [p] on, fewer at the end of the list. *)
Definition slice (p n : nat) (d : bytes) : bytes := take n (drop p d).

(** [d] with [buf] stored from index [p] on. *)
Definition splice (p : nat) (buf d : bytes) : bytes :=
  take p d ++ replicate (p - length d) Byte.x00 ++ buf ++ drop (p + length buf) d.

Module ByteFile.

Record state : Type := mk { data : bytes; cursor : Z }.

Definition size (f : state) : Z := Z.of_nat (length (data f)).

Definition position (f : state) : Z := cursor f.

Definition seek (p : Z) (f : state) : Z * state :=
  if 0 <=? p then (p, mk (data f) p) else (cursor f, f).

Definition read_bytes (buf : bytes) (f : state) : bytes * state :=
  let got := slice (Z.to_nat (cursor f)) (length buf) (data f) in
  (got ++ drop (length got) buf,
   mk (data f) (cursor f + Z.of_nat (length buf))).

Definition write_bytes (buf : bytes) (f : state) : state :=
  mk (splice (Z.to_nat (cursor f)) buf (data f))
     (cursor f + Z.of_nat (length buf)).

(** The cursor is never before the start of the file. *)
Definition wf (f : state) : Prop := 0 <= cursor f.

End ByteFile.

(** ** Slices and splices *)

Section SliceLemmas.
Implicit Types (d buf pre post : bytes) (p q n : nat).

Lemma length_slice p n d : length (slice p n d) = (n `min` (length d - p))%nat.
Proof. unfold slice. now rewrite length_take, length_drop. Qed.

Lemma length_slice_le p n d :
  (p + n <= length d)%nat -> length (slice p n d) = n.
Proof. rewrite length_slice. lia. Qed.

Lemma slice_ge p n d : (length d <= p)%nat -> slice p n d = [].
Proof. intros. unfold slice. rewrite drop_ge by lia. apply take_nil. Qed.

Lemma slice_app_mid pre buf post :
  slice (length pre) (length buf) (pre ++ buf ++ post) = buf.
Proof. unfold slice. now rewrite drop_app_length, take_app_length. Qed.

Lemma slice_app_mid' pre buf post p n :
  p = length pre -> n = length buf -> slice p n (pre ++ buf ++ post) = buf.
Proof. intros -> ->. apply slice_app_mid. Qed.

Lemma slice_app_mid_take pre buf post p n :
  p = length pre -> (n <= length buf)%nat ->
  slice p n (pre ++ buf ++ post) = take n buf.
Proof.
  intros -> Hn. unfold slice. rewrite drop_app_length. now apply take_app_le.
Qed.

Lemma slice_app_l p n d post :
  (p + n <= length d)%nat -> slice p n (d ++ post) = slice p n d.
Proof.
  intros. unfold slice. rewrite drop_app_le by lia.
  apply take_app_le. rewrite length_drop. lia.
Qed.

Lemma slice_app_r p n pre d :
  (length pre <= p)%nat -> slice p n (pre ++ d) = slice (p - length pre) n d.
Proof. intros. unfold slice. now rewrite drop_app_ge by lia. Qed.

Lemma length_splice p buf d :
  length (splice p buf d) = ((p + length buf) `max` length d)%nat.
Proof.
  unfold splice.
  rewrite !length_app, length_take, length_replicate, length_drop. lia.
Qed.

Lemma splice_at_end buf d : splice (length d) buf d = d ++ buf.
Proof.
  unfold splice. rewrite firstn_all, Nat.sub_diag, drop_ge by lia.
  simpl. now rewrite app_nil_r.
Qed.

Lemma splice_app_mid pre buf buf' post :
  length buf' = length buf ->
  splice (length pre) buf' (pre ++ buf ++ post) = pre ++ buf' ++ post.
Proof.
  intros H. unfold splice.
  rewrite take_app_length, length_app.
  replace (length pre - (length pre + length (buf ++ post)))%nat with 0%nat by lia.
  rewrite drop_app_add, H, drop_app_length. reflexivity.
Qed.

Lemma slice_splice_same p buf d : slice p (length buf) (splice p buf d) = buf.
Proof.
  unfold splice. rewrite app_assoc. apply slice_app_mid'; [|reflexivity].
  rewrite length_app, length_take, length_replicate. lia.
Qed.

Lemma slice_splice_before p buf d q n :
  (q + n <= p)%nat -> (q + n <= length d)%nat ->
  slice q n (splice p buf d) = slice q n d.
Proof.
  intros Hp Hd. unfold splice.
  rewrite slice_app_l by (rewrite length_take; lia).
  unfold slice. rewrite <- (take_drop p d) at 2.
  rewrite drop_app_le, take_app_le; rewrite ?length_drop, ?length_take; auto; lia.
Qed.

Lemma slice_splice_after p buf d q n :
  (p + length buf <= q)%nat -> slice q n (splice p buf d) = slice q n d.
Proof.
  intros Hq. unfold splice. rewrite !app_assoc.
  rewrite slice_app_r by
    (rewrite !length_app, length_take, length_replicate; lia).
  rewrite !length_app, length_take, length_replicate.
  unfold slice. rewrite drop_drop. f_equal.
  destruct (decide (q <= length d)%nat).
  - f_equal. lia.
  - rewrite !drop_ge by lia. reflexivity.
Qed.

Lemma slice_slice p m d k n :
  (k + n <= m)%nat -> slice k n (slice p m d) = slice (p + k) n d.
Proof.
  intros. unfold slice. rewrite <- drop_drop.
  generalize (drop p d). intros l.
  rewrite skipn_firstn_comm, take_take. f_equal. lia.
Qed.
Lemma splice_splice_seq p a b d :
  splice (p + length a) b (splice p a d) = splice p (a ++ b) d.
Proof.
  unfold splice.
  set (pre := take p d ++ replicate (p - length d) Byte.x00).
  assert (Hl : length pre = p).
  { unfold pre. rewrite length_app, length_take, length_replicate. lia. }
  rewrite !(app_assoc (take p d)). fold pre.
  assert (Hpa : length (pre ++ a) = (p + length a)%nat).
  { rewrite length_app. lia. }
  rewrite (app_assoc pre a), <- Hpa.
  rewrite take_app_length, drop_app_add, (length_app (pre ++ a)), length_drop.
  replace (length (pre ++ a) - (length (pre ++ a) + (length d - length (pre ++ a))))%nat
    with 0%nat by lia.
  rewrite drop_drop, Hpa, length_app. simpl.
  rewrite <- !app_assoc. now rewrite Nat.add_assoc.
Qed.

Lemma splice_0 buf d : splice 0 buf d = buf ++ drop (length buf) d.
Proof. reflexivity. Qed.

Lemma slice_0_all d : slice 0 (length d) d = d.
Proof. unfold slice. apply firstn_all. Qed.

End SliceLemmas.

(** ** The contract of the stream *)

Section StreamLemmas.
Import ByteFile.
Implicit Types (f : state) (buf : bytes) (p : Z).

Lemma seek_reaches p f : 0 <= p -> seek p f = (p, mk (data f) p).
Proof. intros. unfold seek. now rewrite (proj2 (Z.leb_le 0 p)). Qed.

Lemma seek_refused p f : p < 0 -> seek p f = (cursor f, f).
Proof. intros. unfold seek. now rewrite (proj2 (Z.leb_gt 0 p)). Qed.

Lemma seek_data p f : data (seek p f).2 = data f.
Proof. unfold seek. now destruct (0 <=? p). Qed.

Lemma seek_size p f : size (seek p f).2 = size f.
Proof. unfold size. now rewrite seek_data. Qed.

(** [seek] returns the position the cursor is left at. *)
Lemma seek_position p f : (seek p f).1 = position (seek p f).2.
Proof. unfold seek. now destruct (0 <=? p). Qed.

Lemma seek_wf p f : wf f -> wf (seek p f).2.
Proof.
  unfold wf, seek. destruct (Z.leb_spec 0 p); simpl; auto.
Qed.

Lemma read_bytes_wf buf f : wf f -> wf (read_bytes buf f).2.
Proof. unfold wf, read_bytes; simpl. lia. Qed.

Lemma write_bytes_wf buf f : wf f -> wf (write_bytes buf f).
Proof. unfold wf, write_bytes; simpl. lia. Qed.

Lemma read_bytes_length buf f : length (read_bytes buf f).1 = length buf.
Proof.
  unfold read_bytes; simpl.
  rewrite length_app, length_drop, length_slice. lia.
Qed.

(** Inside the file a read returns the bytes at the cursor. *)
Lemma read_bytes_inside buf f :
  0 <= cursor f -> cursor f + Z.of_nat (length buf) <= size f ->
  (read_bytes buf f).1 = slice (Z.to_nat (cursor f)) (length buf) (data f).
Proof.
  unfold size. intros H0 H. unfold read_bytes; simpl.
  rewrite length_slice_le by lia. rewrite drop_all. apply app_nil_r.
Qed.

(** At or past the end of the file a read leaves the field as it was. *)
Lemma read_bytes_eof buf f :
  size f <= cursor f -> (read_bytes buf f).1 = buf.
Proof.
  unfold size. intros H. unfold read_bytes; simpl.
  rewrite slice_ge by lia. reflexivity.
Qed.

Lemma write_bytes_size buf f :
  0 <= cursor f ->
  size (write_bytes buf f) = Z.max (cursor f + Z.of_nat (length buf)) (size f).
Proof.
  intros. unfold size, write_bytes; simpl. rewrite length_splice. lia.
Qed.

(** Two writes one after the other are one write of the concatenation. *)
Lemma write_bytes_app a b f :
  wf f -> write_bytes b (write_bytes a f) = write_bytes (a ++ b) f.
Proof.
  unfold wf. intros H. unfold write_bytes; simpl. f_equal.
  - rewrite Z2Nat.inj_add, Nat2Z.id by lia. apply splice_splice_seq.
  - rewrite length_app. lia.
Qed.

(** Writing at the end of the file appends. *)
Lemma write_bytes_at_end buf f :
  cursor f = size f ->
  write_bytes buf f = mk (data f ++ buf) (size f + Z.of_nat (length buf)).
Proof.
  unfold size. intros H. unfold write_bytes. rewrite H, Nat2Z.id.
  now rewrite splice_at_end.
Qed.

(** Writing a field and reading at the same place returns the field. *)
Lemma read_after_write buf buf' f p :
  0 <= p -> length buf' = length buf ->
  (read_bytes buf' (seek p (write_bytes buf (seek p f).2)).2).1 = buf.
Proof.
  intros Hp Hlen. rewrite !seek_reaches by assumption. simpl.
  unfold read_bytes, write_bytes; simpl.
  rewrite Hlen, slice_splice_same, drop_ge by lia. apply app_nil_r.
Qed.

End StreamLemmas.

#[export] Hint Rewrite length_splice length_slice : otto_rw.
#[export] Hint Resolve seek_wf read_bytes_wf write_bytes_wf : otto.
