(* ===== verification/SoundState.v ===== *)
(** * The sound-file object and its monad

    A [SoundFile] is a [ByteFile] with the description of the audio stream:
    [info] (the container type, the number of channels and the sample
    rate), [audioOffset] (the byte position of the first sample) and
    [sample_size] (the bytes of one sample).  The chunk types reach these
    members through the cast [(SoundFile&)file], so every method of the
    codec runs on this one state.

    [SF A] is the type of a method that returns an [A]: a function from the
    state to a result and the state it leaves, where the result is a value
    or one of the errors the codec throws.  The stream operations of
    [ByteFile] are lifted to it. *)

From Stdlib Require Import ZArith Lia List.
From stdpp Require Import base list.
From S2P Require Import Prelude Bytes Stream.
Import ListNotations.
Local Open Scope Z_scope.
Local Open Scope otto_scope.

(** [SoundFile::Info::Type]. *)
Inductive InfoType : Type := WAVE | AIFF.

#[export] Instance InfoType_eq_dec : EqDecision InfoType.
Proof. solve_decision. Defined.

(** [SoundFile::Info]. *)
Record Info : Type := mkInfo {
  type : InfoType;
  channels : Z;
  samplerate : Z
}.

Record SoundFile : Type := mkSoundFile {
  file : ByteFile.state;
  info : Info;
  audioOffset : Z;
  sample_size : Z
}.

(** What the codec throws. *)
Inductive Error : Type :=
| UnrecognizedFileType (id : bytes)
| UnsupportedEncoding
| UnsupportedBitDepth
| UnsupportedContainerKind
| MalformedContainer.

Definition SF (A : Type) : Type := M SoundFile Error A.

(** ** Assignments to members *)

Definition with_file (f : ByteFile.state) (sf : SoundFile) : SoundFile :=
  mkSoundFile f (info sf) (audioOffset sf) (sample_size sf).

Definition with_info (i : Info) (sf : SoundFile) : SoundFile :=
  mkSoundFile (file sf) i (audioOffset sf) (sample_size sf).

Definition with_audioOffset (o : Z) (sf : SoundFile) : SoundFile :=
  mkSoundFile (file sf) (info sf) o (sample_size sf).

Definition with_type (t : InfoType) (i : Info) : Info :=
  mkInfo t (channels i) (samplerate i).

Definition with_channels (c : Z) (i : Info) : Info :=
  mkInfo (type i) c (samplerate i).

Definition with_samplerate (r : Z) (i : Info) : Info :=
  mkInfo (type i) (channels i) r.

(** ** The stream operations on the sound file *)

Definition file_seek (p : Z) : SF Z :=
  fun sf => let r := ByteFile.seek p (file sf) in (Ok r.1, with_file r.2 sf).

Definition file_position : SF Z :=
  gets (fun sf => ByteFile.position (file sf)).

Definition file_size : SF Z :=
  gets (fun sf => ByteFile.size (file sf)).

Definition read_bytes (buf : bytes) : SF bytes :=
  fun sf => let r := ByteFile.read_bytes buf (file sf) in
            (Ok r.1, with_file r.2 sf).

Definition write_bytes (buf : bytes) : SF unit :=
  modify (fun sf => with_file (ByteFile.write_bytes buf (file sf)) sf).

(** The cursor of the sound file, its bytes, and the state with the cursor
    at a byte position. *)
Definition cursor_of (sf : SoundFile) : Z := ByteFile.cursor (file sf).

Definition data_of (sf : SoundFile) : bytes := ByteFile.data (file sf).

Definition at_byte (b : Z) (sf : SoundFile) : SoundFile :=
  with_file (ByteFile.mk (ByteFile.data (file sf)) b) sf.

(** ** What the stream operations leave unchanged *)

(** The members other than the stream. *)
Definition meta (sf : SoundFile) : Info * Z * Z :=
  (info sf, audioOffset sf, sample_size sf).

Lemma meta_with_file f sf : meta (with_file f sf) = meta sf.
Proof. reflexivity. Qed.

Lemma file_seek_run p sf :
  file_seek p sf =
  (Ok (ByteFile.seek p (file sf)).1, with_file (ByteFile.seek p (file sf)).2 sf).
Proof. reflexivity. Qed.

Lemma file_seek_reaches p sf :
  0 <= p ->
  file_seek p sf = (Ok p, with_file (ByteFile.mk (ByteFile.data (file sf)) p) sf).
Proof. intros. unfold file_seek. now rewrite seek_reaches. Qed.

Lemma file_seek_at p sf : 0 <= p -> file_seek p sf = (Ok p, at_byte p sf).
Proof. apply file_seek_reaches. Qed.

Lemma read_bytes_run buf sf :
  read_bytes buf sf =
  (Ok (ByteFile.read_bytes buf (file sf)).1,
   with_file (ByteFile.read_bytes buf (file sf)).2 sf).
Proof. reflexivity. Qed.

Lemma write_bytes_run buf sf :
  write_bytes buf sf = (Ok tt, with_file (ByteFile.write_bytes buf (file sf)) sf).
Proof. reflexivity. Qed.

(** Inside the file a read returns the bytes under the cursor and moves the
    cursor past them. *)
Lemma read_bytes_in buf sf :
  0 <= cursor_of sf ->
  cursor_of sf + Z.of_nat (length buf) <= ByteFile.size (file sf) ->
  read_bytes buf sf =
  (Ok (slice (Z.to_nat (cursor_of sf)) (length buf) (data_of sf)),
   at_byte (cursor_of sf + Z.of_nat (length buf)) sf).
Proof.
  intros H0 H. rewrite read_bytes_run, read_bytes_inside by assumption.
  reflexivity.
Qed.

(** The form used when the width of the field is known. *)
Lemma read_bytes_in_width n buf sf c :
  has_width n buf -> cursor_of sf = c -> 0 <= c ->
  c + Z.of_nat n <= ByteFile.size (file sf) ->
  read_bytes buf sf = (Ok (slice (Z.to_nat c) n (data_of sf)), at_byte (c + Z.of_nat n) sf).
Proof. intros <- <- H0 H. now apply read_bytes_in. Qed.

Lemma write_bytes_seq a b sf :
  ByteFile.wf (file sf) ->
  (_ <- write_bytes a ;; write_bytes b) sf = write_bytes (a ++ b) sf.
Proof.
  intros H. unfold bind. rewrite !write_bytes_run. simpl.
  now rewrite write_bytes_app.
Qed.

Lemma at_byte_at_byte b b' sf : at_byte b (at_byte b' sf) = at_byte b sf.
Proof. reflexivity. Qed.

Lemma cursor_of_at_byte b sf : cursor_of (at_byte b sf) = b.
Proof. reflexivity. Qed.

Lemma data_of_at_byte b sf : data_of (at_byte b sf) = data_of sf.
Proof. reflexivity. Qed.

Lemma size_at_byte b sf : ByteFile.size (file (at_byte b sf)) = ByteFile.size (file sf).
Proof. reflexivity. Qed.

Lemma info_at_byte b sf : info (at_byte b sf) = info sf.
Proof. reflexivity. Qed.

Lemma at_byte_cursor sf : at_byte (cursor_of sf) sf = sf.
Proof. destruct sf as [[d c] i a s]. reflexivity. Qed.

#[export] Hint Rewrite meta_with_file at_byte_at_byte cursor_of_at_byte
  data_of_at_byte size_at_byte info_at_byte : otto_rw.
