(* ===== verification/Chunk.v ===== *)
(** * Chunks: the base class and the scan of a byte range

    [ByteFile::Chunk] is the record every chunk type derives from: the tag
    [id], the length [size] of the payload and the byte [offset] of the tag
    in the file.  [read] and [write] are its non-virtual methods: they
    record the offset, transfer the 8 bytes of tag and size, and call the
    virtual [read_fields] or [write_fields] of the dynamic type.  The
    virtual methods are the class [ChunkLike]: a chunk type is an instance.

    [for_chunks_in_range] walks the chunks of a byte range: it reads the
    tag and size of a chunk, steps over its payload and goes on until the
    cursor reaches the end of the range; a chunk that would end after the
    range is an error.  The loop runs on fuel computed from the range, and
    the fuel is shown to be enough: every round moves the cursor forward by
    8 bytes at least. *)

From Stdlib Require Import ZArith Lia List.
From stdpp Require Import base list.
From S2P Require Import Prelude Bytes Stream SoundState.
Import ListNotations.
Local Open Scope Z_scope.
Local Open Scope otto_scope.

(** [ByteFile::Chunk]. *)
Record Chunk : Type := mkChunk {
  id : bytes;
  size : bytes;
  offset : Z
}.

(** The virtual methods of a chunk type [T], and its base subobject. *)
Class ChunkLike (T : Type) : Type := {
  base : T -> Chunk;
  with_base : Chunk -> T -> T;
  read_fields : T -> SF T;
  write_fields : T -> SF T
}.

Module Chunk.

(** [Chunk()] and [Chunk(id)]. *)
Definition make (i : bytes) : Chunk := mkChunk i (zeros 4) 0.

Definition beginning (c : Chunk) : Z := offset c.

Definition past_end (c : Chunk) : Z := offset c + 8 + as_u (size c).

Definition read {T} `{ChunkLike T} (this : T) : SF T :=
  p <- file_position ;;
  i <- read_bytes (id (base this)) ;;
  s <- read_bytes (size (base this)) ;;
  read_fields (with_base (mkChunk i s p) this).

Definition write {T} `{ChunkLike T} (this : T) : SF T :=
  p <- file_position ;;
  _ <- write_bytes (id (base this)) ;;
  _ <- write_bytes (size (base this)) ;;
  write_fields (with_base (mkChunk (id (base this)) (size (base this)) p) this).

(** The fields are those of a [bytes<4>] pair. *)
Definition wf (c : Chunk) : Prop := has_width 4 (id c) /\ has_width 4 (size c).

End Chunk.

(** The base class itself: its virtual methods do nothing. *)
#[export] Instance Chunk_ChunkLike : ChunkLike Chunk := {
  base c := c;
  with_base c _ := c;
  read_fields c := ret c;
  write_fields c := ret c
}.

(** ** The scan *)

(** The rounds of [for_chunks_in_range] from the cursor on, with the chunks
    passed to the callback in the order of the calls. *)
Fixpoint scan_chunks (fuel : nat) (o : Z) : SF (list Chunk) :=
  match fuel with
  | O => ret []
  | S fuel' =>
      p <- file_position ;;
      if p <? o then
        c <- Chunk.read (Chunk.make (zeros 4)) ;;
        if o <? Chunk.past_end c then throw MalformedContainer
        else
          _ <- file_seek (Chunk.past_end c) ;;
          cs <- scan_chunks fuel' o ;;
          ret (c :: cs)
      else ret []
  end.

(** Rounds that are enough for the range from [i] to [o]. *)
Definition scan_fuel (i o : Z) : nat := Z.to_nat ((o - i) / 8 + 1).

Definition for_chunks_in_range (i o : Z) : SF (list Chunk) :=
  _ <- file_seek i ;;
  scan_chunks (scan_fuel i o) o.

(** ** Reading and writing the eight bytes of a chunk's head *)

Section HeadLemmas.
Variable sf : SoundFile.
Implicit Types (c : Chunk).

(** The Chunk that [read] builds at the cursor. *)
Definition head_at (c : Chunk) : Chunk :=
  let f := file sf in
  let r1 := ByteFile.read_bytes (id c) f in
  let r2 := ByteFile.read_bytes (size c) r1.2 in
  mkChunk r1.1 r2.1 (ByteFile.cursor f).

Lemma read_plain_run c :
  Chunk.read c sf =
  (Ok (head_at c),
   with_file (ByteFile.read_bytes (size c)
                (ByteFile.read_bytes (id c) (file sf)).2).2 sf).
Proof. reflexivity. Qed.

Lemma read_plain_cursor c :
  ByteFile.cursor (file (Chunk.read c sf).2) =
  ByteFile.cursor (file sf) + Z.of_nat (length (id c)) + Z.of_nat (length (size c)).
Proof. reflexivity. Qed.

Lemma read_plain_data c :
  ByteFile.data (file (Chunk.read c sf).2) = ByteFile.data (file sf).
Proof. reflexivity. Qed.

Lemma read_plain_meta c : meta (Chunk.read c sf).2 = meta sf.
Proof. reflexivity. Qed.

Lemma head_at_wf c : Chunk.wf c -> Chunk.wf (head_at c).
Proof.
  intros [Hi Hs]. split; unfold has_width, head_at; cbv zeta; cbn [id size];
    now rewrite read_bytes_length.
Qed.

Lemma head_at_offset c : offset (head_at c) = ByteFile.cursor (file sf).
Proof. reflexivity. Qed.

End HeadLemmas.

Lemma make_wf i : has_width 4 i -> Chunk.wf (Chunk.make i).
Proof. intros H. split; [exact H | apply zeros_width]. Qed.

Lemma past_end_ge c : Chunk.beginning c + 8 <= Chunk.past_end c.
Proof. unfold Chunk.beginning, Chunk.past_end. pose proof (as_u_nonneg (size c)). lia. Qed.

#[export] Hint Resolve make_wf head_at_wf : otto.
