(* ===== verification/Scan.v ===== *)
(** * The scan of a byte range: termination and result

    [for_chunks_in_range] runs on fuel.  This file shows that the fuel it
    computes is enough whatever the file holds (every round moves the
    cursor forward by 8 bytes at least and never past the end of the
    range), that a chunk which would end after the range stops the scan
    with [MalformedContainer], and that over a well-formed sequence of
    chunks the scan returns the head of every chunk, in order, with its
    offset, and leaves the cursor at the end of the range. *)

From Stdlib Require Import ZArith Lia List.
From stdpp Require Import base list.
From S2P Require Import Prelude Bytes Stream SoundState Chunk.
Import ListNotations.
Local Open Scope Z_scope.
Local Open Scope otto_scope.

Lemma read_plain_ok c0 sf :
  Chunk.wf c0 ->
  Chunk.read c0 sf = (Ok (head_at sf c0), at_byte (cursor_of sf + 8) sf).
Proof.
  intros [Hi Hs]. rewrite read_plain_run. f_equal.
  unfold at_byte, cursor_of. cbn. rewrite Hi, Hs. do 2 f_equal. lia.
Qed.

(** ** One round of the scan *)

Section ScanStep.
Variables (o : Z) (k : nat) (sf : SoundFile).

(** The chunk head under the cursor. *)
Let c : Chunk := head_at sf (Chunk.make (zeros 4)).

Lemma scan_done : o <= cursor_of sf -> scan_chunks (S k) o sf = (Ok [], sf).
Proof.
  intros H. cbn [scan_chunks]. unfold bind, file_position, gets.
  change (ByteFile.position (file sf)) with (cursor_of sf).
  now rewrite (proj2 (Z.ltb_ge _ _) H).
Qed.

Lemma scan_malformed :
  cursor_of sf < o -> o < Chunk.past_end c ->
  scan_chunks (S k) o sf = (Throw MalformedContainer, at_byte (cursor_of sf + 8) sf).
Proof.
  intros H1 H2. cbn [scan_chunks]. unfold bind at 1, file_position, gets.
  change (ByteFile.position (file sf)) with (cursor_of sf).
  rewrite (proj2 (Z.ltb_lt _ _) H1).
  unfold bind at 1. rewrite read_plain_ok by auto with otto. fold c.
  now rewrite (proj2 (Z.ltb_lt _ _) H2).
Qed.

Lemma scan_next :
  0 <= cursor_of sf -> cursor_of sf < o -> Chunk.past_end c <= o ->
  scan_chunks (S k) o sf =
  (cs <- scan_chunks k o ;; ret (c :: cs)) (at_byte (Chunk.past_end c) sf).
Proof.
  intros H0 H1 H2. cbn [scan_chunks]. unfold bind at 1, file_position, gets.
  change (ByteFile.position (file sf)) with (cursor_of sf).
  rewrite (proj2 (Z.ltb_lt _ _) H1).
  unfold bind at 1. rewrite read_plain_ok by auto with otto. fold c.
  rewrite (proj2 (Z.ltb_ge _ _) H2).
  unfold bind at 1. rewrite file_seek_reaches; [reflexivity|].
  pose proof (past_end_ge c). unfold Chunk.beginning in *.
  change (offset c) with (cursor_of sf) in *. lia.
Qed.

Lemma head_past_end_ge : cursor_of sf + 8 <= Chunk.past_end c.
Proof. apply (past_end_ge c). Qed.

(** The three ways a round can go: the cursor has reached the end of the
    range, the chunk under the cursor ends after the range, or the chunk
    is passed and the scan goes on behind it. *)
Inductive scan_round : Prop :=
| round_done : o <= cursor_of sf -> scan_chunks (S k) o sf = (Ok [], sf) -> scan_round
| round_malformed :
    cursor_of sf < o -> o < Chunk.past_end c ->
    scan_chunks (S k) o sf = (Throw MalformedContainer, at_byte (cursor_of sf + 8) sf) ->
    scan_round
| round_next :
    cursor_of sf < o -> cursor_of sf + 8 <= Chunk.past_end c -> Chunk.past_end c <= o ->
    scan_chunks (S k) o sf =
      (cs <- scan_chunks k o ;; ret (c :: cs)) (at_byte (Chunk.past_end c) sf) ->
    scan_round.

Lemma scan_cases : 0 <= cursor_of sf -> scan_round.
Proof.
  intros H0. destruct (Z.lt_ge_cases (cursor_of sf) o) as [Hlt|Hge];
    [|now apply round_done, scan_done].
  destruct (Z.lt_ge_cases o (Chunk.past_end c)) as [Hbad|Hok].
  - now apply round_malformed, scan_malformed.
  - now apply round_next, scan_next; try apply head_past_end_ge.
Qed.

End ScanStep.

(** ** The fuel is enough *)

Lemma scan_fuel_pos i o : i < o -> (0 < scan_fuel i o)%nat.
Proof. intros. unfold scan_fuel. zdiv. Qed.

Lemma scan_fuel_step i j o :
  i + 8 <= j -> j <= o -> (S (scan_fuel j o) <= scan_fuel i o)%nat.
Proof. intros. unfold scan_fuel. zdiv. Qed.

Lemma scan_chunks_fuel_irrelevant o n m sf :
  0 <= cursor_of sf ->
  (scan_fuel (cursor_of sf) o <= n)%nat -> (scan_fuel (cursor_of sf) o <= m)%nat ->
  scan_chunks n o sf = scan_chunks m o sf.
Proof.
  revert m sf. induction n as [|n IH]; intros m sf H0 Hn Hm.
  - destruct (Z.lt_ge_cases (cursor_of sf) o) as [Hlt|Hge].
    + pose proof (scan_fuel_pos _ _ Hlt). lia.
    + destruct m; [reflexivity | now rewrite scan_done].
  - destruct (scan_cases o n sf H0) as [Hge ->|Hlt Hbad ->|Hlt Hpe Hok ->].
    + destruct m; [reflexivity | now rewrite scan_done].
    + destruct m; [pose proof (scan_fuel_pos _ _ Hlt); lia|].
      now rewrite scan_malformed.
    + destruct m; [pose proof (scan_fuel_pos _ _ Hlt); lia|].
      rewrite scan_next by assumption. unfold bind.
      pose proof (scan_fuel_step _ _ o Hpe Hok).
      rewrite (IH m (at_byte _ sf)); autorewrite with otto_rw; try lia. reflexivity.
Qed.

(** The scan terminates: the rounds that [for_chunks_in_range] allows are
    enough, in that any larger number of rounds gives the same result and
    the same state. *)
Lemma scan_fuel_enough i o n sf :
  0 <= i -> (scan_fuel i o <= n)%nat ->
  for_chunks_in_range i o sf = (_ <- file_seek i ;; scan_chunks n o) sf.
Proof.
  intros Hi Hn. unfold for_chunks_in_range, bind.
  rewrite file_seek_reaches by assumption.
  apply scan_chunks_fuel_irrelevant; autorewrite with otto_rw; auto; lia.
Qed.

(** ** A well-formed sequence of chunks *)

(** A chunk as it lies in a file: the tag and the payload. *)
Record raw : Type := mkRaw { raw_id : bytes; raw_payload : bytes }.

Definition raw_size (r : raw) : Z := Z.of_nat (length (raw_payload r)).

(** The bytes of the chunk: tag, little-endian size, payload. *)
Definition raw_image (r : raw) : bytes :=
  raw_id r ++ of_u 4 (raw_size r) ++ raw_payload r.

Definition images (rs : list raw) : bytes := concat (map raw_image rs).

(** The tag has four bytes and the size fits its field. *)
Definition raw_ok (r : raw) : Prop :=
  has_width 4 (raw_id r) /\ raw_size r < 2 ^ 32.

(** The heads that the scan should find, the first chunk at byte [p]. *)
Fixpoint heads (p : Z) (rs : list raw) : list Chunk :=
  match rs with
  | [] => []
  | r :: rs' =>
      mkChunk (raw_id r) (of_u 4 (raw_size r)) p :: heads (p + 8 + raw_size r) rs'
  end.

Lemma raw_image_length r :
  raw_ok r -> Z.of_nat (length (raw_image r)) = 8 + raw_size r.
Proof.
  intros [Hi _]. unfold raw_image, raw_size, has_width in *.
  rewrite !length_app, length_of_u, Hi. lia.
Qed.

Lemma images_cons r rs : images (r :: rs) = raw_image r ++ images rs.
Proof. reflexivity. Qed.

Lemma images_length_ge rs :
  Forall raw_ok rs -> 8 * Z.of_nat (length rs) <= Z.of_nat (length (images rs)).
Proof.
  induction 1 as [|r rs Hr _ IH]; [simpl; lia|].
  rewrite images_cons, length_app. cbn [length].
  pose proof (raw_image_length r Hr). unfold raw_size in *. lia.
Qed.

(** The head read where a tag [a] and a size field [b] lie. *)
Lemma head_at_fields sf c0 pre a b post :
  Chunk.wf c0 -> has_width 4 a -> has_width 4 b ->
  data_of sf = pre ++ a ++ b ++ post ->
  cursor_of sf = Z.of_nat (length pre) ->
  head_at sf c0 = mkChunk a b (cursor_of sf).
Proof.
  intros [Hi Hs] Ha Hb Hd Hc. unfold head_at. cbv zeta.
  unfold has_width, cursor_of, data_of in *.
  assert (Hlen : Z.of_nat (length pre) + 8 <= ByteFile.size (file sf)).
  { unfold ByteFile.size. rewrite Hd, !length_app, Ha, Hb. lia. }
  rewrite !read_bytes_inside; cbn [ByteFile.read_bytes snd ByteFile.cursor
    ByteFile.data]; rewrite ?Hi, ?Hs;
    try (unfold ByteFile.size in *; cbn [ByteFile.data] in *; lia).
  f_equal; rewrite Hd, Hc.
  - apply slice_app_mid'; [lia | auto].
  - rewrite (app_assoc pre). apply slice_app_mid'; [|auto].
    rewrite length_app, Ha. lia.
Qed.

(** The head read where a chunk lies. *)
Lemma head_at_image sf c0 pre r post :
  Chunk.wf c0 -> raw_ok r ->
  data_of sf = pre ++ raw_image r ++ post ->
  cursor_of sf = Z.of_nat (length pre) ->
  head_at sf c0 = mkChunk (raw_id r) (of_u 4 (raw_size r)) (cursor_of sf).
Proof.
  intros Hwf [Hri _] Hd Hc. unfold raw_image in Hd. rewrite <- !app_assoc in Hd.
  eapply head_at_fields; eauto. apply length_of_u.
Qed.

(** Where a chunk lies, the head read there ends where the chunk ends. *)
Lemma past_end_image sf pre r post :
  raw_ok r ->
  data_of sf = pre ++ raw_image r ++ post ->
  cursor_of sf = Z.of_nat (length pre) ->
  Chunk.past_end (head_at sf (Chunk.make (zeros 4))) = cursor_of sf + 8 + raw_size r.
Proof.
  intros Hr Hd Hc.
  rewrite (head_at_image sf (Chunk.make (zeros 4)) pre r post
             ltac:(auto with otto) Hr Hd Hc).
  unfold Chunk.past_end; cbn [offset size].
  rewrite as_u_of_u_small; [reflexivity|]. destruct Hr. unfold raw_size in *.
  change (2 ^ (8 * Z.of_nat 4)) with (2 ^ 32). lia.
Qed.

(** Over a well-formed sequence of chunks the scan returns the head of
    every chunk in order, each with the offset it lies at, and stops with
    the cursor at the end of the range, whatever the payloads hold. *)
Lemma scan_well_formed rs : forall pre post sf n o,
  Forall raw_ok rs ->
  data_of sf = pre ++ images rs ++ post ->
  cursor_of sf = Z.of_nat (length pre) ->
  o = Z.of_nat (length pre) + Z.of_nat (length (images rs)) ->
  (length rs < n)%nat ->
  scan_chunks n o sf = (Ok (heads (Z.of_nat (length pre)) rs), at_byte o sf).
Proof.
  induction rs as [|r rs IH]; intros pre post sf n o Hok Hd Hc Ho Hn;
    (destruct n as [|n]; [simpl in Hn; lia|]).
  - rewrite scan_done by (simpl in Ho; lia).
    simpl in Ho. replace o with (cursor_of sf) by lia.
    now rewrite at_byte_cursor.
  - apply Forall_cons in Hok as [Hr Hrs].
    pose proof (raw_image_length r Hr) as Hl.
    rewrite images_cons, <- app_assoc in Hd.
    rewrite images_cons, length_app in *.
    assert (Hh := head_at_image sf (Chunk.make (zeros 4)) pre r _
                    ltac:(auto with otto) Hr Hd Hc).
    pose proof (past_end_image sf pre r _ Hr Hd Hc) as Hpe.
    rewrite scan_next by (rewrite ?Hpe; unfold raw_size in *; lia).
    cbv zeta. rewrite Hpe. unfold bind.
    rewrite (IH (pre ++ raw_image r) post _ n o Hrs).
    + unfold ret. rewrite Hh, at_byte_at_byte. cbn [heads].
      now rewrite Hc, length_app, Nat2Z.inj_add, Hl, Z.add_assoc.
    + rewrite data_of_at_byte, Hd. now rewrite <- app_assoc.
    + rewrite cursor_of_at_byte, length_app, Nat2Z.inj_add. lia.
    + rewrite length_app. lia.
    + simpl in Hn. lia.
Qed.

(** A range that ends inside the chunk [r], after the well-formed chunks
    [rs]: the scan walks [rs], reads the head of [r] and stops with
    [MalformedContainer]. *)
Lemma scan_overrun rs r : forall pre post sf n o,
  Forall raw_ok rs -> raw_ok r ->
  data_of sf = pre ++ images rs ++ raw_image r ++ post ->
  cursor_of sf = Z.of_nat (length pre) ->
  Z.of_nat (length pre) + Z.of_nat (length (images rs)) < o ->
  o < Z.of_nat (length pre) + Z.of_nat (length (images rs)) + 8 + raw_size r ->
  (length rs < n)%nat ->
  scan_chunks n o sf =
  (Throw MalformedContainer,
   at_byte (Z.of_nat (length pre) + Z.of_nat (length (images rs)) + 8) sf).
Proof.
  induction rs as [|r0 rs IH]; intros pre post sf n o Hok Hr Hd Hc Hlo Hhi Hn;
    (destruct n as [|n]; [simpl in Hn; lia|]).
  - cbn [images map concat length] in *. cbn [app] in Hd.
    pose proof (past_end_image sf pre r _ Hr Hd Hc) as Hpe.
    rewrite scan_malformed; [do 2 f_equal; lia | lia | lia].
  - apply Forall_cons in Hok as [Hr0 Hrs].
    pose proof (raw_image_length r0 Hr0) as Hl.
    rewrite images_cons, <- app_assoc in Hd.
    rewrite images_cons, length_app in *.
    pose proof (past_end_image sf pre r0 _ Hr0 Hd Hc) as Hpe.
    rewrite scan_next by (rewrite ?Hpe; unfold raw_size in *; lia).
    cbv zeta. rewrite Hpe. unfold bind.
    rewrite (IH (pre ++ raw_image r0) post _ n o Hrs Hr).
    + rewrite at_byte_at_byte, length_app. do 2 f_equal. lia.
    + rewrite data_of_at_byte, Hd. now rewrite <- app_assoc.
    + rewrite cursor_of_at_byte, length_app, Nat2Z.inj_add. lia.
    + rewrite length_app. lia.
    + rewrite length_app. lia.
    + simpl in Hn. lia.
Qed.

(** ** What a scan that succeeds has found *)

(** The chunks lie one after the other from byte [p] to byte [q]. *)
Fixpoint chained (p : Z) (cs : list Chunk) (q : Z) : Prop :=
  match cs with
  | [] => p = q
  | c :: cs' => offset c = p /\ chained (Chunk.past_end c) cs' q
  end.

Lemma chained_le p cs q : chained p cs q -> p + 8 * Z.of_nat (length cs) <= q.
Proof.
  revert p; induction cs as [|c cs IH]; intros p; cbn [chained length].
  - lia.
  - intros [Hp Hc]. apply IH in Hc. pose proof (past_end_ge c).
    unfold Chunk.beginning in *. lia.
Qed.

(** With enough fuel, a scan that returns has walked to the end of the
    range: the chunks it found tile the bytes from the cursor to the end,
    and nothing but the cursor has changed. *)
Lemma scan_chunks_tiles o n : forall sf cs sf',
  0 <= cursor_of sf -> (scan_fuel (cursor_of sf) o <= n)%nat ->
  scan_chunks n o sf = (Ok cs, sf') ->
  chained (cursor_of sf) cs (cursor_of sf') /\
  cursor_of sf' = Z.max (cursor_of sf) o /\
  sf' = at_byte (cursor_of sf') sf.
Proof.
  induction n as [|n IH]; intros sf cs sf' H0 Hn Hrun.
  - cbn in Hrun. invc Hrun. cbn [chained]. rewrite at_byte_cursor.
    repeat split; auto.
    destruct (Z.lt_ge_cases (cursor_of sf') o) as [Hlt|Hge]; [|lia].
    pose proof (scan_fuel_pos _ _ Hlt). lia.
  - destruct (scan_cases o n sf H0) as [Hge E|Hlt Hbad E|Hlt Hpe Hok E];
      rewrite E in Hrun; clear E; [| discriminate |].
    { invc Hrun. cbn [chained]. rewrite at_byte_cursor. repeat split; auto; lia. }
    apply bind_returns_inv in Hrun as (cs' & sf1 & Hrun & Hret). invc Hret.
    pose proof (scan_fuel_step _ _ o Hpe Hok).
    apply IH in Hrun as (Hch & Hend & Hst);
      autorewrite with otto_rw in *; try lia.
    cbn [chained]. repeat split; auto; lia.
Qed.

(** ** What every scan returns *)

(** A chunk with a head of the width of its fields, at a byte of the
    file. *)
Definition placed (c : Chunk) : Prop := Chunk.wf c /\ 0 <= offset c.

(** Whatever the file holds and whatever the fuel, the chunks a scan
    returns are placed. *)
Lemma scan_chunks_placed o n : forall sf cs sf',
  0 <= cursor_of sf -> scan_chunks n o sf = (Ok cs, sf') -> Forall placed cs.
Proof.
  induction n as [|n IH]; intros sf cs sf' H0 Hrun; [invc Hrun; constructor|].
  destruct (scan_cases o n sf H0) as [Hge E|Hlt Hbad E|Hlt Hpe Hok E];
    rewrite E in Hrun; clear E; [invc Hrun; constructor | discriminate |].
  apply bind_returns_inv in Hrun as (cs' & sf1 & Hrun & Hret). invc Hret.
  constructor; [split; [auto with otto | exact H0]|].
  eapply IH; [|exact Hrun]. autorewrite with otto_rw. lia.
Qed.
