(* ===== verification/Wave.v ===== *)
(** * The chunk types of the WAVE codec

    The three chunk types that soundfile.cpp derives from [Chunk]:

    - [WAVE_fmt], the description of the stream: six fixed-width fields.
      [read_fields] reads them, refuses every encoding but 32-bit float and
      publishes the channel count and the sample rate to the sound file;
      [write_fields] recomputes all six from the sound file and writes them.
    - [WAVE_data], the marker of the payload: both methods record
      [offset + 8] as the [audioOffset] of the sound file.
    - [Header], the container: a [format] tag and the child chunks.
      [read_fields] reads the tag and collects the chunks of the payload
      range as plain chunks; [write_fields] writes the tag and then every
      child through its own [write].

    [AnyChunk] is what a [std::unique_ptr<Chunk>] of the codec may own: a
    plain [Chunk], a [WAVE_fmt], a [WAVE_data], or a chunk of a type the
    embedder derives from [Chunk] ([CustomChunk]: the base subobject with
    the two virtual methods of its type); its [ChunkLike] instance is the
    virtual dispatch. *)

From Stdlib Require Import ZArith Lia List String.
From stdpp Require Import base list.
From S2P Require Import Prelude Bytes Stream SoundState Chunk.
Import ListNotations.
Local Open Scope Z_scope.
Local Open Scope otto_scope.

(** [struct WAVE_fmt : Chunk]. *)
Record WAVE_fmt : Type := mkWAVE_fmt {
  fmt_chunk : Chunk;
  audioFormat : bytes;
  numChannels : bytes;
  sampleRate : bytes;
  byteRate : bytes;
  blockAlign : bytes;
  bitsPerSample : bytes
}.

(** [struct WAVE_data : Chunk]. *)
Record WAVE_data : Type := mkWAVE_data {
  data_chunk : Chunk
}.

(** A chunk of a type the embedder derives from [Chunk]: the codec sees
    the base subobject and calls the two virtual methods, which get the
    base subobject as [this]. *)
Record CustomChunk : Type := mkCustomChunk {
  custom_chunk : Chunk;
  custom_read_fields : Chunk -> SF unit;
  custom_write_fields : Chunk -> SF unit
}.

(** The dynamic types of the chunks a header owns. *)
Inductive AnyChunk : Type :=
| Plain (c : Chunk)
| Fmt (w : WAVE_fmt)
| Data (d : WAVE_data)
| Custom (x : CustomChunk).

(** [struct Header : Chunk]. *)
Record Header : Type := mkHeader {
  header_chunk : Chunk;
  format : bytes;
  chunks : list AnyChunk
}.

Module WAVE_fmt.

(** [WAVE_fmt(Chunk& o)]: the base is copied, the fields take their defaults. *)
Definition of_chunk (o : Chunk) : WAVE_fmt :=
  mkWAVE_fmt o (of_u 2 3) (zeros 2) (zeros 4) (zeros 4) (zeros 2) (zeros 2).

(** [WAVE_fmt()]. *)
Definition make : WAVE_fmt := of_chunk (Chunk.make (tag "fmt ")).

Definition with_chunk (c : Chunk) (w : WAVE_fmt) : WAVE_fmt :=
  mkWAVE_fmt c (audioFormat w) (numChannels w) (sampleRate w) (byteRate w)
             (blockAlign w) (bitsPerSample w).

(** The six [read_bytes] calls. *)
Definition get_fields (w : WAVE_fmt) : SF WAVE_fmt :=
  af <- read_bytes (audioFormat w) ;;
  nc <- read_bytes (numChannels w) ;;
  sr <- read_bytes (sampleRate w) ;;
  br <- read_bytes (byteRate w) ;;
  ba <- read_bytes (blockAlign w) ;;
  bps <- read_bytes (bitsPerSample w) ;;
  ret (mkWAVE_fmt (fmt_chunk w) af nc sr br ba bps).

Definition read_fields (w : WAVE_fmt) : SF WAVE_fmt :=
  w' <- get_fields w ;;
  if negb (as_u (audioFormat w') =? 3) then throw UnsupportedEncoding
  else
    _ <- modify (fun sf => with_info (with_channels (as_u (numChannels w')) (info sf)) sf) ;;
    _ <- modify (fun sf => with_info (with_samplerate (as_u (sampleRate w')) (info sf)) sf) ;;
    if negb (as_u (bitsPerSample w') =? 32) then throw UnsupportedBitDepth
    else ret w'.

(** The assignments of [write_fields]: every field is recomputed from the
    sound file.  The products of [byteRate] are those of [uint32_t]. *)
Definition compute_fields (sf : SoundFile) (w : WAVE_fmt) : WAVE_fmt :=
  let af := of_u 2 3 in
  let nc := of_u 2 (channels (info sf)) in
  let sr := of_u 4 (samplerate (info sf)) in
  let bps := of_u 2 (sample_size sf * 8) in
  let br := of_u 4 (wrap 32 (wrap 32 (as_u sr * as_u nc) * as_u bps) / 8) in
  let ba := of_u 2 (as_u nc * as_u bps / 8) in
  mkWAVE_fmt (fmt_chunk w) af nc sr br ba bps.

(** The six [write_bytes] calls. *)
Definition put_fields (w : WAVE_fmt) : SF unit :=
  _ <- write_bytes (audioFormat w) ;;
  _ <- write_bytes (numChannels w) ;;
  _ <- write_bytes (sampleRate w) ;;
  _ <- write_bytes (byteRate w) ;;
  _ <- write_bytes (blockAlign w) ;;
  write_bytes (bitsPerSample w).

Definition write_fields (w : WAVE_fmt) : SF WAVE_fmt :=
  sf <- get ;;
  let w' := compute_fields sf w in
  _ <- put_fields w' ;;
  ret w'.

End WAVE_fmt.

Module WAVE_data.

(** [WAVE_data(Chunk& c)]. *)
Definition of_chunk (c : Chunk) : WAVE_data := mkWAVE_data c.

(** [WAVE_data()]. *)
Definition make : WAVE_data := of_chunk (Chunk.make (tag "data")).

Definition read_fields (d : WAVE_data) : SF WAVE_data :=
  _ <- modify (with_audioOffset (offset (data_chunk d) + 8)) ;;
  ret d.

Definition write_fields (d : WAVE_data) : SF WAVE_data :=
  _ <- modify (with_audioOffset (offset (data_chunk d) + 8)) ;;
  ret d.

End WAVE_data.

#[export] Instance WAVE_fmt_ChunkLike : ChunkLike WAVE_fmt := {
  base := fmt_chunk;
  with_base := WAVE_fmt.with_chunk;
  read_fields := WAVE_fmt.read_fields;
  write_fields := WAVE_fmt.write_fields
}.

#[export] Instance WAVE_data_ChunkLike : ChunkLike WAVE_data := {
  base := data_chunk;
  with_base c _ := mkWAVE_data c;
  read_fields := WAVE_data.read_fields;
  write_fields := WAVE_data.write_fields
}.

(** The virtual call through a [unique_ptr<Chunk>]. *)
#[export] Instance AnyChunk_ChunkLike : ChunkLike AnyChunk := {
  base ch :=
    match ch with
    | Plain c => c
    | Fmt w => fmt_chunk w
    | Data d => data_chunk d
    | Custom x => custom_chunk x
    end;
  with_base c ch :=
    match ch with
    | Plain _ => Plain c
    | Fmt w => Fmt (WAVE_fmt.with_chunk c w)
    | Data _ => Data (mkWAVE_data c)
    | Custom x => Custom (mkCustomChunk c (custom_read_fields x) (custom_write_fields x))
    end;
  read_fields ch :=
    match ch with
    | Plain c => ret (Plain c)
    | Fmt w => w' <- WAVE_fmt.read_fields w ;; ret (Fmt w')
    | Data d => d' <- WAVE_data.read_fields d ;; ret (Data d')
    | Custom x => _ <- custom_read_fields x (custom_chunk x) ;; ret (Custom x)
    end;
  write_fields ch :=
    match ch with
    | Plain c => ret (Plain c)
    | Fmt w => w' <- WAVE_fmt.write_fields w ;; ret (Fmt w')
    | Data d => d' <- WAVE_data.write_fields d ;; ret (Data d')
    | Custom x => _ <- custom_write_fields x (custom_chunk x) ;; ret (Custom x)
    end
}.

Module Header.

(** [Header()]. *)
Definition make : Header := mkHeader (Chunk.make (zeros 4)) (zeros 4) [].

Definition read_fields (h : Header) : SF Header :=
  fm <- read_bytes (format h) ;;
  found <- for_chunks_in_range
             (offset (header_chunk h) + 12)
             (offset (header_chunk h) + 8 + as_u (size (header_chunk h))) ;;
  ret (mkHeader (header_chunk h) fm (chunks h ++ map Plain found)).

Definition write_fields (h : Header) : SF Header :=
  _ <- write_bytes (format h) ;;
  cs <- mapM Chunk.write (chunks h) ;;
  ret (mkHeader (header_chunk h) (format h) cs).

End Header.

#[export] Instance Header_ChunkLike : ChunkLike Header := {
  base := header_chunk;
  with_base c h := mkHeader c (format h) (chunks h);
  read_fields := Header.read_fields;
  write_fields := Header.write_fields
}.

(** ** The format chunk as a block of sixteen bytes *)

(** The six fields have the widths of their types. *)
Record fmt_wf (w : WAVE_fmt) : Prop := {
  wf_audioFormat : has_width 2 (audioFormat w);
  wf_numChannels : has_width 2 (numChannels w);
  wf_sampleRate : has_width 4 (sampleRate w);
  wf_byteRate : has_width 4 (byteRate w);
  wf_blockAlign : has_width 2 (blockAlign w);
  wf_bitsPerSample : has_width 2 (bitsPerSample w)
}.

(** The bytes of the fields in the order they are written. *)
Definition fmt_image (w : WAVE_fmt) : bytes :=
  audioFormat w ++ numChannels w ++ sampleRate w ++ byteRate w ++
  blockAlign w ++ bitsPerSample w.

(** The fields cut out of a block. *)
Definition fmt_parse (c : Chunk) (b : bytes) : WAVE_fmt :=
  mkWAVE_fmt c (slice 0 2 b) (slice 2 2 b) (slice 4 4 b) (slice 8 4 b)
             (slice 12 2 b) (slice 14 2 b).

Lemma of_chunk_wf o : fmt_wf (WAVE_fmt.of_chunk o).
Proof. split; simpl; auto with otto. Qed.

Lemma compute_fields_wf sf w : fmt_wf (WAVE_fmt.compute_fields sf w).
Proof. split; simpl; auto with otto. Qed.

(** The computed fields depend on the description of the stream only. *)
Lemma compute_fields_meta sf1 sf2 w :
  info sf1 = info sf2 -> sample_size sf1 = sample_size sf2 ->
  WAVE_fmt.compute_fields sf1 w = WAVE_fmt.compute_fields sf2 w.
Proof. unfold WAVE_fmt.compute_fields. now intros -> ->. Qed.

Lemma with_chunk_wf c w : fmt_wf w -> fmt_wf (WAVE_fmt.with_chunk c w).
Proof. intros []. split; assumption. Qed.

Lemma fmt_image_length w : fmt_wf w -> length (fmt_image w) = 16%nat.
Proof.
  intros []. unfold fmt_image, has_width in *. rewrite !length_app. lia.
Qed.

Lemma fmt_parse_image w : fmt_wf w -> fmt_parse (fmt_chunk w) (fmt_image w) = w.
Proof.
  intros [H1 H2 H3 H4 H5 H6]. destruct w as [c af nc sr br ba bps].
  unfold has_width in *; cbn [audioFormat numChannels sampleRate byteRate
    blockAlign bitsPerSample] in *. explode_lists. reflexivity.
Qed.

Lemma fmt_parse_wf c b : (16 <= length b)%nat -> fmt_wf (fmt_parse c b).
Proof.
  intros. split; unfold has_width; simpl; apply length_slice_le; lia.
Qed.

(** Field by field, [put_fields] stores the block at the cursor. *)
Lemma put_fields_run w sf :
  ByteFile.wf (file sf) ->
  WAVE_fmt.put_fields w sf =
  (Ok tt, with_file (ByteFile.write_bytes (fmt_image w) (file sf)) sf).
Proof.
  intros H. unfold fmt_image.
  rewrite <- !write_bytes_app by auto 10 with otto.
  reflexivity.
Qed.

(** Field by field, [get_fields] cuts the block under the cursor. *)
Lemma get_fields_run w sf :
  fmt_wf w -> 0 <= cursor_of sf ->
  cursor_of sf + 16 <= ByteFile.size (file sf) ->
  WAVE_fmt.get_fields w sf =
  (Ok (fmt_parse (fmt_chunk w) (slice (Z.to_nat (cursor_of sf)) 16 (data_of sf))),
   at_byte (cursor_of sf + 16) sf).
Proof.
  intros [H1 H2 H3 H4 H5 H6] H0 Hsz. unfold WAVE_fmt.get_fields.
  set (c := cursor_of sf) in *.
  rewrite (bind_ok _ _ _ _ _ (read_bytes_in_width 2 _ sf c H1 eq_refl H0 ltac:(lia))).
  repeat (erewrite bind_ok by
    (eapply read_bytes_in_width;
      [eassumption | reflexivity | autorewrite with otto_rw; lia ..])).
  unfold ret, fmt_parse. autorewrite with otto_rw. f_equal.
  - do 2 f_equal; rewrite slice_slice by lia; f_equal; lia.
  - f_equal. simpl. lia.
Qed.

(** ** Reading the format chunk *)

(** What [read_fields] publishes to the sound file. *)
Definition publish (w : WAVE_fmt) (sf : SoundFile) : SoundFile :=
  with_info (mkInfo (type (info sf)) (as_u (numChannels w)) (as_u (sampleRate w))) sf.

(** The checks of [read_fields] on the fields it has read. *)
Definition fmt_accept (w : WAVE_fmt) (sf : SoundFile) : result Error WAVE_fmt * SoundFile :=
  if as_u (audioFormat w) =? 3 then
    if as_u (bitsPerSample w) =? 32 then (Ok w, publish w sf)
    else (Throw UnsupportedBitDepth, publish w sf)
  else (Throw UnsupportedEncoding, sf).

Lemma fmt_accept_ok w sf :
  as_u (audioFormat w) = 3 -> as_u (bitsPerSample w) = 32 ->
  fmt_accept w sf = (Ok w, publish w sf).
Proof. intros Ha Hb. unfold fmt_accept. now rewrite Ha, Hb. Qed.

Lemma read_fields_after_get w sf w' sf' :
  WAVE_fmt.get_fields w sf = (Ok w', sf') ->
  WAVE_fmt.read_fields w sf = fmt_accept w' sf'.
Proof.
  intros H. unfold WAVE_fmt.read_fields, fmt_accept.
  rewrite (bind_ok _ _ _ _ _ H).
  destruct (as_u (audioFormat w') =? 3); [|reflexivity].
  destruct (as_u (bitsPerSample w') =? 32); reflexivity.
Qed.

Section FmtRead.
Variables (w : WAVE_fmt) (sf : SoundFile).
Hypothesis Hw : fmt_wf w.
Hypothesis Hc : 0 <= cursor_of sf.
Hypothesis Hsz : cursor_of sf + 16 <= ByteFile.size (file sf).

(** The block under the cursor and the fields cut out of it. *)
Let block : bytes := slice (Z.to_nat (cursor_of sf)) 16 (data_of sf).
Let w' : WAVE_fmt := fmt_parse (fmt_chunk w) block.
Let sf' : SoundFile := at_byte (cursor_of sf + 16) sf.

Lemma fmt_read_fields_run : WAVE_fmt.read_fields w sf = fmt_accept w' sf'.
Proof. apply read_fields_after_get, get_fields_run; assumption. Qed.

(** A format chunk whose encoding tag is not 3 is refused with
    [UnsupportedEncoding]; nothing of the sound file changes but the cursor,
    which is past the sixteen bytes. *)
Theorem fmt_rejects_encoding :
  as_u (audioFormat w') <> 3 ->
  WAVE_fmt.read_fields w sf = (Throw UnsupportedEncoding, sf').
Proof.
  intros H. rewrite fmt_read_fields_run. unfold fmt_accept.
  now rewrite (proj2 (Z.eqb_neq _ _) H).
Qed.

(** A format chunk of float encoding whose samples are not of 32 bits is
    refused with [UnsupportedBitDepth], after the channel count and the
    sample rate of the chunk have been stored in the sound file. *)
Theorem fmt_rejects_bit_depth :
  as_u (audioFormat w') = 3 -> as_u (bitsPerSample w') <> 32 ->
  WAVE_fmt.read_fields w sf = (Throw UnsupportedBitDepth, publish w' sf').
Proof.
  intros Ha Hb. rewrite fmt_read_fields_run. unfold fmt_accept.
  now rewrite (proj2 (Z.eqb_eq _ _) Ha), (proj2 (Z.eqb_neq _ _) Hb).
Qed.

(** A format chunk of 32-bit float samples is accepted: the fields are
    those of the block and the sound file takes its channel count and rate. *)
Theorem fmt_accepts_float32 :
  as_u (audioFormat w') = 3 -> as_u (bitsPerSample w') = 32 ->
  WAVE_fmt.read_fields w sf = (Ok w', publish w' sf').
Proof.
  intros Ha Hb. rewrite fmt_read_fields_run. now apply fmt_accept_ok.
Qed.

End FmtRead.

(** ** Writing the format chunk *)

Lemma fmt_write_fields_run w sf :
  ByteFile.wf (file sf) ->
  WAVE_fmt.write_fields w sf =
  (Ok (WAVE_fmt.compute_fields sf w),
   with_file (ByteFile.write_bytes (fmt_image (WAVE_fmt.compute_fields sf w))
                (file sf)) sf).
Proof.
  intros H. unfold WAVE_fmt.write_fields, bind, get.
  now rewrite put_fields_run.
Qed.

Lemma fmt_parse_image_chunk c w :
  fmt_wf w -> fmt_parse c (fmt_image w) = WAVE_fmt.with_chunk c w.
Proof.
  intros H. change (fmt_image w) with (fmt_image (WAVE_fmt.with_chunk c w)).
  change c with (fmt_chunk (WAVE_fmt.with_chunk c w)) at 1.
  apply fmt_parse_image. now apply with_chunk_wf.
Qed.

(** The state after [write_fields] at cursor [c]: the block is in the file
    at [c] and the cursor is past it. *)
Lemma fmt_written_block w sf :
  ByteFile.wf (file sf) ->
  let sf1 := (WAVE_fmt.write_fields w sf).2 in
  cursor_of sf1 = cursor_of sf + 16 /\
  slice (Z.to_nat (cursor_of sf)) 16 (data_of sf1) =
    fmt_image (WAVE_fmt.compute_fields sf w) /\
  cursor_of sf + 16 <= ByteFile.size (file sf1) /\
  meta sf1 = meta sf.
Proof.
  intros H. rewrite fmt_write_fields_run by assumption. cbv zeta.
  pose proof (fmt_image_length _ (compute_fields_wf sf w)) as Hl.
  unfold cursor_of, data_of; cbn [snd file with_file ByteFile.write_bytes
    ByteFile.cursor ByteFile.data].
  rewrite write_bytes_size by assumption. rewrite Hl.
  repeat split; try lia.
  rewrite <- Hl at 1. apply slice_splice_same.
Qed.

(** C5: round trip of the format chunk: what [write_fields] stores,
    [read_fields] accepts at the same place, and it publishes the channel
    count and the sample rate of the writer, whatever the reader held. *)
Theorem fmt_write_read_roundtrip w w0 sf i0 :
  ByteFile.wf (file sf) -> fmt_wf w0 -> sample_size sf = 4 ->
  0 <= channels (info sf) < 2 ^ 16 -> 0 <= samplerate (info sf) < 2 ^ 32 ->
  let sf1 := (WAVE_fmt.write_fields w sf).2 in
  WAVE_fmt.read_fields w0 (with_info i0 (at_byte (cursor_of sf) sf1)) =
  (Ok (WAVE_fmt.with_chunk (fmt_chunk w0) (WAVE_fmt.compute_fields sf w)),
   with_info (mkInfo (type i0) (channels (info sf)) (samplerate (info sf))) sf1).
Proof.
  intros Hf Hw0 Hss Hch Hsr sf1.
  destruct (fmt_written_block w sf Hf) as (Hc1 & Hblk & Hsz & _). fold sf1 in Hc1, Hblk, Hsz.
  set (sf2 := with_info i0 (at_byte (cursor_of sf) sf1)).
  assert (Hp : fmt_parse (fmt_chunk w0) (slice (Z.to_nat (cursor_of sf2)) 16 (data_of sf2))
               = WAVE_fmt.with_chunk (fmt_chunk w0) (WAVE_fmt.compute_fields sf w)).
  { change (cursor_of sf2) with (cursor_of sf). change (data_of sf2) with (data_of sf1).
    rewrite Hblk. apply fmt_parse_image_chunk, compute_fields_wf. }
  rewrite (fmt_read_fields_run w0 sf2 Hw0 Hf Hsz), Hp, fmt_accept_ok.
  - f_equal. unfold publish. cbn [numChannels sampleRate WAVE_fmt.with_chunk
      WAVE_fmt.compute_fields]. rewrite !as_u_of_u_small by assumption.
    change (cursor_of sf2 + 16) with (cursor_of sf + 16). rewrite <- Hc1.
    unfold sf2. destruct sf1 as [[d c] i a s]. reflexivity.
  - cbn. now rewrite as_u_of_u_small.
  - cbn. rewrite Hss. now rewrite as_u_of_u_small.
Qed.

(** C24: the derived fields: for 32-bit samples and values that fit their
    fields, [write_fields] stores [blockAlign = channels * 4] and
    [byteRate = samplerate * blockAlign]. *)
Theorem fmt_derived_fields sf w :
  sample_size sf = 4 ->
  0 <= channels (info sf) < 2 ^ 14 -> 0 <= samplerate (info sf) < 2 ^ 32 ->
  samplerate (info sf) * channels (info sf) * 32 < 2 ^ 32 ->
  let w' := WAVE_fmt.compute_fields sf w in
  as_u (numChannels w') = channels (info sf) /\
  as_u (sampleRate w') = samplerate (info sf) /\
  as_u (bitsPerSample w') = 32 /\
  as_u (blockAlign w') = channels (info sf) * 4 /\
  as_u (byteRate w') = samplerate (info sf) * (channels (info sf) * 4).
Proof.
  intros Hss Hch Hsr Hbr. cbn. rewrite Hss.
  assert (Hc : as_u (of_u 2 (channels (info sf))) = channels (info sf))
    by (apply as_u_of_u_small; lia).
  assert (Hb : as_u (of_u 2 (4 * 8)) = 32) by now apply as_u_of_u_small.
  assert (Hr : as_u (of_u 4 (samplerate (info sf))) = samplerate (info sf)).
  { now apply as_u_of_u_small. }
  rewrite Hc, Hb, Hr.
  change (2 ^ 14) with 16384 in Hch. change (2 ^ 32) with 4294967296 in *.
  rewrite wrap_mul_idemp, (wrap_small 32) by (change (2 ^ 32) with 4294967296; lia).
  replace (channels (info sf) * 32 / 8) with (channels (info sf) * 4) by zdiv.
  replace (samplerate (info sf) * channels (info sf) * 32 / 8)
    with (samplerate (info sf) * (channels (info sf) * 4)) by zdiv.
  repeat split; apply as_u_of_u_small;
    [change (2 ^ (8 * Z.of_nat 2)) with 65536
    |change (2 ^ (8 * Z.of_nat 4)) with 4294967296]; lia.
Qed.

(** ** Concrete format blocks *)

(** A sound file whose bytes are one format block with the encoding [af]
    and [bits] bits a sample, for two channels at 44100 Hz. *)
Definition demo_block (af bits : Z) : SoundFile :=
  mkSoundFile
    (ByteFile.mk (of_u 2 af ++ of_u 2 2 ++ of_u 4 44100 ++ of_u 4 352800 ++
                  of_u 2 8 ++ of_u 2 bits) 0)
    (mkInfo WAVE 0 0) 0 4.

(** A sound file that is about to be written: two channels at 44100 Hz,
    samples of four bytes. *)
Definition demo_stream : SoundFile :=
  mkSoundFile (ByteFile.mk [] 0) (mkInfo WAVE 2 44100) 0 4.

Lemma fmt_rejects_encoding_witness :
  WAVE_fmt.read_fields WAVE_fmt.make (demo_block 1 16) =
  (Throw UnsupportedEncoding, at_byte (cursor_of (demo_block 1 16) + 16) (demo_block 1 16)).
Proof.
  apply (fmt_rejects_encoding WAVE_fmt.make (demo_block 1 16));
    [apply of_chunk_wf | concrete ..].
Defined.

Lemma fmt_rejects_bit_depth_witness :
  WAVE_fmt.read_fields WAVE_fmt.make (demo_block 3 16) =
  (Throw UnsupportedBitDepth,
   publish (fmt_parse (fmt_chunk WAVE_fmt.make)
              (slice (Z.to_nat (cursor_of (demo_block 3 16))) 16
                     (data_of (demo_block 3 16))))
           (at_byte (cursor_of (demo_block 3 16) + 16) (demo_block 3 16))).
Proof.
  apply (fmt_rejects_bit_depth WAVE_fmt.make (demo_block 3 16));
    [apply of_chunk_wf | concrete ..].
Defined.

Lemma fmt_accepts_float32_witness :
  channels (info (WAVE_fmt.read_fields WAVE_fmt.make (demo_block 3 32)).2) = 2 /\
  WAVE_fmt.read_fields WAVE_fmt.make (demo_block 3 32) =
  (Ok (fmt_parse (fmt_chunk WAVE_fmt.make)
         (slice (Z.to_nat (cursor_of (demo_block 3 32))) 16 (data_of (demo_block 3 32)))),
   publish (fmt_parse (fmt_chunk WAVE_fmt.make)
              (slice (Z.to_nat (cursor_of (demo_block 3 32))) 16
                     (data_of (demo_block 3 32))))
           (at_byte (cursor_of (demo_block 3 32) + 16) (demo_block 3 32))).
Proof.
  split; [now vm_compute|].
  apply (fmt_accepts_float32 WAVE_fmt.make (demo_block 3 32));
    [apply of_chunk_wf | concrete ..].
Defined.

Lemma fmt_write_read_roundtrip_witness :
  WAVE_fmt.read_fields WAVE_fmt.make
    (with_info (mkInfo WAVE 0 0)
       (at_byte (cursor_of demo_stream) (WAVE_fmt.write_fields WAVE_fmt.make demo_stream).2)) =
  (Ok (WAVE_fmt.with_chunk (fmt_chunk WAVE_fmt.make)
         (WAVE_fmt.compute_fields demo_stream WAVE_fmt.make)),
   with_info (mkInfo WAVE 2 44100) (WAVE_fmt.write_fields WAVE_fmt.make demo_stream).2).
Proof.
  apply (fmt_write_read_roundtrip WAVE_fmt.make WAVE_fmt.make demo_stream (mkInfo WAVE 0 0));
    [concrete | apply of_chunk_wf | concrete ..].
Defined.

Lemma fmt_derived_fields_witness :
  as_u (numChannels (WAVE_fmt.compute_fields demo_stream WAVE_fmt.make)) = 2 /\
  as_u (sampleRate (WAVE_fmt.compute_fields demo_stream WAVE_fmt.make)) = 44100 /\
  as_u (bitsPerSample (WAVE_fmt.compute_fields demo_stream WAVE_fmt.make)) = 32 /\
  as_u (blockAlign (WAVE_fmt.compute_fields demo_stream WAVE_fmt.make)) = 2 * 4 /\
  as_u (byteRate (WAVE_fmt.compute_fields demo_stream WAVE_fmt.make)) = 44100 * (2 * 4).
Proof. apply (fmt_derived_fields demo_stream WAVE_fmt.make); concrete. Defined.
