(* ===== verification/SoundFile.v ===== *)
(** * [SoundFile]: the methods of the sound file

    [SoundFile::seek], [position] and [length] of soundfile.cpp translate
    between sample indices and byte positions: sample [p] lives at byte
    [audioOffset + p * sample_size].  The divisions are the truncating
    division of C++ on the signed [Position].

    [SoundFile::read_file] reads the header at byte 0, decides the type of
    the container from its tag and format, and for a WAVE file reads every
    child chunk again as the type its tag selects.  [SoundFile::write_file]
    builds a header with a format chunk, the chunks of the embedder and a
    data chunk, and writes it at byte 0.  The three virtual functions the
    embedder may override are the classes [CustomChunks] and [FileCreator].

    This file holds the definitions and the theorems on addressing: the
    round trip between [seek] and [position], the clamp of [position] (it
    never reports a negative index), and the exact set of cursors at which
    the clamp moves the stream: a cursor fewer than [sample_size] bytes
    before the payload is reported as sample [0] and is left where it is,
    because the division rounds towards zero.  The theorems on [read_file]
    are in [Reader], those on [write_file] in [Writer], and the properties
    every method keeps in [Invariants]. *)

From Stdlib Require Import ZArith Lia List String.
From stdpp Require Import base list.
From coqutil Require Import Byte.
From S2P Require Import Prelude Bytes Stream SoundState Chunk Wave.
Import ListNotations.
Local Open Scope Z_scope.
Local Open Scope otto_scope.

(** The chunk hooks of the embedder: [replace_custom_chunk] may give a chunk
    that was read another type, [add_custom_chunks] may add chunks to the
    header that is written. *)
Class CustomChunks : Type := {
  replace_custom_chunk : AnyChunk -> AnyChunk;
  add_custom_chunks : list AnyChunk -> list AnyChunk
}.

(** [create_file]: what is done with a file that does not exist yet. *)
Class FileCreator : Type := {
  create_file : SF unit
}.

(** [chunk->size = s]. *)
Definition with_size (s : bytes) (ch : AnyChunk) : AnyChunk :=
  with_base (mkChunk (id (base ch)) s (offset (base ch))) ch.

Module SoundFile.

Definition seek (p : Z) : SF Z :=
  ao <- gets audioOffset ;;
  ss <- gets sample_size ;;
  r <- file_seek (ao + p * ss) ;;
  ret (Z.quot (r - ao) ss).

Definition position : SF Z :=
  bp <- file_position ;;
  ao <- gets audioOffset ;;
  ss <- gets sample_size ;;
  let r := Z.quot (bp - ao) ss in
  if r <? 0 then (_ <- seek 0 ;; ret 0) else ret r.

Definition length : SF Z :=
  sz <- file_size ;;
  ao <- gets audioOffset ;;
  ss <- gets sample_size ;;
  ret (Z.quot (sz - ao) ss).

(** The two replacements at the head of the loop of [read_file]. *)
Definition promote (chunk : AnyChunk) : AnyChunk :=
  let chunk :=
    if tag_eqb (id (base chunk)) "fmt "
    then Fmt (WAVE_fmt.of_chunk (base chunk)) else chunk in
  let chunk :=
    if tag_eqb (id (base chunk)) "data"
    then Data (WAVE_data.of_chunk (base chunk)) else chunk in
  chunk.

(** The body of the loop of [read_file]. *)
Definition read_chunk {CC : CustomChunks} (chunk : AnyChunk) : SF AnyChunk :=
  let chunk := replace_custom_chunk (promote chunk) in
  _ <- file_seek (Chunk.beginning (base chunk)) ;;
  Chunk.read chunk.

(** The test of the header's tag and format in [read_file]. *)
Definition classify {FC : FileCreator} (header : Header) : SF unit :=
  if tag_eqb (id (header_chunk header)) "RIFF" && tag_eqb (format header) "WAVE"
  then modify (fun sf => with_info (with_type WAVE (info sf)) sf)
  else if tag_eqb (id (header_chunk header)) "FORM" && tag_eqb (format header) "AIFF"
  then modify (fun sf => with_info (with_type AIFF (info sf)) sf)
  else if as_u (id (header_chunk header)) =? 0
  then create_file
  else throw (UnrecognizedFileType (id (header_chunk header))).

Definition read_file {CC : CustomChunks} {FC : FileCreator} : SF unit :=
  _ <- file_seek 0 ;;
  header <- Chunk.read Header.make ;;
  _ <- classify header ;;
  ty <- gets (fun sf => type (info sf)) ;;
  _ <- match ty with
       | WAVE => _ <- mapM read_chunk (chunks header) ;; ret tt
       | AIFF => throw UnsupportedContainerKind
       end ;;
  _ <- seek 0 ;;
  ret tt.

(** The header that [write_file] builds for a WAVE file. *)
Definition wave_header {CC : CustomChunks} (sz ao : Z) : Header :=
  let header := Header.make in
  let cs := chunks header ++ [Fmt WAVE_fmt.make] in
  let cs := add_custom_chunks cs in
  let cs := cs ++ [with_size (of_u 4 (sz - ao)) (Data WAVE_data.make)] in
  mkHeader (mkChunk (tag "RIFF") (size (header_chunk header))
                    (offset (header_chunk header)))
           (tag "WAVE") cs.

Definition write_file {CC : CustomChunks} : SF unit :=
  _ <- file_seek 0 ;;
  ty <- gets (fun sf => type (info sf)) ;;
  match ty with
  | WAVE =>
      sz <- file_size ;;
      ao <- gets audioOffset ;;
      _ <- Chunk.write (wave_header sz ao) ;;
      ret tt
  | AIFF => throw UnsupportedContainerKind
  end.

End SoundFile.

(** The sound file that overrides nothing: no chunk is replaced and none is
    added. *)
#[export] Instance no_custom_chunks : CustomChunks := {
  replace_custom_chunk chunk := chunk;
  add_custom_chunks cs := cs
}.

(** A new file is emptied and given a header. *)
#[export] Instance create_by_writing {CC : CustomChunks} : FileCreator := {
  create_file :=
    _ <- modify (with_file (ByteFile.mk [] 0)) ;;
    SoundFile.write_file
}.

(** The byte position of a sample. *)
Definition byte_of_sample (sf : SoundFile) (p : Z) : Z :=
  audioOffset sf + p * sample_size sf.

(** A sound file a client may address by sample: samples have a width, and
    the payload does not start before the file does. *)
Record addressable (sf : SoundFile) : Prop := {
  addr_size : 0 < sample_size sf;
  addr_offset : 0 <= audioOffset sf
}.

(** ** The equations of the three methods *)

Section SampleEquations.
Variable sf : SoundFile.

Lemma seek_run p :
  SoundFile.seek p sf =
  (Ok (Z.quot ((ByteFile.seek (byte_of_sample sf p) (file sf)).1 - audioOffset sf)
              (sample_size sf)),
   with_file (ByteFile.seek (byte_of_sample sf p) (file sf)).2 sf).
Proof. reflexivity. Qed.

Lemma length_run :
  SoundFile.length sf =
  (Ok (Z.quot (ByteFile.size (file sf) - audioOffset sf) (sample_size sf)), sf).
Proof. reflexivity. Qed.

Lemma position_run_nonneg :
  0 <= Z.quot (cursor_of sf - audioOffset sf) (sample_size sf) ->
  SoundFile.position sf =
  (Ok (Z.quot (cursor_of sf - audioOffset sf) (sample_size sf)), sf).
Proof.
  intros H. unfold SoundFile.position, bind, file_position, gets; simpl.
  change (ByteFile.position (file sf)) with (cursor_of sf). now rewrite (proj2 (Z.ltb_ge _ 0) H).
Qed.

Lemma position_run_neg :
  Z.quot (cursor_of sf - audioOffset sf) (sample_size sf) < 0 ->
  SoundFile.position sf =
  (Ok 0, with_file (ByteFile.seek (audioOffset sf) (file sf)).2 sf).
Proof.
  intros H. unfold SoundFile.position, bind, file_position, gets; simpl.
  change (ByteFile.position (file sf)) with (cursor_of sf). rewrite (proj2 (Z.ltb_lt _ 0) H).
  unfold SoundFile.seek, bind, gets, file_seek, ret; simpl.
  now rewrite Z.add_0_r.
Qed.

End SampleEquations.

(** ** Seeking *)

(** [seek p] moves the cursor to byte [audioOffset + p * sample_size] and
    returns [p], for every sample index whose byte position is not negative. *)
Theorem seek_returns_index sf p :
  0 < sample_size sf -> 0 <= byte_of_sample sf p ->
  SoundFile.seek p sf = (Ok p, at_byte (byte_of_sample sf p) sf).
Proof.
  intros Hs Hb. rewrite seek_run, seek_reaches by assumption. simpl.
  unfold byte_of_sample, at_byte. do 2 f_equal.
  replace (audioOffset sf + p * sample_size sf - audioOffset sf)
    with (p * sample_size sf) by lia.
  apply quot_mul_cancel. lia.
Qed.

(** C3: sample addressing: after [seek p] on an addressable file,
    [position] reports [p] and leaves the stream where [seek] put it. *)
Theorem seek_then_position sf p :
  addressable sf -> 0 <= p ->
  (_ <- SoundFile.seek p ;; SoundFile.position) sf =
  (Ok p, at_byte (byte_of_sample sf p) sf).
Proof.
  intros [Hs Ho] Hp.
  assert (0 <= byte_of_sample sf p) by (unfold byte_of_sample; nia).
  erewrite bind_ok by (apply seek_returns_index; assumption).
  assert (Hq : Z.quot (cursor_of (at_byte (byte_of_sample sf p) sf)
                       - audioOffset (at_byte (byte_of_sample sf p) sf))
                      (sample_size (at_byte (byte_of_sample sf p) sf)) = p).
  { unfold cursor_of, at_byte, byte_of_sample; simpl.
    replace (audioOffset sf + p * sample_size sf - audioOffset sf)
      with (p * sample_size sf) by lia.
    apply quot_mul_cancel. lia. }
  rewrite position_run_nonneg; rewrite Hq; [reflexivity | assumption].
Qed.

(** ** The clamp of [position] *)

(** [position] never reports a negative sample index. *)
Theorem position_nonneg sf :
  0 <= match (SoundFile.position sf).1 with Ok r => r | Throw _ => 0 end.
Proof.
  destruct (Z.lt_ge_cases
              (Z.quot (cursor_of sf - audioOffset sf) (sample_size sf)) 0) as [H|H].
  - now rewrite position_run_neg.
  - now rewrite position_run_nonneg.
Qed.

(** C21: the clamp: with the cursor a whole sample or more before the
    payload, [position] returns [0] and leaves the stream at sample [0]. *)
Theorem position_clamps sf :
  addressable sf ->
  cursor_of sf <= audioOffset sf - sample_size sf ->
  SoundFile.position sf = (Ok 0, at_byte (audioOffset sf) sf).
Proof.
  intros [Hs Ho] Hc. rewrite position_run_neg.
  - now rewrite seek_reaches.
  - apply quot_neg_iff; lia.
Qed.

(** C20: the division rounds towards zero: with the cursor before the payload
    by fewer than [sample_size] bytes, [position] returns [0] and does not
    move the stream, which stays before the first sample. *)
Theorem position_before_payload_unclamped sf :
  0 < sample_size sf ->
  audioOffset sf - sample_size sf < cursor_of sf < audioOffset sf ->
  SoundFile.position sf = (Ok 0, sf) /\ cursor_of sf <> byte_of_sample sf 0.
Proof.
  intros Hs Hc.
  assert (Hq : Z.quot (cursor_of sf - audioOffset sf) (sample_size sf) = 0)
    by (apply quot_zero_iff; lia).
  split.
  - rewrite position_run_nonneg; rewrite Hq; [reflexivity | lia].
  - unfold byte_of_sample. lia.
Qed.

(** C31: [position] is the sample the cursor is in: with the cursor at or
    after the payload, the result [r] satisfies
    [audioOffset + r * sample_size <= cursor < audioOffset + (r + 1) * sample_size]
    and the state is unchanged. *)
Theorem position_of_cursor sf :
  0 < sample_size sf -> audioOffset sf <= cursor_of sf ->
  exists r, SoundFile.position sf = (Ok r, sf) /\
            byte_of_sample sf r <= cursor_of sf < byte_of_sample sf (r + 1).
Proof.
  intros Hs Hc.
  exists (Z.quot (cursor_of sf - audioOffset sf) (sample_size sf)).
  pose proof (quot_bounds (cursor_of sf - audioOffset sf) (sample_size sf)
                ltac:(lia) Hs) as Hb.
  split.
  - apply position_run_nonneg. apply Z.quot_pos; lia.
  - unfold byte_of_sample. lia.
Qed.

(** ** Length *)

(** C32: [length] is the number of whole samples between the payload offset
    and the end of the file, and it does not touch the state. *)
Theorem length_whole_samples sf :
  0 < sample_size sf -> audioOffset sf <= ByteFile.size (file sf) ->
  exists n, SoundFile.length sf = (Ok n, sf) /\ 0 <= n /\
            byte_of_sample sf n <= ByteFile.size (file sf) < byte_of_sample sf (n + 1).
Proof.
  intros Hs Ho.
  exists (Z.quot (ByteFile.size (file sf) - audioOffset sf) (sample_size sf)).
  pose proof (quot_bounds (ByteFile.size (file sf) - audioOffset sf)
                (sample_size sf) ltac:(lia) Hs) as Hb.
  split; [apply length_run|]. split; [apply Z.quot_pos; lia|].
  unfold byte_of_sample. lia.
Qed.

(** ** What the three methods preserve *)

Lemma seek_meta sf p : meta (SoundFile.seek p sf).2 = meta sf.
Proof. reflexivity. Qed.

Lemma seek_data_unchanged sf p :
  ByteFile.data (file (SoundFile.seek p sf).2) = ByteFile.data (file sf).
Proof. rewrite seek_run. simpl. apply seek_data. Qed.

Lemma position_meta sf : meta (SoundFile.position sf).2 = meta sf.
Proof.
  destruct (Z.lt_ge_cases
              (Z.quot (cursor_of sf - audioOffset sf) (sample_size sf)) 0) as [H|H].
  - now rewrite position_run_neg.
  - now rewrite position_run_nonneg.
Qed.

Lemma position_data_unchanged sf :
  ByteFile.data (file (SoundFile.position sf).2) = ByteFile.data (file sf).
Proof.
  destruct (Z.lt_ge_cases
              (Z.quot (cursor_of sf - audioOffset sf) (sample_size sf)) 0) as [H|H].
  - rewrite position_run_neg by assumption. simpl. apply seek_data.
  - now rewrite position_run_nonneg.
Qed.

(** ** A concrete file: 44 bytes of header and four samples of four bytes *)

Definition demo_file : SoundFile :=
  mkSoundFile (ByteFile.mk (replicate 60 Byte.x00) 0) (mkInfo WAVE 1 44100) 44 4.

Lemma seek_returns_index_witness :
  SoundFile.seek 3 demo_file = (Ok 3, at_byte (byte_of_sample demo_file 3) demo_file).
Proof. apply (seek_returns_index demo_file 3); concrete. Defined.

Lemma seek_then_position_witness :
  (_ <- SoundFile.seek 2 ;; SoundFile.position) demo_file =
  (Ok 2, at_byte (byte_of_sample demo_file 2) demo_file).
Proof. apply (seek_then_position demo_file 2); concrete. Defined.

Lemma position_clamps_witness :
  SoundFile.position (at_byte 12 demo_file) =
  (Ok 0, at_byte (audioOffset (at_byte 12 demo_file)) (at_byte 12 demo_file)).
Proof.
  apply (position_clamps (at_byte 12 demo_file)); concrete.
Defined.

Lemma position_before_payload_unclamped_witness :
  SoundFile.position (at_byte 42 demo_file) = (Ok 0, at_byte 42 demo_file) /\
  cursor_of (at_byte 42 demo_file) <> byte_of_sample (at_byte 42 demo_file) 0.
Proof.
  apply (position_before_payload_unclamped (at_byte 42 demo_file)); concrete.
Defined.

Lemma position_of_cursor_witness :
  exists r, SoundFile.position (at_byte 53 demo_file) = (Ok r, at_byte 53 demo_file) /\
            byte_of_sample (at_byte 53 demo_file) r <= cursor_of (at_byte 53 demo_file)
            < byte_of_sample (at_byte 53 demo_file) (r + 1).
Proof. apply (position_of_cursor (at_byte 53 demo_file)); concrete. Defined.

Lemma length_whole_samples_witness :
  exists n, SoundFile.length demo_file = (Ok n, demo_file) /\ 0 <= n /\
            byte_of_sample demo_file n <= ByteFile.size (file demo_file)
            < byte_of_sample demo_file (n + 1).
Proof. apply (length_whole_samples demo_file); concrete. Defined.
