(* ===== verification/Children.v ===== *)
(** * The header of a container and its children

    [Header::read_fields] reads the format tag and collects the chunks of
    the byte range [offset + 12, offset + 8 + size) with
    [for_chunks_in_range].

    - The children it collects tile that range: the first lies at
      [offset + 12], each next one where the one before ends, and the last
      ends at [offset + 8 + size]; a child that would end after the range
      stops the read with [MalformedContainer].
    - Read at byte 0 of a file that holds a container (a tag, the size, a
      format tag and well-formed children), the header has the tag, the
      size and the format of the file and the heads of all the children in
      order, and the cursor is left at the end of the container.
    - A header whose size does not reach past the format tag has no
      children; the header of an empty file is a header of zeros. *)

From Stdlib Require Import ZArith Lia List String.
From stdpp Require Import base list.
From coqutil Require Import Byte.
From S2P Require Import Prelude Bytes Stream SoundState Chunk Scan Wave.
Import ListNotations.
Local Open Scope Z_scope.
Local Open Scope otto_scope.

(** ** Containers as they lie in a file *)

(** A container on disk: a chunk whose payload is the format tag and the
    images of the children. *)
Definition riff (tg fm : bytes) (rs : list raw) : raw :=
  mkRaw tg (fm ++ images rs).

(** The end of the children of a container that starts at byte 0. *)
Definition riff_end (rs : list raw) : Z := 12 + Z.of_nat (length (images rs)).

(** ** Reading a chunk of any type *)

(** [read] hands the head under the cursor to the virtual [read_fields]. *)
Lemma chunk_read_run {T} `{ChunkLike T} (this : T) sf :
  Chunk.wf (base this) ->
  Chunk.read this sf =
  read_fields (with_base (head_at sf (base this)) this) (at_byte (cursor_of sf + 8) sf).
Proof.
  intros [Hi Hs]. unfold Chunk.read, bind, file_position, gets.
  rewrite !read_bytes_run. cbn [fst snd]. f_equal.
  unfold at_byte, cursor_of, with_file. cbn. rewrite Hi, Hs.
  do 2 f_equal. lia.
Qed.

(** ** The children of a header *)

Section HeaderRead.
Variables (h : Header) (sf : SoundFile).
Hypothesis Hc : 0 <= cursor_of sf.
Hypothesis Hoff : 0 <= offset (header_chunk h) + 12.

Let start : Z := offset (header_chunk h) + 12.
Let stop : Z := offset (header_chunk h) + 8 + as_u (size (header_chunk h)).

(** A [read_fields] that returns has read the format and scanned the
    payload range from its start. *)
Lemma header_read_fields_inv h' sf' :
  Header.read_fields h sf = (Ok h', sf') ->
  exists cs,
    h' = mkHeader (header_chunk h) (ByteFile.read_bytes (format h) (file sf)).1
                  (chunks h ++ map Plain cs) /\
    scan_chunks (scan_fuel start stop) stop (at_byte start sf) = (Ok cs, sf').
Proof.
  unfold Header.read_fields, for_chunks_in_range. fold start stop. intros Hrun.
  apply bind_returns_inv in Hrun as (fm & sf1 & Hfm & Hrun).
  apply bind_returns_inv in Hrun as (cs & sf2 & Hscan & Hret). invc Hret.
  apply bind_returns_inv in Hscan as (p & sf3 & Hseek & Hscan).
  rewrite read_bytes_run in Hfm. invc Hfm.
  rewrite file_seek_reaches in Hseek by assumption. invc Hseek.
  exists cs. split; [reflexivity | exact Hscan].
Qed.

(** C6: the children of a header tile its payload: when [read_fields]
    returns, the chunks it has appended lie one after the other from
    [offset + 12] to the cursor, the cursor is at the end of the payload
    range, and only the cursor of the sound file has changed. *)
Theorem header_children_tile h' sf' :
  Header.read_fields h sf = (Ok h', sf') ->
  exists cs,
    chunks h' = chunks h ++ map Plain cs /\
    chained start cs (cursor_of sf') /\
    cursor_of sf' = Z.max start stop /\
    sf' = at_byte (cursor_of sf') sf.
Proof.
  intros (cs & -> & Hscan)%header_read_fields_inv.
  apply scan_chunks_tiles in Hscan as (Hch & Hend & Hst);
    [|cbn; fold start; lia ..].
  exists cs. cbn [chunks]. repeat split; auto.
Qed.

(** The children a header has appended are placed, whatever the file
    holds. *)
Lemma header_children_placed h' sf' :
  Header.read_fields h sf = (Ok h', sf') ->
  exists cs, chunks h' = chunks h ++ map Plain cs /\ Forall placed cs.
Proof.
  intros (cs & -> & Hscan)%header_read_fields_inv.
  exists cs. split; [reflexivity|].
  eapply scan_chunks_placed; [|exact Hscan]. cbn. fold start. lia.
Qed.

(** C9: the scan of [read_fields] terminates: [(stop - start) / 8 + 1]
    rounds are enough for the range from [start] to [stop], in that
    [read_fields] run with any larger number of rounds returns the same
    header, or throws the same error, and leaves the same state. *)
Theorem header_scan_total n :
  (scan_fuel start stop <= n)%nat ->
  Header.read_fields h sf =
  (fm <- read_bytes (format h) ;;
   found <- (_ <- file_seek start ;; scan_chunks n stop) ;;
   ret (mkHeader (header_chunk h) fm (chunks h ++ map Plain found))) sf.
Proof.
  intros Hn. unfold Header.read_fields. fold start stop.
  unfold bind at 1 3. rewrite read_bytes_run. cbn [fst snd].
  apply bind_cong_l. now apply scan_fuel_enough.
Qed.

End HeaderRead.

(** The header read at byte 0 owns plain chunks, all of them placed. *)
Lemma header_read_placed sf h sf' :
  Chunk.read Header.make (at_byte 0 sf) = (Ok h, sf') ->
  exists cs, chunks h = map Plain cs /\ Forall placed cs.
Proof.
  rewrite chunk_read_run by (split; reflexivity).
  cbn [read_fields with_base Header_ChunkLike]. intros H.
  apply header_children_placed in H as (cs & -> & Hp); [eauto | cbn; lia ..].
Qed.

(** ** Reading the header of a container *)

Lemma header_read_riff tg fm rs rest sf :
  has_width 4 tg -> has_width 4 fm -> Forall raw_ok rs ->
  raw_size (riff tg fm rs) < 2 ^ 32 ->
  data_of sf = raw_image (riff tg fm rs) ++ rest ->
  Chunk.read Header.make (at_byte 0 sf) =
  (Ok (mkHeader (mkChunk tg (of_u 4 (raw_size (riff tg fm rs))) 0) fm
                (map Plain (heads 12 rs))),
   at_byte (riff_end rs) sf).
Proof.
  intros Htg Hfm Hrs Hsz Hd.
  assert (Hok : raw_ok (riff tg fm rs)) by (split; assumption).
  assert (Hsize : raw_size (riff tg fm rs) = 4 + Z.of_nat (length (images rs))).
  { unfold raw_size, riff; cbn [raw_payload]. rewrite length_app, Hfm. lia. }
  rewrite (chunk_read_run Header.make) by (cbn; auto with otto).
  rewrite (head_at_image _ _ [] (riff tg fm rs) rest) by (cbn; auto with otto).
  cbn [with_base Header_ChunkLike read_fields Header.make format chunks base
       header_chunk cursor_of_at_byte].
  autorewrite with otto_rw. unfold Header.read_fields.
  cbn [header_chunk format chunks offset size].
  change (0 + 8) with 8. change (0 + 12) with 12.
  cbn [raw_id riff].
  erewrite bind_ok by
    (apply (read_bytes_in_width 4 _ _ 8); [apply zeros_width | reflexivity | lia |];
     rewrite size_at_byte; unfold ByteFile.size; fold (data_of sf);
     rewrite Hd, length_app; pose proof (raw_image_length _ Hok); lia).
  assert (Hfm' : slice (Z.to_nat 8) 4 (data_of (at_byte 8 sf)) = fm).
  { rewrite data_of_at_byte, Hd. unfold raw_image, riff; cbn [raw_id raw_payload].
    rewrite <- !app_assoc, !(app_assoc tg). apply slice_app_mid'; auto.
    rewrite length_app, length_of_u, Htg. reflexivity. }
  rewrite Hfm'. rewrite as_u_of_u_small by
    (pose proof (Zle_0_nat (length (images rs)));
     change (2 ^ (8 * Z.of_nat 4)) with (2 ^ 32); lia).
  unfold for_chunks_in_range, bind.
  rewrite file_seek_reaches by lia.
  fold (at_byte 12 (at_byte (8 + Z.of_nat 4) (at_byte 8 sf))).
  autorewrite with otto_rw.
  rewrite (scan_well_formed rs (tg ++ of_u 4 (raw_size (riff tg fm rs)) ++ fm) rest);
    auto.
  - unfold ret. cbn [app]. autorewrite with otto_rw.
    rewrite Htg, Hfm, Hsize. unfold riff_end.
    replace (8 + (4 + Z.of_nat (length (images rs))))
      with (12 + Z.of_nat (length (images rs))) by lia.
    reflexivity.
  - rewrite data_of_at_byte, Hd. unfold raw_image, riff; cbn [raw_id raw_payload].
    now rewrite <- !app_assoc.
  - rewrite cursor_of_at_byte, !length_app, length_of_u, Htg, Hfm. reflexivity.
  - rewrite !length_app, length_of_u, Htg, Hfm, Hsize. lia.
  - pose proof (images_length_ge rs Hrs). unfold scan_fuel. rewrite Hsize. zdiv.
Qed.

(** ** A header that ends inside a child *)

Section Overrun.
Variables (tg sz fm : bytes) (rs : list raw) (r : raw) (rest : bytes).
Variable sf : SoundFile.
Hypothesis Htg : has_width 4 tg.
Hypothesis Hsz : has_width 4 sz.
Hypothesis Hfm : has_width 4 fm.
Hypothesis Hrs : Forall raw_ok rs.
Hypothesis Hr : raw_ok r.
Hypothesis Hd : data_of sf = tg ++ sz ++ fm ++ images rs ++ raw_image r ++ rest.

(** The first byte of the child [r]. *)
Let at_r : Z := 12 + Z.of_nat (length (images rs)).

(** The size of the header puts the end of its range after the first byte
    of [r] and before the end of [r]. *)
Hypothesis Hlo : at_r < 8 + as_u sz.
Hypothesis Hhi : 8 + as_u sz < at_r + 8 + raw_size r.

Lemma header_overrun_run h :
  header_chunk h = mkChunk tg sz 0 -> has_width 4 (format h) ->
  Header.read_fields h (at_byte 8 sf) = (Throw MalformedContainer, at_byte (at_r + 8) sf).
Proof.
  intros Hh Hf. unfold Header.read_fields. rewrite Hh. cbn [offset size].
  change (0 + 8) with 8. change (0 + 12) with 12.
  assert (Hlen : 12 <= Z.of_nat (length (data_of sf))).
  { rewrite Hd, !length_app, Htg, Hsz, Hfm. lia. }
  erewrite bind_ok by
    (apply (read_bytes_in_width 4 _ _ 8); [exact Hf | reflexivity | lia |];
     rewrite size_at_byte; unfold ByteFile.size; fold (data_of sf); lia).
  unfold for_chunks_in_range, bind. rewrite file_seek_at by lia.
  rewrite at_byte_at_byte.
  assert (Hp : Z.of_nat (length (tg ++ sz ++ fm)) = 12).
  { rewrite !length_app, Htg, Hsz, Hfm. reflexivity. }
  unfold at_r in *.
  rewrite (scan_overrun rs r (tg ++ sz ++ fm) rest);
    rewrite ?Hp; autorewrite with otto_rw; auto; try lia.
  - rewrite Hd. now rewrite <- !app_assoc.
  - pose proof (images_length_ge rs Hrs). unfold scan_fuel. zdiv.
Qed.

(** The header read from byte 0 of such a file. *)
Lemma header_read_overrun :
  Chunk.read Header.make (at_byte 0 sf) =
  (Throw MalformedContainer, at_byte (at_r + 8) sf).
Proof.
  rewrite (chunk_read_run Header.make) by (cbn; auto with otto).
  assert (Hh : head_at (at_byte 0 sf) (base Header.make) = mkChunk tg sz 0).
  { change 0 with (cursor_of (at_byte 0 sf)) at 2.
    apply (head_at_fields _ _ [] tg sz (fm ++ images rs ++ raw_image r ++ rest)); auto.
    cbn; auto with otto. }
  rewrite Hh. autorewrite with otto_rw.
  now apply header_overrun_run.
Qed.

End Overrun.

(** ** A header without children *)

(** A header whose size field does not reach past the format tag has no
    children: the scan has nothing to walk. *)
Lemma header_read_no_children tg sz fm rest sf :
  has_width 4 tg -> has_width 4 sz -> has_width 4 fm -> as_u sz <= 4 ->
  data_of sf = tg ++ sz ++ fm ++ rest ->
  Chunk.read Header.make (at_byte 0 sf) =
  (Ok (mkHeader (mkChunk tg sz 0) fm []), at_byte 12 sf).
Proof.
  intros Htg Hsz Hfm Hle Hd.
  rewrite (chunk_read_run Header.make) by (cbn; auto with otto).
  assert (Hh : head_at (at_byte 0 sf) (base Header.make) = mkChunk tg sz 0).
  { change 0 with (cursor_of (at_byte 0 sf)) at 2.
    apply (head_at_fields _ _ [] tg sz (fm ++ rest)); auto.
    cbn; auto with otto. }
  rewrite Hh.
  cbn [with_base Header_ChunkLike read_fields Header.make format chunks].
  autorewrite with otto_rw.
  unfold Header.read_fields. cbn [header_chunk format chunks offset size].
  change (0 + 8) with 8. change (0 + 12) with 12.
  assert (Hlen : Z.of_nat (length (data_of sf)) = 12 + Z.of_nat (length rest)).
  { rewrite Hd, !length_app, Htg, Hsz, Hfm. lia. }
  erewrite bind_ok by
    (apply (read_bytes_in_width 4 _ _ 8); [apply zeros_width | reflexivity | lia |];
     rewrite size_at_byte; unfold ByteFile.size; fold (data_of sf); lia).
  assert (Hf : slice (Z.to_nat 8) 4 (data_of (at_byte 8 sf)) = fm).
  { rewrite data_of_at_byte, Hd, !app_assoc, <- (app_assoc _ fm).
    apply slice_app_mid'; auto. rewrite length_app, Htg, Hsz. reflexivity. }
  rewrite Hf. unfold for_chunks_in_range, bind. rewrite file_seek_at by lia.
  rewrite at_byte_at_byte.
  destruct (scan_fuel _ _); [reflexivity|].
  rewrite scan_done by (rewrite cursor_of_at_byte; lia). reflexivity.
Qed.

(** At the end of the file every read leaves its field as it was: the
    header of an empty file is the header that was constructed. *)
Lemma header_read_empty sf :
  data_of sf = [] ->
  Chunk.read Header.make (at_byte 0 sf) = (Ok Header.make, at_byte 12 sf).
Proof.
  destruct sf as [[d c] i a s]. cbn [data_of file ByteFile.data].
  intros ->. reflexivity.
Qed.

(** ** A concrete container *)

(** A format block: float encoding, two channels, 44100 Hz, 32 bits. *)
Definition demo_fmt : bytes :=
  of_u 2 3 ++ of_u 2 2 ++ of_u 4 44100 ++ of_u 4 352800 ++ of_u 2 8 ++ of_u 2 32.

(** The children of a WAVE file with eight samples of four bytes. *)
Definition demo_children : list raw :=
  [mkRaw (tag "fmt ") demo_fmt; mkRaw (tag "data") (zeros 32)].

(** A sound file over the bytes [d], with nothing read yet. *)
Definition demo_on (d : bytes) : SoundFile :=
  mkSoundFile (ByteFile.mk d 0) (mkInfo WAVE 0 0) 0 4.

(** The header of the container after its head has been read. *)
Definition demo_header (sz : Z) : Header :=
  mkHeader (mkChunk (tag "RIFF") (of_u 4 sz) 0) (zeros 4) [].

Definition demo_wave : SoundFile :=
  demo_on (raw_image (riff (tag "RIFF") (tag "WAVE") demo_children)).

(** The header and the state that [read_fields] returns on it. *)
Definition demo_read : Header * SoundFile :=
  match Header.read_fields (demo_header 68) (at_byte 8 demo_wave) with
  | (Ok h, sf) => (h, sf)
  | (Throw _, sf) => (demo_header 68, sf)
  end.

Lemma header_scan_total_witness :
  Header.read_fields (demo_header 68) (at_byte 8 demo_wave) =
  (fm <- read_bytes (format (demo_header 68)) ;;
   found <- (_ <- file_seek (offset (header_chunk (demo_header 68)) + 12) ;;
             scan_chunks 100
               (offset (header_chunk (demo_header 68)) + 8 +
                as_u (size (header_chunk (demo_header 68))))) ;;
   ret (mkHeader (header_chunk (demo_header 68)) fm
          (chunks (demo_header 68) ++ map Plain found))) (at_byte 8 demo_wave).
Proof.
  apply (header_scan_total (demo_header 68) (at_byte 8 demo_wave) ltac:(concrete) 100).
  concrete.
Defined.

Lemma header_children_tile_witness :
  exists cs,
    chunks demo_read.1 = chunks (demo_header 68) ++ map Plain cs /\
    chained (offset (header_chunk (demo_header 68)) + 12) cs (cursor_of demo_read.2) /\
    cursor_of demo_read.2 =
      Z.max (offset (header_chunk (demo_header 68)) + 12)
            (offset (header_chunk (demo_header 68)) + 8 +
             as_u (size (header_chunk (demo_header 68)))) /\
    demo_read.2 = at_byte (cursor_of demo_read.2) (at_byte 8 demo_wave).
Proof.
  apply (header_children_tile (demo_header 68) (at_byte 8 demo_wave));
    [concrete | now vm_compute].
Defined.

