(* ===== verification/Reader.v ===== *)
(** * [SoundFile::read_file]

    [read_file] reads the header at byte 0, decides the kind of the
    container, and for a WAVE file reads every child again as the type its
    tag selects: a ["fmt "] chunk as a [WAVE_fmt], a ["data"] chunk as a
    [WAVE_data], any other chunk as the plain chunk it is.

    The specification is at the level of chunks: [absorb p r] is what the
    chunk [r] lying at byte [p] contributes to the sound file, and
    [absorb_all] is the contribution of a sequence of chunks.  The main
    theorem is the refinement: on a file that holds a RIFF/WAVE container
    with well-formed children, [read_file] is [absorb_all] over the
    children followed by the move to sample 0.  The other theorems are its
    cases (the canonical file, a refused format chunk, chunks of foreign
    tags) and the containers of another kind (unrecognised, AIFF, and the
    empty file that is handed to [create_file]).

    The theorems that name no instance of [CustomChunks] hold for every
    embedder; those on the children of a WAVE file are for the sound file
    that replaces no chunk ([no_custom_chunks]). *)

From Stdlib Require Import ZArith Lia List String.
From stdpp Require Import base list.
From coqutil Require Import Byte.
From S2P Require Import Prelude Bytes Stream SoundState Chunk Scan Wave SoundFile Children.
Import ListNotations.
Local Open Scope Z_scope.
Local Open Scope otto_scope.

(** ** What a chunk of a WAVE container contributes *)

(** The fields the codec takes from the payload of a format chunk. *)
Definition fmt_encoding (b : bytes) : Z := as_u (slice 0 2 b).
Definition fmt_channels (b : bytes) : Z := as_u (slice 2 2 b).
Definition fmt_rate (b : bytes) : Z := as_u (slice 4 4 b).
Definition fmt_bits (b : bytes) : Z := as_u (slice 14 2 b).

(** The effect of the chunk [r] that lies at byte [p]: a format chunk is
    checked and gives the channel count and the rate, a data chunk gives
    the payload offset, any other chunk gives nothing. *)
Definition absorb (p : Z) (r : raw) : SF unit := fun sf =>
  if tag_eqb (raw_id r) "fmt " then
    let b := raw_payload r in
    let sf1 := at_byte (p + 24) sf in
    let sf2 := with_info (mkInfo (type (info sf)) (fmt_channels b) (fmt_rate b)) sf1 in
    if fmt_encoding b =? 3 then
      if fmt_bits b =? 32 then (Ok tt, sf2) else (Throw UnsupportedBitDepth, sf2)
    else (Throw UnsupportedEncoding, sf1)
  else if tag_eqb (raw_id r) "data" then
    (Ok tt, with_audioOffset (p + 8) (at_byte (p + 8) sf))
  else (Ok tt, at_byte (p + 8) sf).

Fixpoint absorb_all (p : Z) (rs : list raw) : SF unit :=
  match rs with
  | [] => ret tt
  | r :: rs' => _ <- absorb p r ;; absorb_all (p + 8 + raw_size r) rs'
  end.

(** A format chunk has room for its sixteen bytes. *)
Definition fmt_room (r : raw) : Prop :=
  raw_id r = tag "fmt " -> (16 <= length (raw_payload r))%nat.

(** ** [read_file] on a WAVE container *)

(** The two chunks the codec knows. *)
Definition fmt_chunk_of (blk : bytes) : raw := mkRaw (tag "fmt ") blk.
Definition data_chunk_of (payload : bytes) : raw := mkRaw (tag "data") payload.

(** A WAVE file with the children [rs]. *)
Definition wave_image (rs : list raw) : bytes :=
  raw_image (riff (tag "RIFF") (tag "WAVE") rs).

(** The children are well formed and the container fits its size field. *)
Record wave_ok (rs : list raw) : Prop := {
  wave_children : Forall raw_ok rs;
  wave_room : Forall fmt_room rs;
  wave_size : raw_size (riff (tag "RIFF") (tag "WAVE") rs) < 2 ^ 32
}.

(** The sound file after [read_file] has marked it as WAVE. *)
Definition as_wave (sf : SoundFile) : SoundFile :=
  with_info (with_type WAVE (info sf)) sf.

(** A chunk that is neither a format chunk nor a data chunk. *)
Definition foreign (r : raw) : Prop :=
  raw_id r <> tag "fmt " /\ raw_id r <> tag "data".

(** ** One round of the loop of [read_file] *)

Section ReadChunk.
Variables (c : Chunk) (sf : SoundFile).
Hypothesis Hwf : Chunk.wf c.
Hypothesis Hoff : 0 <= offset c.

(** The head that is read again at the offset of the chunk. *)
Let head : Chunk := head_at (at_byte (offset c) sf) c.
Let sf1 : SoundFile := at_byte (offset c + 8) sf.

Lemma promote_fmt :
  id c = tag "fmt " -> SoundFile.promote (Plain c) = Fmt (WAVE_fmt.of_chunk c).
Proof.
  intros Hid. unfold SoundFile.promote. cbn [base AnyChunk_ChunkLike].
  rewrite (proj2 (tag_eqb_true _ _) Hid). cbn [base AnyChunk_ChunkLike WAVE_fmt.of_chunk fmt_chunk].
  rewrite Hid. reflexivity.
Qed.

Lemma promote_data :
  id c = tag "data" -> SoundFile.promote (Plain c) = Data (WAVE_data.of_chunk c).
Proof.
  intros Hid. unfold SoundFile.promote. cbn [base AnyChunk_ChunkLike].
  rewrite Hid. replace (tag_eqb (tag "data") "fmt ") with false by now vm_compute.
  cbn [base AnyChunk_ChunkLike]. now rewrite Hid.
Qed.

Lemma promote_other :
  id c <> tag "fmt " -> id c <> tag "data" -> SoundFile.promote (Plain c) = Plain c.
Proof.
  intros H1 H2. unfold SoundFile.promote. cbn [base AnyChunk_ChunkLike].
  rewrite (proj2 (tag_eqb_false _ _) H1). cbn [base AnyChunk_ChunkLike].
  now rewrite (proj2 (tag_eqb_false _ _) H2).
Qed.

(** A chunk of a tag the codec does not know stays a plain chunk: its head
    is read again and its payload is not touched. *)
Lemma read_chunk_other :
  id c <> tag "fmt " -> id c <> tag "data" ->
  SoundFile.read_chunk (Plain c) sf = (Ok (Plain head), sf1).
Proof.
  intros H1 H2. unfold SoundFile.read_chunk.
  cbn [replace_custom_chunk no_custom_chunks]. rewrite promote_other by assumption.
  unfold bind. cbn [base AnyChunk_ChunkLike Chunk.beginning].
  rewrite file_seek_reaches by assumption.
  now rewrite (chunk_read_run (Plain c)).
Qed.

(** A chunk tagged ["fmt "] is read as a [WAVE_fmt]. *)
Lemma read_chunk_fmt :
  id c = tag "fmt " ->
  SoundFile.read_chunk (Plain c) sf =
  (w' <- WAVE_fmt.read_fields (WAVE_fmt.of_chunk head) ;; ret (Fmt w')) sf1.
Proof.
  intros Hid. unfold SoundFile.read_chunk.
  cbn [replace_custom_chunk no_custom_chunks]. rewrite promote_fmt by assumption.
  unfold bind at 1. cbn [base AnyChunk_ChunkLike Chunk.beginning WAVE_fmt.of_chunk fmt_chunk].
  rewrite file_seek_reaches by assumption.
  now rewrite (chunk_read_run (Fmt (WAVE_fmt.of_chunk c))).
Qed.

(** A chunk tagged ["data"] is read as a [WAVE_data]: the payload offset of
    the sound file becomes the byte after its head. *)
Lemma read_chunk_data :
  id c = tag "data" ->
  SoundFile.read_chunk (Plain c) sf =
  (Ok (Data (mkWAVE_data head)), with_audioOffset (offset c + 8) sf1).
Proof.
  intros Hid. unfold SoundFile.read_chunk.
  cbn [replace_custom_chunk no_custom_chunks]. rewrite promote_data by assumption.
  unfold bind at 1. cbn [base AnyChunk_ChunkLike Chunk.beginning WAVE_data.of_chunk data_chunk].
  rewrite file_seek_reaches by assumption.
  now rewrite (chunk_read_run (Data (mkWAVE_data c))).
Qed.

End ReadChunk.

(** ** One round of the loop and the chunk under it *)

Lemma fmt_parse_fields c b :
  (16 <= length b)%nat ->
  let w := fmt_parse c (take 16 b) in
  as_u (audioFormat w) = fmt_encoding b /\ as_u (numChannels w) = fmt_channels b /\
  as_u (sampleRate w) = fmt_rate b /\ as_u (bitsPerSample w) = fmt_bits b.
Proof.
  intros Hb. cbn. unfold fmt_encoding, fmt_channels, fmt_rate, fmt_bits.
  change (take 16 b) with (slice 0 16 b).
  rewrite !slice_slice by lia. auto.
Qed.

Lemma absorb_data p r sf : data_of (absorb p r sf).2 = data_of sf.
Proof.
  unfold absorb. repeat case_match; reflexivity.
Qed.

(** What every chunk keeps, at the byte it lies at, holds after all of
    them. *)
Lemma absorb_all_keeps (P : Z -> SoundFile -> Prop) :
  (forall p r sf, P p sf -> P (p + 8 + raw_size r) (absorb p r sf).2) ->
  forall rs p sf, P p sf -> exists q, P q (absorb_all p rs sf).2.
Proof.
  intros Hstep. induction rs as [|r rs IH]; intros p sf HP; [now exists p|].
  cbn [absorb_all]. unfold bind. specialize (Hstep p r sf HP).
  destruct (absorb p r sf) as [[[]|e] sf1]; [now apply IH | eauto].
Qed.

Lemma absorb_all_data rs p sf : data_of (absorb_all p rs sf).2 = data_of sf.
Proof.
  destruct (absorb_all_keeps (fun _ s => data_of s = data_of sf)) with rs p sf
    as [_ H]; auto.
  intros q r s <-. apply absorb_data.
Qed.

(** A payload offset that is a byte of the file stays one. *)
Lemma absorb_all_offset rs p sf :
  0 <= p -> 0 <= audioOffset sf -> 0 <= audioOffset (absorb_all p rs sf).2.
Proof.
  intros Hp Ha.
  destruct (absorb_all_keeps (fun q s => 0 <= q /\ 0 <= audioOffset s)) with rs p sf
    as [_ [_ H]]; auto.
  intros q r s [Hq Hs]. split; [unfold raw_size; lia|].
  unfold absorb. repeat case_match; cbn [snd audioOffset with_audioOffset with_info at_byte
    with_file]; lia.
Qed.

Section ReadChunkImage.
Variables (pre post : bytes) (r : raw) (sf : SoundFile).
Hypothesis Hok : raw_ok r.
Hypothesis Hroom : fmt_room r.
Hypothesis Hd : data_of sf = pre ++ raw_image r ++ post.

Let p : Z := Z.of_nat (length pre).
Let c : Chunk := mkChunk (raw_id r) (of_u 4 (raw_size r)) p.

Lemma head_reread : head_at (at_byte p sf) c = c.
Proof.
  rewrite (head_at_image _ _ pre r post); auto.
  split; [apply Hok | apply length_of_u].
Qed.

Lemma c_wf : Chunk.wf c.
Proof. split; [apply Hok | apply length_of_u]. Qed.

Lemma fmt_block : slice (Z.to_nat (p + 8)) 16 (data_of sf) = take 16 (raw_payload r) \/
                  raw_id r <> tag "fmt ".
Proof.
  destruct (decide (raw_id r = tag "fmt ")) as [Hid|]; [left | now right].
  rewrite Hd. unfold raw_image. rewrite !app_assoc, <- (app_assoc _ (raw_payload r)).
  apply slice_app_mid_take; [|auto].
  destruct Hok as [Hi _]. rewrite !length_app, length_of_u, Hi. unfold p. lia.
Qed.

(** One round of the loop on the head of a chunk does what [absorb] says. *)
Lemma read_chunk_absorb :
  (_ <- SoundFile.read_chunk (Plain c) ;; ret tt) sf = absorb p r sf.
Proof.
  pose proof c_wf as Hwf. assert (Hp : 0 <= offset c) by (cbn; unfold p; lia).
  unfold absorb, bind.
  destruct (decide (raw_id r = tag "fmt ")) as [Hf|Hf].
  - rewrite (proj2 (tag_eqb_true _ _) Hf).
    rewrite (read_chunk_fmt c sf Hwf Hp Hf). cbn [offset c]. fold c.
    rewrite head_reread. unfold bind.
    pose proof (Hroom Hf) as H16. destruct fmt_block as [Hb|]; [|contradiction].
    rewrite fmt_read_fields_run.
    + autorewrite with otto_rw. rewrite Hb.
      destruct (fmt_parse_fields (fmt_chunk (WAVE_fmt.of_chunk c)) _ H16)
        as (E1 & E2 & E3 & E4).
      unfold fmt_accept, publish. rewrite E1, E2, E3, E4.
      replace (p + 8 + 16) with (p + 24) by lia.
      destruct (fmt_encoding _ =? 3); [|reflexivity].
      destruct (fmt_bits _ =? 32); reflexivity.
    + apply of_chunk_wf.
    + autorewrite with otto_rw. lia.
    + autorewrite with otto_rw. unfold ByteFile.size. fold (data_of sf).
      rewrite Hd, !length_app. pose proof (raw_image_length r Hok).
      unfold raw_size, p in *. lia.
  - rewrite (proj2 (tag_eqb_false _ _) Hf).
    destruct (decide (raw_id r = tag "data")) as [Hdt|Hdt].
    + rewrite (proj2 (tag_eqb_true _ _) Hdt).
      now rewrite (read_chunk_data c sf Hwf Hp Hdt).
    + rewrite (proj2 (tag_eqb_false _ _) Hdt).
      now rewrite (read_chunk_other c sf Hwf Hp Hf Hdt).
Qed.

End ReadChunkImage.

(** ** The loop of [read_file] *)

Lemma read_chunks_absorb rs : forall pre post sf,
  Forall raw_ok rs -> Forall fmt_room rs ->
  data_of sf = pre ++ images rs ++ post ->
  (_ <- mapM SoundFile.read_chunk (map Plain (heads (Z.of_nat (length pre)) rs)) ;;
   ret tt) sf
  = absorb_all (Z.of_nat (length pre)) rs sf.
Proof.
  induction rs as [|r rs IH]; intros pre post sf Hok Hroom Hd; [reflexivity|].
  apply Forall_cons in Hok as [Hr Hrs]. apply Forall_cons in Hroom as [Hm Hms].
  rewrite images_cons, <- app_assoc in Hd.
  cbn [heads map mapM absorb_all].
  pose proof (read_chunk_absorb pre _ r sf Hr Hm Hd) as H1.
  pose proof (absorb_data (Z.of_nat (length pre)) r sf) as Hd1.
  unfold bind in *.
  destruct (SoundFile.read_chunk _ sf) as [[y|e] s1]; rewrite <- H1 in *;
    [|reflexivity].
  unfold ret in Hd1 |- * at 3. cbn [snd] in Hd1.
  specialize (IH (pre ++ raw_image r) post s1 Hrs Hms).
  rewrite length_app, Nat2Z.inj_add, (raw_image_length r Hr), Z.add_assoc in IH.
  rewrite <- IH by (now rewrite Hd1, Hd, <- app_assoc).
  now destruct (mapM _ _ s1) as [[ys|e] s2].
Qed.

(** ** [read_file] after the header *)

(** [read_file] after the header has been read. *)
Lemma read_file_after_header {CC : CustomChunks} {FC : FileCreator} header sf sf1 :
  Chunk.read Header.make (at_byte 0 sf) = (Ok header, sf1) ->
  SoundFile.read_file sf =
  (_ <- SoundFile.classify header ;;
   ty <- gets (fun sf => type (info sf)) ;;
   _ <- match ty with
        | WAVE => _ <- mapM SoundFile.read_chunk (chunks header) ;; ret tt
        | AIFF => throw UnsupportedContainerKind
        end ;;
   _ <- SoundFile.seek 0 ;;
   ret tt) sf1.
Proof.
  intros Hh. unfold SoundFile.read_file. unfold bind at 1.
  rewrite file_seek_at by lia. unfold bind at 1. now rewrite Hh.
Qed.

Lemma classify_wave {FC : FileCreator} c cs sf :
  id c = tag "RIFF" ->
  SoundFile.classify (mkHeader c (tag "WAVE") cs) sf = (Ok tt, as_wave sf).
Proof.
  intros Hid. unfold SoundFile.classify. cbn [header_chunk format].
  now rewrite Hid, !tag_eqb_refl.
Qed.

(** [read_file] after a RIFF/WAVE header has been read. *)
Lemma read_file_wave_children {CC : CustomChunks} {FC : FileCreator} c cs sf sf1 :
  id c = tag "RIFF" ->
  Chunk.read Header.make (at_byte 0 sf) = (Ok (mkHeader c (tag "WAVE") cs), sf1) ->
  SoundFile.read_file sf =
  (_ <- (_ <- mapM SoundFile.read_chunk cs ;; ret tt) ;; _ <- SoundFile.seek 0 ;; ret tt)
    (as_wave sf1).
Proof.
  intros Hid Hh. rewrite (read_file_after_header _ _ _ Hh).
  now rewrite (bind_ok _ _ _ _ _ (classify_wave c cs sf1 Hid)).
Qed.

Section ReadFile.
Context {FC : FileCreator}.
Variables (rs : list raw) (rest : bytes) (sf : SoundFile).
Hypothesis Hok : Forall raw_ok rs.
Hypothesis Hroom : Forall fmt_room rs.
Hypothesis Hsz : raw_size (riff (tag "RIFF") (tag "WAVE") rs) < 2 ^ 32.
Hypothesis Hd : data_of sf = raw_image (riff (tag "RIFF") (tag "WAVE") rs) ++ rest.

(** [read_file] on a RIFF/WAVE container: the file is marked as WAVE, every
    child gives what [absorb] says, in the order the children lie in the
    file, and the stream is moved to sample 0. *)
Lemma read_file_wave_run :
  SoundFile.read_file sf =
  (_ <- absorb_all 12 rs ;; _ <- SoundFile.seek 0 ;; ret tt)
    (with_info (with_type WAVE (info sf)) (at_byte (riff_end rs) sf)).
Proof.
  unfold SoundFile.read_file. unfold bind at 1. rewrite file_seek_at by lia.
  unfold bind at 1.
  rewrite (header_read_riff (tag "RIFF") (tag "WAVE") rs rest sf)
    by (auto; reflexivity).
  unfold bind at 1. unfold SoundFile.classify.
  cbn [header_chunk id format chunks]. rewrite !tag_eqb_refl. cbn [andb].
  unfold modify at 1. unfold bind at 1, gets at 1. cbn [info with_info type with_type].
  set (sf1 := with_info _ _).
  set (pre := tag "RIFF" ++ of_u 4 (raw_size (riff (tag "RIFF") (tag "WAVE") rs))
              ++ tag "WAVE").
  apply bind_cong_l.
  change 12 with (Z.of_nat (length pre)).
  apply (read_chunks_absorb rs pre rest sf1 Hok Hroom).
  transitivity (data_of sf); [reflexivity|].
  subst pre. rewrite Hd. unfold raw_image, riff. cbn [raw_id raw_payload].
  now rewrite <- !app_assoc.
Qed.

End ReadFile.

(** ** The cases of [absorb] *)

Section AbsorbCases.
Variables (p : Z) (sf : SoundFile).

Lemma absorb_fmt_ok blk :
  fmt_encoding blk = 3 -> fmt_bits blk = 32 ->
  absorb p (mkRaw (tag "fmt ") blk) sf =
  (Ok tt, with_info (mkInfo (type (info sf)) (fmt_channels blk) (fmt_rate blk))
                    (at_byte (p + 24) sf)).
Proof. intros He Hb. unfold absorb. cbn. now rewrite He, Hb. Qed.

Lemma absorb_fmt_bad_encoding blk :
  fmt_encoding blk <> 3 ->
  absorb p (mkRaw (tag "fmt ") blk) sf = (Throw UnsupportedEncoding, at_byte (p + 24) sf).
Proof.
  intros He. unfold absorb. cbn. now rewrite (proj2 (Z.eqb_neq _ _) He).
Qed.

Lemma absorb_fmt_bad_depth blk :
  fmt_encoding blk = 3 -> fmt_bits blk <> 32 ->
  absorb p (mkRaw (tag "fmt ") blk) sf =
  (Throw UnsupportedBitDepth,
   with_info (mkInfo (type (info sf)) (fmt_channels blk) (fmt_rate blk))
             (at_byte (p + 24) sf)).
Proof.
  intros He Hb. unfold absorb. cbn. now rewrite He, (proj2 (Z.eqb_neq _ _) Hb).
Qed.

Lemma absorb_payload payload :
  absorb p (mkRaw (tag "data") payload) sf =
  (Ok tt, with_audioOffset (p + 8) (at_byte (p + 8) sf)).
Proof. reflexivity. Qed.

Lemma absorb_other r :
  raw_id r <> tag "fmt " -> raw_id r <> tag "data" ->
  absorb p r sf = (Ok tt, at_byte (p + 8) sf).
Proof.
  intros H1 H2. unfold absorb.
  now rewrite (proj2 (tag_eqb_false _ _) H1), (proj2 (tag_eqb_false _ _) H2).
Qed.

End AbsorbCases.

(** ** [read_file] on a WAVE container *)

Lemma seek_0_at sf :
  0 <= audioOffset sf ->
  (_ <- SoundFile.seek 0 ;; ret tt) sf = (Ok tt, at_byte (audioOffset sf) sf).
Proof.
  intros H. unfold bind. rewrite seek_run. unfold byte_of_sample.
  rewrite Z.mul_0_l, Z.add_0_r, seek_reaches by assumption. reflexivity.
Qed.

Section ReadFileCases.
Context {FC : FileCreator}.
Variables (rs : list raw) (rest : bytes) (sf : SoundFile).
Hypothesis Hok : wave_ok rs.
Hypothesis Hd : data_of sf = wave_image rs ++ rest.

(** C1: [read_file] on a RIFF/WAVE container refines the chunk-level
    specification: it marks the file as WAVE, takes from every child what
    [absorb] says, in the order the children lie in the file, stops at the
    first child that is refused, and ends by moving to sample 0. *)
Theorem read_file_wave_refines :
  SoundFile.read_file sf =
  (_ <- absorb_all 12 rs ;; _ <- SoundFile.seek 0 ;; ret tt)
    (as_wave (at_byte (riff_end rs) sf)).
Proof. destruct Hok. now apply read_file_wave_run with (rest := rest). Qed.

End ReadFileCases.

Lemma read_file_wave_ok {FC : FileCreator} rs rest sf :
  wave_ok rs -> data_of sf = wave_image rs ++ rest ->
  SoundFile.read_file sf =
  (_ <- absorb_all 12 rs ;; _ <- SoundFile.seek 0 ;; ret tt)
    (as_wave (at_byte (riff_end rs) sf)).
Proof. intros []. now apply read_file_wave_run. Qed.

(** ** A format chunk first *)

Section FormatFirst.
Context {FC : FileCreator}.
Variables (blk : bytes) (rs : list raw) (rest : bytes) (sf : SoundFile).
Hypothesis Hok : wave_ok (fmt_chunk_of blk :: rs).
Hypothesis Hd : data_of sf = wave_image (fmt_chunk_of blk :: rs) ++ rest.

(** C23: a WAVE file whose format chunk is not of float encoding is refused
    with [UnsupportedEncoding]; the sound file keeps its channel count and
    rate, and its cursor is left after the format block. *)
Theorem read_file_refuses_encoding :
  fmt_encoding blk <> 3 ->
  SoundFile.read_file sf = (Throw UnsupportedEncoding, as_wave (at_byte 36 sf)).
Proof.
  intros He. rewrite (read_file_wave_ok _ rest sf Hok Hd).
  cbn [absorb_all].
  erewrite bind_throw by (apply bind_throw; now apply absorb_fmt_bad_encoding).
  reflexivity.
Qed.

(** C22: a WAVE file whose format chunk has samples that are not of 32 bits
    is refused with [UnsupportedBitDepth], and the failed read has already
    replaced the channel count and the rate of the sound file by those of
    the chunk. *)
Theorem read_file_bit_depth_partial :
  fmt_encoding blk = 3 -> fmt_bits blk <> 32 ->
  SoundFile.read_file sf =
  (Throw UnsupportedBitDepth,
   with_info (mkInfo WAVE (fmt_channels blk) (fmt_rate blk)) (at_byte 36 sf)).
Proof.
  intros He Hb. rewrite (read_file_wave_ok _ rest sf Hok Hd).
  cbn [absorb_all].
  erewrite bind_throw by (apply bind_throw; now apply absorb_fmt_bad_depth).
  reflexivity.
Qed.

End FormatFirst.

(** ** The canonical file: a format chunk and a data chunk *)

Section Canonical.
Context {FC : FileCreator}.
Variables (blk payload rest : bytes) (sf : SoundFile).
Hypothesis Hok : wave_ok [fmt_chunk_of blk; data_chunk_of payload].
Hypothesis Hd :
  data_of sf = wave_image [fmt_chunk_of blk; data_chunk_of payload] ++ rest.
Hypothesis He : fmt_encoding blk = 3.
Hypothesis Hb : fmt_bits blk = 32.

(** The first byte of the payload. *)
Let ao : Z := 28 + Z.of_nat (length blk).

Lemma read_file_canonical_run :
  SoundFile.read_file sf =
  (Ok tt, mkSoundFile (ByteFile.mk (data_of sf) ao)
                      (mkInfo WAVE (fmt_channels blk) (fmt_rate blk))
                      ao (sample_size sf)).
Proof.
  rewrite (read_file_wave_ok _ rest sf Hok Hd).
  erewrite bind_ok.
  2:{ cbn [absorb_all]. erewrite bind_ok by (now apply absorb_fmt_ok).
      erewrite bind_ok by apply absorb_payload. reflexivity. }
  rewrite seek_0_at by (cbn; unfold raw_size; lia).
  unfold at_byte, with_audioOffset, with_info, with_file, as_wave, raw_size, ao.
  cbn. do 2 f_equal; [f_equal|]; lia.
Qed.

(** C2: [read_file] on a WAVE file with a format chunk of 32-bit float
    samples and a data chunk stores the channel count and the sample rate
    of the format chunk, sets [audioOffset] to the first byte of the
    payload and leaves the cursor there; the bytes of the file and
    [sample_size] are unchanged. *)
Theorem read_file_canonical :
  SoundFile.read_file sf =
  (Ok tt, mkSoundFile (ByteFile.mk (data_of sf) ao)
                      (mkInfo WAVE (fmt_channels blk) (fmt_rate blk))
                      ao (sample_size sf)).
Proof. exact read_file_canonical_run. Qed.

(** C25: after [read_file] on a file that ends with its payload, [length]
    is the number of bytes of the payload divided by [sample_size]. *)
Theorem read_file_then_length :
  rest = [] ->
  (_ <- SoundFile.read_file ;; SoundFile.length) sf =
  (Ok (Z.quot (Z.of_nat (length payload)) (sample_size sf)),
   mkSoundFile (ByteFile.mk (data_of sf) ao)
               (mkInfo WAVE (fmt_channels blk) (fmt_rate blk))
               ao (sample_size sf)).
Proof.
  intros Hrest. erewrite bind_ok by apply read_file_canonical_run.
  rewrite length_run. cbn [file audioOffset sample_size]. do 2 f_equal.
  unfold ByteFile.size. cbn [ByteFile.data]. rewrite Hd, Hrest.
  unfold wave_image, riff, images, ao. cbn [map concat].
  unfold raw_image, raw_size. cbn [raw_id raw_payload fmt_chunk_of data_chunk_of].
  rewrite ?length_app, ?length_of_u, ?tag_length. cbn [String.length length].
  f_equal. lia.
Qed.

End Canonical.

(** ** Containers of another kind *)

(** [read_file] up to the test of the tag, on a container of any kind. *)
Lemma read_file_classify {CC : CustomChunks} {FC : FileCreator} tg fm rs rest sf :
  has_width 4 tg -> has_width 4 fm -> Forall raw_ok rs ->
  raw_size (riff tg fm rs) < 2 ^ 32 ->
  data_of sf = raw_image (riff tg fm rs) ++ rest ->
  SoundFile.read_file sf =
  (let header := mkHeader (mkChunk tg (of_u 4 (raw_size (riff tg fm rs))) 0) fm
                          (map Plain (heads 12 rs)) in
   _ <- SoundFile.classify header ;;
   ty <- gets (fun sf => type (info sf)) ;;
   _ <- match ty with
        | WAVE => _ <- mapM SoundFile.read_chunk (chunks header) ;; ret tt
        | AIFF => throw UnsupportedContainerKind
        end ;;
   _ <- SoundFile.seek 0 ;;
   ret tt) (at_byte (riff_end rs) sf).
Proof.
  intros Htg Hfm Hrs Hsz Hd. unfold SoundFile.read_file. unfold bind at 1.
  rewrite file_seek_at by lia. unfold bind at 1.
  now rewrite (header_read_riff tg fm rs rest sf).
Qed.

Section OtherKinds.
Context {CC : CustomChunks} {FC : FileCreator}.
Variables (tg fm : bytes) (rs : list raw) (rest : bytes) (sf : SoundFile).
Hypothesis Htg : has_width 4 tg.
Hypothesis Hfm : has_width 4 fm.
Hypothesis Hrs : Forall raw_ok rs.
Hypothesis Hsz : raw_size (riff tg fm rs) < 2 ^ 32.
Hypothesis Hd : data_of sf = raw_image (riff tg fm rs) ++ rest.

(** C26: a container whose tag and format are neither RIFF/WAVE nor
    FORM/AIFF, and whose tag is not zero, is refused with
    [UnrecognizedFileType] carrying the tag; the sound file is unchanged
    but for the cursor, which is at the end of the container. *)
Theorem read_file_unrecognized :
  ~ (tg = tag "RIFF" /\ fm = tag "WAVE") ->
  ~ (tg = tag "FORM" /\ fm = tag "AIFF") ->
  as_u tg <> 0 ->
  SoundFile.read_file sf = (Throw (UnrecognizedFileType tg), at_byte (riff_end rs) sf).
Proof.
  intros H1 H2 H3. rewrite (read_file_classify tg fm rs rest) by assumption.
  cbv zeta. unfold SoundFile.classify. cbn [header_chunk id format].
  rewrite (tag_pair_false _ _ _ _ H1), (tag_pair_false _ _ _ _ H2).
  now rewrite (proj2 (Z.eqb_neq _ _) H3).
Qed.

(** C27: a FORM/AIFF container is recognised and refused: [read_file] sets
    the type of the sound file to AIFF and throws
    [UnsupportedContainerKind]. *)
Theorem read_file_aiff :
  tg = tag "FORM" -> fm = tag "AIFF" ->
  SoundFile.read_file sf =
  (Throw UnsupportedContainerKind,
   with_info (with_type AIFF (info sf)) (at_byte (riff_end rs) sf)).
Proof.
  intros H1 H2. rewrite (read_file_classify tg fm rs rest) by assumption.
  cbv zeta. unfold SoundFile.classify. cbn [header_chunk id format].
  now rewrite H1, H2.
Qed.

End OtherKinds.

(** ** A container that ends inside a child *)

(** C7: bounded scan: when the size of the header puts the end of the
    container inside one of its children, after any number of well-formed
    children, [read_file] stops with [MalformedContainer], for every tag
    and format, before the kind of the container is looked at; the cursor
    is left after the head of the child that overruns. *)
Theorem read_file_malformed {CC : CustomChunks} {FC : FileCreator}
    tg sz fm rs r rest sf :
  has_width 4 tg -> has_width 4 sz -> has_width 4 fm ->
  Forall raw_ok rs -> raw_ok r ->
  data_of sf = tg ++ sz ++ fm ++ images rs ++ raw_image r ++ rest ->
  riff_end rs < 8 + as_u sz -> 8 + as_u sz < riff_end rs + 8 + raw_size r ->
  SoundFile.read_file sf = (Throw MalformedContainer, at_byte (riff_end rs + 8) sf).
Proof.
  intros Htg Hsz Hfm Hrs Hr Hd Hlo Hhi. unfold SoundFile.read_file.
  erewrite bind_ok by (apply file_seek_at; lia).
  now erewrite bind_throw by (now apply (header_read_overrun tg sz fm rs r rest)).
Qed.

(** ** Chunks the codec does not know *)

Lemma absorb_all_foreign rs : forall p sf,
  Forall foreign rs -> exists q, absorb_all p rs sf = (Ok tt, at_byte q sf).
Proof.
  induction rs as [|r rs IH]; intros p sf Hf.
  - exists (cursor_of sf). cbn. now rewrite at_byte_cursor.
  - apply Forall_cons in Hf as [[H1 H2] Hf]. cbn [absorb_all].
    destruct (IH (p + 8 + raw_size r) (at_byte (p + 8) sf) Hf) as [q Hq].
    exists q. erewrite bind_ok by now apply absorb_other. exact Hq.
Qed.

Lemma foreign_room rs : Forall foreign rs -> Forall fmt_room rs.
Proof. intros H. eapply Forall_impl; [exact H|]. intros r [Hr _] Hid. contradiction. Qed.

(** C33: chunks of tags the codec does not know are skipped: on a WAVE file
    that holds only such chunks [read_file] succeeds, marks the file as
    WAVE and changes nothing else but the cursor, which it puts at sample
    0 of the payload offset the sound file had. *)
Theorem read_file_skips_foreign {FC : FileCreator} rs rest sf :
  Forall raw_ok rs -> Forall foreign rs ->
  raw_size (riff (tag "RIFF") (tag "WAVE") rs) < 2 ^ 32 ->
  data_of sf = wave_image rs ++ rest ->
  0 <= audioOffset sf ->
  SoundFile.read_file sf = (Ok tt, as_wave (at_byte (audioOffset sf) sf)).
Proof.
  intros Hok Hf Hsz Hd Hao.
  rewrite (read_file_wave_run rs rest) by auto using foreign_room.
  destruct (absorb_all_foreign rs 12 (as_wave (at_byte (riff_end rs) sf)) Hf)
    as [q Hq].
  rewrite (bind_ok _ _ _ _ _ Hq). now rewrite seek_0_at.
Qed.

(** ** A file that does not exist yet *)

Lemma classify_zero {FC : FileCreator} sf :
  SoundFile.classify Header.make sf = create_file sf.
Proof. reflexivity. Qed.

(** C28: on an empty file [read_file] reads a header of zeros without an
    error, with the cursor left at byte 12, and calls [create_file]; the
    switch on the type of the sound file runs after it, on the type that
    [create_file] leaves, and the stream is moved to sample 0. *)
Theorem read_file_bootstrap {CC : CustomChunks} {FC : FileCreator} sf :
  data_of sf = [] ->
  SoundFile.read_file sf =
  (_ <- create_file ;;
   ty <- gets (fun sf => type (info sf)) ;;
   _ <- match ty with
        | WAVE => ret tt
        | AIFF => throw UnsupportedContainerKind
        end ;;
   _ <- SoundFile.seek 0 ;;
   ret tt) (at_byte 12 sf).
Proof.
  intros Hd. rewrite (read_file_after_header _ _ _ (header_read_empty sf Hd)).
  apply bind_cong_l, classify_zero.
Qed.

(** ** Concrete files *)

(** A WAVE file whose format chunk has the encoding [af] and [bits] bits a
    sample, followed by a data chunk of 32 bytes. *)
Definition demo_block_of (af bits : Z) : bytes :=
  of_u 2 af ++ of_u 2 2 ++ of_u 4 44100 ++ of_u 4 352800 ++ of_u 2 8 ++ of_u 2 bits.

Definition demo_children_of (af bits : Z) : list raw :=
  [fmt_chunk_of (demo_block_of af bits); data_chunk_of (zeros 32)].

Definition demo_wave_of (af bits : Z) : SoundFile :=
  demo_on (wave_image (demo_children_of af bits)).

(** A WAVE file with one chunk of a tag the codec does not know. *)
Definition demo_foreign : list raw := [mkRaw (tag "LIST") (zeros 6)].

(** A container of 68 bytes whose header says 60. *)
Definition demo_short : SoundFile :=
  demo_on (tag "RIFF" ++ of_u 4 60 ++ tag "WAVE" ++
           images [fmt_chunk_of demo_fmt] ++ raw_image (data_chunk_of (zeros 32)) ++ []).

Lemma demo_children_ok af bits : wave_ok (demo_children_of af bits).
Proof.
  split; [repeat constructor | repeat constructor; intros _; cbn; lia | now vm_compute].
Qed.

Lemma read_file_wave_refines_witness :
  SoundFile.read_file (demo_wave_of 3 32) =
  (_ <- absorb_all 12 (demo_children_of 3 32) ;; _ <- SoundFile.seek 0 ;; ret tt)
    (as_wave (at_byte (riff_end (demo_children_of 3 32)) (demo_wave_of 3 32))).
Proof.
  apply (read_file_wave_refines (demo_children_of 3 32) [] (demo_wave_of 3 32));
    [apply demo_children_ok | now vm_compute].
Defined.

Lemma read_file_canonical_witness :
  fmt_channels (demo_block_of 3 32) = 2 /\ fmt_rate (demo_block_of 3 32) = 44100 /\
  SoundFile.read_file (demo_wave_of 3 32) =
  (Ok tt,
   mkSoundFile
     (ByteFile.mk (data_of (demo_wave_of 3 32))
                  (28 + Z.of_nat (length (demo_block_of 3 32))))
     (mkInfo WAVE (fmt_channels (demo_block_of 3 32)) (fmt_rate (demo_block_of 3 32)))
     (28 + Z.of_nat (length (demo_block_of 3 32)))
     (sample_size (demo_wave_of 3 32))).
Proof.
  split; [now vm_compute|]. split; [now vm_compute|].
  apply (read_file_canonical (demo_block_of 3 32) (zeros 32) [] (demo_wave_of 3 32));
    [apply demo_children_ok | now vm_compute ..].
Defined.

Lemma read_file_then_length_witness :
  Z.quot (Z.of_nat (length (zeros 32))) (sample_size (demo_wave_of 3 32)) = 8 /\
  (_ <- SoundFile.read_file ;; SoundFile.length) (demo_wave_of 3 32) =
  (Ok (Z.quot (Z.of_nat (length (zeros 32))) (sample_size (demo_wave_of 3 32))),
   mkSoundFile
     (ByteFile.mk (data_of (demo_wave_of 3 32))
                  (28 + Z.of_nat (length (demo_block_of 3 32))))
     (mkInfo WAVE (fmt_channels (demo_block_of 3 32)) (fmt_rate (demo_block_of 3 32)))
     (28 + Z.of_nat (length (demo_block_of 3 32)))
     (sample_size (demo_wave_of 3 32))).
Proof.
  split; [now vm_compute|].
  apply (read_file_then_length (demo_block_of 3 32) (zeros 32) [] (demo_wave_of 3 32));
    [apply demo_children_ok | now vm_compute ..].
Defined.

Lemma read_file_refuses_encoding_witness :
  SoundFile.read_file (demo_wave_of 1 16) =
  (Throw UnsupportedEncoding, as_wave (at_byte 36 (demo_wave_of 1 16))).
Proof.
  apply (read_file_refuses_encoding (demo_block_of 1 16) [data_chunk_of (zeros 32)] []
           (demo_wave_of 1 16));
    [apply demo_children_ok | now vm_compute ..].
Defined.

Lemma read_file_bit_depth_partial_witness :
  SoundFile.read_file (demo_wave_of 3 16) =
  (Throw UnsupportedBitDepth,
   with_info (mkInfo WAVE (fmt_channels (demo_block_of 3 16)) (fmt_rate (demo_block_of 3 16)))
             (at_byte 36 (demo_wave_of 3 16))) /\
  channels (info (demo_wave_of 3 16)) = 0 /\ fmt_channels (demo_block_of 3 16) = 2.
Proof.
  split; [|now vm_compute].
  apply (read_file_bit_depth_partial (demo_block_of 3 16) [data_chunk_of (zeros 32)] []
           (demo_wave_of 3 16));
    [apply demo_children_ok | now vm_compute ..].
Defined.

Lemma read_file_unrecognized_witness :
  SoundFile.read_file (demo_on (raw_image (riff (tag "RIFX") (tag "WAVE") demo_children))) =
  (Throw (UnrecognizedFileType (tag "RIFX")),
   at_byte (riff_end demo_children)
     (demo_on (raw_image (riff (tag "RIFX") (tag "WAVE") demo_children)))).
Proof.
  apply (read_file_unrecognized (tag "RIFX") (tag "WAVE") demo_children []);
    [reflexivity | reflexivity | repeat constructor | now vm_compute | now vm_compute
    | now intros [? _] | now intros [? _] | now vm_compute].
Defined.

Lemma read_file_aiff_witness :
  SoundFile.read_file (demo_on (raw_image (riff (tag "FORM") (tag "AIFF") []))) =
  (Throw UnsupportedContainerKind,
   with_info (with_type AIFF (info (demo_on (raw_image (riff (tag "FORM") (tag "AIFF") [])))))
     (at_byte (riff_end []) (demo_on (raw_image (riff (tag "FORM") (tag "AIFF") []))))).
Proof.
  apply (read_file_aiff (tag "FORM") (tag "AIFF") [] []);
    [reflexivity | reflexivity | constructor | now vm_compute | now vm_compute
    | reflexivity | reflexivity].
Defined.

Lemma read_file_malformed_witness :
  SoundFile.read_file demo_short =
  (Throw MalformedContainer, at_byte (riff_end [fmt_chunk_of demo_fmt] + 8) demo_short).
Proof.
  apply (read_file_malformed (tag "RIFF") (of_u 4 60) (tag "WAVE")
           [fmt_chunk_of demo_fmt] (data_chunk_of (zeros 32)) []);
    [reflexivity | reflexivity | reflexivity | repeat constructor | repeat constructor
    | reflexivity | now vm_compute | now vm_compute].
Defined.

Lemma read_file_skips_foreign_witness :
  SoundFile.read_file (demo_on (wave_image demo_foreign)) =
  (Ok tt, as_wave (at_byte (audioOffset (demo_on (wave_image demo_foreign)))
                           (demo_on (wave_image demo_foreign)))).
Proof.
  apply (read_file_skips_foreign demo_foreign []);
    [repeat constructor | repeat constructor; now vm_compute | now vm_compute
    | now vm_compute | now vm_compute].
Defined.

Lemma read_file_bootstrap_witness :
  SoundFile.read_file (demo_on []) =
  (_ <- create_file ;;
   ty <- gets (fun sf => type (info sf)) ;;
   _ <- match ty with
        | WAVE => ret tt
        | AIFF => throw UnsupportedContainerKind
        end ;;
   _ <- SoundFile.seek 0 ;;
   ret tt) (at_byte 12 (demo_on [])).
Proof. apply (read_file_bootstrap (demo_on [])). reflexivity. Defined.
