(* ===== verification/Writer.v ===== *)
(** * [SoundFile::write_file]

    [write_file] builds a header with a format chunk and a data chunk and
    writes it at byte 0.  Every write of the chain is a [write_bytes] at
    the cursor, so the whole operation stores one block of 44 bytes,
    [wave_head]: the tags, the sixteen bytes of the format chunk computed
    from the sound file, and the size of the data chunk computed from the
    length of the file and the payload offset the sound file had.

    The size fields of the header and of the format chunk are written as
    the constructors left them, that is 0.  The theorems show the layout,
    and what follows from it for a reader: the header of the written file
    has no children, so [read_file] takes neither the channel count nor the
    rate nor the payload offset from it.  The last theorem is the start on
    an empty file, with [create_file] writing the header.

    The theorems are for the sound file that adds no chunk
    ([no_custom_chunks]). *)

From Stdlib Require Import ZArith Lia List String.
From stdpp Require Import base list.
From coqutil Require Import Byte.
From S2P Require Import Prelude Bytes Stream SoundState Chunk Scan Wave SoundFile Children Reader.
Import ListNotations.
Local Open Scope Z_scope.
Local Open Scope otto_scope.

(** The sound file after [buf] has been written at the cursor. *)
Definition appended (buf : bytes) (sf : SoundFile) : SoundFile :=
  with_file (ByteFile.write_bytes buf (file sf)) sf.

(** The 44 bytes that [write_file] stores for the sound file [sf]. *)
Definition wave_head (sf : SoundFile) : bytes :=
  tag "RIFF" ++ zeros 4 ++ tag "WAVE" ++
  tag "fmt " ++ zeros 4 ++ fmt_image (WAVE_fmt.compute_fields sf WAVE_fmt.make) ++
  tag "data" ++ of_u 4 (ByteFile.size (file sf) - audioOffset sf).

Lemma appended_app a b sf :
  0 <= cursor_of sf -> appended b (appended a sf) = appended (a ++ b) sf.
Proof.
  intros H. unfold appended. cbn [file with_file].
  now rewrite write_bytes_app.
Qed.

Lemma appended_cursor buf sf :
  cursor_of (appended buf sf) = cursor_of sf + Z.of_nat (length buf).
Proof. reflexivity. Qed.

Lemma write_bytes_appended buf sf : write_bytes buf sf = (Ok tt, appended buf sf).
Proof. reflexivity. Qed.

(** [write] stores the head at the cursor and hands the chunk, with the
    offset recorded, to the virtual [write_fields]. *)
Lemma chunk_write_run {T} `{ChunkLike T} (this : T) sf :
  0 <= cursor_of sf ->
  Chunk.write this sf =
  write_fields
    (with_base (mkChunk (id (base this)) (size (base this)) (cursor_of sf)) this)
    (appended (id (base this) ++ size (base this)) sf).
Proof.
  intros Hc. unfold Chunk.write, bind, file_position, gets.
  rewrite !write_bytes_appended. now rewrite appended_app.
Qed.

Lemma fmt_write_run w sf :
  0 <= cursor_of sf ->
  WAVE_fmt.write_fields w sf =
  (Ok (WAVE_fmt.compute_fields sf w),
   appended (fmt_image (WAVE_fmt.compute_fields sf w)) sf).
Proof. apply fmt_write_fields_run. Qed.

Lemma wave_head_length sf : length (wave_head sf) = 44%nat.
Proof.
  unfold wave_head.
  rewrite !length_app, fmt_image_length by apply compute_fields_wf.
  now autorewrite with otto_rw.
Qed.

(** Writing a format chunk: the head, then the sixteen bytes computed from
    the sound file. *)
Lemma write_fmt_chunk w sf :
  0 <= cursor_of sf ->
  Chunk.write (Fmt w) sf =
  (Ok (Fmt (WAVE_fmt.compute_fields sf
              (WAVE_fmt.with_chunk
                 (mkChunk (id (fmt_chunk w)) (size (fmt_chunk w)) (cursor_of sf)) w))),
   appended (id (fmt_chunk w) ++ size (fmt_chunk w) ++
             fmt_image (WAVE_fmt.compute_fields sf w)) sf).
Proof.
  intros Hc. rewrite chunk_write_run by assumption.
  cbn [write_fields with_base base AnyChunk_ChunkLike]. unfold bind.
  rewrite fmt_write_run by (rewrite appended_cursor; lia).
  rewrite appended_app, <- app_assoc by assumption. reflexivity.
Qed.

(** Writing a data chunk: the head, and the payload offset of the sound
    file becomes the byte after it. *)
Lemma write_data_chunk d sf :
  0 <= cursor_of sf ->
  Chunk.write (Data d) sf =
  (Ok (Data (mkWAVE_data
               (mkChunk (id (data_chunk d)) (size (data_chunk d)) (cursor_of sf)))),
   with_audioOffset (cursor_of sf + 8)
     (appended (id (data_chunk d) ++ size (data_chunk d)) sf)).
Proof.
  intros Hc. rewrite chunk_write_run by assumption. reflexivity.
Qed.

(** The two children of the header that [write_file] builds. *)
Lemma write_children w d sf :
  0 <= cursor_of sf -> Chunk.wf (fmt_chunk w) ->
  exists cs,
    mapM Chunk.write [Fmt w; Data d] sf =
    (Ok cs,
     with_audioOffset (cursor_of sf + 32)
       (appended (id (fmt_chunk w) ++ size (fmt_chunk w) ++
                  fmt_image (WAVE_fmt.compute_fields sf w) ++
                  id (data_chunk d) ++ size (data_chunk d)) sf)).
Proof.
  intros Hc [Hi Hs]. eexists. cbn [mapM].
  erewrite bind_ok by now apply write_fmt_chunk.
  erewrite bind_ok.
  2:{ erewrite bind_ok by (apply write_data_chunk; rewrite appended_cursor; lia).
      reflexivity. }
  unfold ret. f_equal.
  rewrite appended_app, appended_cursor, !length_app, Hi, Hs by assumption.
  rewrite fmt_image_length by apply compute_fields_wf.
  rewrite <- !app_assoc. f_equal. lia.
Qed.

(** The header that [write_file] builds when the sound file overrides
    nothing. *)
Lemma wave_header_plain sz ao :
  SoundFile.wave_header sz ao =
  mkHeader (mkChunk (tag "RIFF") (zeros 4) 0) (tag "WAVE")
    [Fmt WAVE_fmt.make;
     Data (mkWAVE_data (mkChunk (tag "data") (of_u 4 (sz - ao)) 0))].
Proof. reflexivity. Qed.

Lemma write_file_unfold {CC : CustomChunks} sf :
  type (info sf) = WAVE ->
  SoundFile.write_file sf =
  (_ <- Chunk.write (SoundFile.wave_header (ByteFile.size (file sf)) (audioOffset sf)) ;;
   ret tt) (at_byte 0 sf).
Proof.
  intros Hty. unfold SoundFile.write_file. unfold bind at 1.
  rewrite file_seek_at by lia. unfold bind at 1, gets at 1.
  rewrite info_at_byte, Hty. reflexivity.
Qed.

(** Writing a header with a format chunk and a data chunk. *)
Lemma header_write_run c fm w d sf :
  0 <= cursor_of sf -> Chunk.wf c -> has_width 4 fm -> Chunk.wf (fmt_chunk w) ->
  exists h,
    Chunk.write (mkHeader c fm [Fmt w; Data d]) sf =
    (Ok h,
     with_audioOffset (cursor_of sf + 44)
       (appended (id c ++ size c ++ fm ++
                  id (fmt_chunk w) ++ size (fmt_chunk w) ++
                  fmt_image (WAVE_fmt.compute_fields sf w) ++
                  id (data_chunk d) ++ size (data_chunk d)) sf)).
Proof.
  intros Hc [Hi Hs] Hfm Hw.
  destruct (write_children w d (appended ((id c ++ size c) ++ fm) sf)) as [cs Hcs];
    [rewrite appended_cursor; lia | assumption |].
  eexists. rewrite chunk_write_run by assumption.
  cbn [write_fields with_base base Header_ChunkLike header_chunk format chunks].
  unfold Header.write_fields. cbn [format chunks header_chunk].
  erewrite bind_ok by apply write_bytes_appended.
  rewrite appended_app by assumption.
  rewrite (bind_ok _ _ _ _ _ Hcs). unfold ret. f_equal.
  rewrite (compute_fields_meta _ sf) by reflexivity.
  rewrite appended_app, appended_cursor by assumption.
  rewrite !length_app, Hi, Hs, Hfm, <- !app_assoc. f_equal. lia.
Qed.

Lemma write_file_wave_run sf :
  type (info sf) = WAVE ->
  SoundFile.write_file sf =
  (Ok tt, with_audioOffset 44 (appended (wave_head sf) (at_byte 0 sf))).
Proof.
  intros Hty. rewrite write_file_unfold, wave_header_plain by assumption.
  destruct (header_write_run (mkChunk (tag "RIFF") (zeros 4) 0) (tag "WAVE")
              WAVE_fmt.make
              (mkWAVE_data (mkChunk (tag "data")
                 (of_u 4 (ByteFile.size (file sf) - audioOffset sf)) 0))
              (at_byte 0 sf)) as [h Hh];
    [cbn; lia | split; reflexivity | reflexivity | split; reflexivity |].
  rewrite (bind_ok _ _ _ _ _ Hh). reflexivity.
Qed.

Lemma appended_at_0 buf sf :
  appended buf (at_byte 0 sf) =
  with_file (ByteFile.mk (splice 0 buf (data_of sf)) (Z.of_nat (length buf))) sf.
Proof. reflexivity. Qed.

(** C4: [write_file] on a WAVE sound file stores 44 bytes from byte 0 on:
    the tags, the sixteen bytes of the format chunk computed from the sound
    file, and [size() - audioOffset] as the size of the data chunk; the
    size fields of the header and of the format chunk are stored as they
    were constructed, that is 0.  The cursor and [audioOffset] end at
    byte 44. *)
Theorem write_file_layout sf :
  type (info sf) = WAVE ->
  SoundFile.write_file sf =
  (Ok tt,
   mkSoundFile (ByteFile.mk (splice 0 (wave_head sf) (data_of sf)) 44)
               (info sf) 44 (sample_size sf)).
Proof.
  intros Hty. rewrite write_file_wave_run by assumption.
  rewrite appended_at_0, wave_head_length. reflexivity.
Qed.

(** C30: [write_file] on a sound file of type AIFF throws
    [UnsupportedContainerKind] and writes nothing: only the cursor has
    moved, to byte 0. *)
Theorem write_file_aiff sf :
  type (info sf) = AIFF ->
  SoundFile.write_file sf = (Throw UnsupportedContainerKind, at_byte 0 sf).
Proof.
  intros Hty. unfold SoundFile.write_file. unfold bind at 1.
  rewrite file_seek_at by lia. unfold bind, gets.
  cbn [info at_byte with_file]. now rewrite Hty.
Qed.

(** ** Reading what [write_file] has written *)

Section WriteThenRead.
Context {FC : FileCreator}.
Variables (sf reader : SoundFile).
Hypothesis Hty : type (info sf) = WAVE.
Hypothesis Hd : data_of reader = data_of (SoundFile.write_file sf).2.

Lemma written_data :
  data_of reader = tag "RIFF" ++ zeros 4 ++ tag "WAVE" ++
    (tag "fmt " ++ zeros 4 ++ fmt_image (WAVE_fmt.compute_fields sf WAVE_fmt.make) ++
     tag "data" ++ of_u 4 (ByteFile.size (file sf) - audioOffset sf)) ++
    drop 44 (data_of sf).
Proof.
  rewrite Hd, write_file_wave_run, appended_at_0 by assumption.
  cbn [snd data_of with_audioOffset with_file file ByteFile.data].
  rewrite splice_0, wave_head_length. unfold wave_head.
  now rewrite <- !app_assoc.
Qed.

(** C8: the header that [write_file] stores has the size 0, so a reader of
    the file finds no chunk in it: [read_file] succeeds, and the channel
    count, the sample rate and the payload offset of the reader are not
    those of the file but the ones the reader had. *)
Theorem write_then_read_finds_no_chunk :
  0 <= audioOffset reader ->
  SoundFile.read_file reader = (Ok tt, as_wave (at_byte (audioOffset reader) reader)).
Proof.
  intros Hao.
  rewrite (read_file_wave_children (mkChunk (tag "RIFF") (zeros 4) 0) []
             reader (at_byte 12 reader) eq_refl).
  - cbn [mapM]. now rewrite bind_assoc, !bind_ret_l, seek_0_at.
  - eapply header_read_no_children; [reflexivity .. | | apply written_data].
    now vm_compute.
Qed.

End WriteThenRead.

(** ** The start on an empty file *)

Lemma wave_head_meta sf1 sf2 :
  info sf1 = info sf2 -> sample_size sf1 = sample_size sf2 ->
  audioOffset sf1 = audioOffset sf2 ->
  ByteFile.size (file sf1) = ByteFile.size (file sf2) ->
  wave_head sf1 = wave_head sf2.
Proof.
  intros Hi Hs Ha Hz. unfold wave_head.
  now rewrite (compute_fields_meta sf1 sf2), Ha, Hz.
Qed.

(** C29: a sound file of type WAVE opened on an empty file, with
    [create_file] writing a fresh header: [read_file] succeeds, the file
    holds the 44 bytes of the header, the cursor and [audioOffset] are at
    byte 44, and [length] is 0. *)
Theorem read_file_new_file sf :
  type (info sf) = WAVE -> data_of sf = [] ->
  (_ <- SoundFile.read_file ;; SoundFile.length) sf =
  (Ok 0, mkSoundFile (ByteFile.mk (wave_head sf) 44) (info sf) 44 (sample_size sf)).
Proof.
  intros Hty Hd.
  set (sf0 := with_file (ByteFile.mk [] 0) (at_byte 12 sf)).
  assert (Hw : SoundFile.write_file sf0 =
               (Ok tt, with_audioOffset 44 (appended (wave_head sf) (at_byte 0 sf0)))).
  { rewrite write_file_wave_run by assumption. do 3 f_equal.
    apply wave_head_meta; try reflexivity.
    unfold ByteFile.size. fold (data_of sf). now rewrite Hd. }
  erewrite bind_ok.
  2:{ rewrite read_file_bootstrap by assumption.
      erewrite bind_ok by (unfold create_file, create_by_writing, bind, modify;
                           fold sf0; exact Hw).
      rewrite gets_bind.
      replace (type (info _)) with WAVE by (symmetry; exact Hty).
      rewrite bind_ret_l. apply seek_0_at. cbn. lia. }
  rewrite length_run, appended_at_0, wave_head_length.
  cbn [at_byte with_audioOffset with_file file audioOffset sample_size info
       ByteFile.data ByteFile.size data_of sf0].
  rewrite splice_0, drop_nil, app_nil_r, ?wave_head_length.
  rewrite Z.sub_diag. reflexivity.
Qed.

(** ** Concrete sound files *)

(** A sound file with two channels at 44100 Hz and samples of four bytes,
    over a file of 44 + 32 bytes, after its payload has been written. *)
Definition demo_written : SoundFile :=
  mkSoundFile (ByteFile.mk (zeros 76) 76) (mkInfo WAVE 2 44100) 44 4.

(** A sound file of type AIFF. *)
Definition demo_aiff : SoundFile :=
  mkSoundFile (ByteFile.mk [] 0) (mkInfo AIFF 2 44100) 0 4.

(** A reader of the file that [write_file] leaves. *)
Definition demo_reader : SoundFile :=
  demo_on (data_of (SoundFile.write_file demo_written).2).

Lemma write_file_layout_witness :
  SoundFile.write_file demo_written =
  (Ok tt,
   mkSoundFile (ByteFile.mk (splice 0 (wave_head demo_written) (data_of demo_written)) 44)
               (info demo_written) 44 (sample_size demo_written)) /\
  slice 4 4 (wave_head demo_written) = zeros 4 /\
  slice 16 4 (wave_head demo_written) = zeros 4 /\
  as_u (slice 40 4 (wave_head demo_written)) = 32.
Proof.
  split; [|now vm_compute].
  apply (write_file_layout demo_written). reflexivity.
Defined.

Lemma write_file_aiff_witness :
  SoundFile.write_file demo_aiff = (Throw UnsupportedContainerKind, at_byte 0 demo_aiff).
Proof. apply (write_file_aiff demo_aiff). reflexivity. Defined.

Lemma write_then_read_finds_no_chunk_witness :
  SoundFile.read_file demo_reader =
  (Ok tt, as_wave (at_byte (audioOffset demo_reader) demo_reader)) /\
  channels (info demo_written) = 2 /\
  channels (info (as_wave (at_byte (audioOffset demo_reader) demo_reader))) = 0.
Proof.
  split; [|now vm_compute].
  apply (write_then_read_finds_no_chunk demo_written demo_reader);
    [reflexivity | now vm_compute | now vm_compute].
Defined.

Lemma read_file_new_file_witness :
  (_ <- SoundFile.read_file ;; SoundFile.length) (demo_on []) =
  (Ok 0, mkSoundFile (ByteFile.mk (wave_head (demo_on [])) 44)
                     (info (demo_on [])) 44 (sample_size (demo_on []))).
Proof. apply (read_file_new_file (demo_on [])); reflexivity. Defined.
