(* ===== verification/Invariants.v ===== *)
(** * Invariants of the methods, whatever the file holds

    The theorems of [Reader] and [Writer] describe the codec on files that
    hold a container.  The theorems of this file hold on every file, well
    formed or not, and for every embedder: they say what [read_file] and
    [write_file] can never do.

    A relation [I] between the sound file before and after a method is
    kept by a method when it holds for every start state.  The relations
    of interest are preorders, so they are kept by [ret], by [throw], by
    [bind] and by the loops; a relation that the operations of the stream
    and the assignments to the members keep is therefore kept by every
    method that is built from them.  The classes [ReadStable] and
    [WriteStable] name the operations the two paths use; the class
    [HooksKeep] is what the embedder owes: the chunks its hooks hand to the
    codec have virtual methods that keep the relation.  The instances are:

    - [cursor_valid]: a cursor that is not negative stays so (every
      operation of the stream keeps it, so it says nothing of the codec; it
      is the side condition under which the chunks of an embedder are
      read);
    - [read_only]: the bytes of the file and [sample_size] do not change
      (kept by the read path only);
    - [description_kept]: [info] and [sample_size] do not change (kept by
      the write path only). *)

From Stdlib Require Import ZArith Lia List String Relations RelationClasses.
From stdpp Require Import base list.
From S2P Require Import Prelude Bytes Stream SoundState Chunk Wave SoundFile.
Import ListNotations.
Local Open Scope Z_scope.
Local Open Scope otto_scope.

(** The method [m] keeps the relation [I]: the state it leaves, after a
    return or after a throw, is related to the state it started from. *)
Definition keeps {A} (I : relation SoundFile) (m : SF A) : Prop :=
  forall sf, I sf (m sf).2.

(** The relations. *)
Definition cursor_valid : relation SoundFile :=
  fun sf sf' => ByteFile.wf (file sf) -> ByteFile.wf (file sf').

Definition read_only : relation SoundFile :=
  fun sf sf' => data_of sf' = data_of sf /\ sample_size sf' = sample_size sf.

Definition description_kept : relation SoundFile :=
  fun sf sf' => info sf' = info sf /\ sample_size sf' = sample_size sf.

(** What the read path does to the state. *)
Class ReadStable (I : relation SoundFile) : Prop := {
  read_stable_preorder :: PreOrder I;
  read_stable_seek : forall p, keeps I (file_seek p);
  read_stable_read : forall buf, keeps I (read_bytes buf);
  read_stable_info : forall i sf, I sf (with_info i sf);
  read_stable_offset : forall o sf, I sf (with_audioOffset o sf)
}.

(** What the write path does to the state. *)
Class WriteStable (I : relation SoundFile) : Prop := {
  write_stable_preorder :: PreOrder I;
  write_stable_seek : forall p, keeps I (file_seek p);
  write_stable_write : forall buf, keeps I (write_bytes buf);
  write_stable_offset : forall o sf, I sf (with_audioOffset o sf)
}.

(** The virtual methods of the chunk keep [I], whatever base subobject they
    are called on.  The chunk types of the codec are covered by
    [ReadStable] and [WriteStable]; the condition is on the chunk types of
    the embedder. *)
Definition reads_keep (I : relation SoundFile) (ch : AnyChunk) : Prop :=
  match ch with
  | Custom x => forall c, keeps I (custom_read_fields x c)
  | _ => True
  end.

Definition writes_keep (I : relation SoundFile) (ch : AnyChunk) : Prop :=
  match ch with
  | Custom x => forall c, keeps I (custom_write_fields x c)
  | _ => True
  end.

(** The hooks of the embedder hand out chunks that keep [I]. *)
Class HooksKeep (I : relation SoundFile) (CC : CustomChunks) : Prop := {
  replace_keeps : forall ch, reads_keep I ch -> reads_keep I (replace_custom_chunk ch);
  add_keeps : forall cs,
    Forall (writes_keep I) cs -> Forall (writes_keep I) (add_custom_chunks cs)
}.

(** A [create_file] that does nothing. *)
Definition quiet_creator : FileCreator := {| create_file := ret tt |}.

Create HintDb keeps discriminated.

(** ** Closure under the monad *)

Section Closure.
Context (I : relation SoundFile) (HI : PreOrder I).

Lemma keeps_ret {A} (a : A) : keeps I (ret a).
Proof. intros sf. reflexivity. Qed.

Lemma keeps_throw {A} e : keeps I (throw e : SF A).
Proof. intros sf. reflexivity. Qed.

Lemma keeps_gets {A} (f : SoundFile -> A) : keeps I (gets f).
Proof. intros sf. reflexivity. Qed.

Lemma keeps_get : keeps I get.
Proof. intros sf. reflexivity. Qed.

Lemma keeps_bind {A B} (m : SF A) (k : A -> SF B) :
  keeps I m -> (forall a, keeps I (k a)) -> keeps I (bind m k).
Proof.
  intros Hm Hk sf. unfold bind. specialize (Hm sf).
  destruct (m sf) as [[a|e] sf1]; [|exact Hm].
  etransitivity; [exact Hm | apply Hk].
Qed.

(** The continuation need only keep [I] on the values [m] returns. *)
Lemma keeps_bind_post {A B} (P : A -> Prop) (m : SF A) (k : A -> SF B) :
  keeps I m -> (forall sf a sf', m sf = (Ok a, sf') -> P a) ->
  (forall a, P a -> keeps I (k a)) -> keeps I (bind m k).
Proof.
  intros Hm HP Hk sf. unfold bind. specialize (Hm sf). specialize (HP sf).
  destruct (m sf) as [[a|e] sf1]; [|exact Hm].
  etransitivity; [exact Hm | apply Hk; eauto].
Qed.

Lemma keeps_mapM_Forall {A B} (f : A -> SF B) l :
  Forall (fun a => keeps I (f a)) l -> keeps I (mapM f l).
Proof.
  induction 1 as [|x l Hx _ IH]; cbn [mapM].
  - apply keeps_ret.
  - apply keeps_bind; [exact Hx|]. intros y.
    apply keeps_bind; [exact IH|]. intros ys. apply keeps_ret.
Qed.

Lemma keeps_mapM {A B} (f : A -> SF B) l :
  (forall a, keeps I (f a)) -> keeps I (mapM f l).
Proof. intros Hf. apply keeps_mapM_Forall, Forall_forall. auto. Qed.

Lemma keeps_if {A} (b : bool) (m1 m2 : SF A) :
  keeps I m1 -> keeps I m2 -> keeps I (if b then m1 else m2).
Proof. now destruct b. Qed.

Lemma keeps_modify (f : SoundFile -> SoundFile) :
  (forall sf, I sf (f sf)) -> keeps I (modify f).
Proof. intros Hf sf. apply Hf. Qed.

End Closure.

#[export] Hint Resolve keeps_ret keeps_throw keeps_gets keeps_get keeps_mapM
  keeps_if keeps_modify : keeps.

(** One step of a proof that a method keeps a relation. *)
Ltac keeps_bind_step := apply keeps_bind; [typeclasses eauto | | intros ?].

Ltac keeps_step :=
  first [ solve [eauto 3 with keeps typeclass_instances]
        | apply keeps_modify; intros;
          solve [ apply read_stable_info | apply read_stable_offset
                | apply write_stable_offset ]
        | apply keeps_if
        | keeps_bind_step ].

Ltac keeps_auto := repeat keeps_step.

(** ** The read path *)

Section ReadPath.
Context (I : relation SoundFile) `{!ReadStable I}.

#[local] Hint Resolve read_stable_seek read_stable_read : keeps.

Lemma keeps_file_position : keeps I file_position.
Proof. apply keeps_gets. typeclasses eauto. Qed.

#[local] Hint Resolve keeps_file_position : keeps.

(** [Chunk::read] keeps what the virtual [read_fields] of the object
    keeps. *)
Lemma keeps_chunk_read {T} `{ChunkLike T} (this : T) :
  (forall c, keeps I (read_fields (with_base c this))) -> keeps I (Chunk.read this).
Proof. intros Hf. unfold Chunk.read. keeps_auto. Qed.

Lemma keeps_plain_read (c : Chunk) : keeps I (Chunk.read c).
Proof. apply keeps_chunk_read. intros t. apply keeps_ret. typeclasses eauto. Qed.

#[local] Hint Resolve keeps_plain_read : keeps.

Lemma keeps_scan_chunks n o : keeps I (scan_chunks n o).
Proof. induction n as [|n IH]; cbn [scan_chunks]; keeps_auto. Qed.

#[local] Hint Resolve keeps_scan_chunks : keeps.

Lemma keeps_for_chunks_in_range i o : keeps I (for_chunks_in_range i o).
Proof. unfold for_chunks_in_range. keeps_auto. Qed.

#[local] Hint Resolve keeps_for_chunks_in_range : keeps.

Lemma keeps_header_read_fields h : keeps I (Header.read_fields h).
Proof. unfold Header.read_fields. keeps_auto. Qed.

Lemma keeps_fmt_read_fields w : keeps I (WAVE_fmt.read_fields w).
Proof. unfold WAVE_fmt.read_fields, WAVE_fmt.get_fields. keeps_auto. Qed.

Lemma keeps_data_read_fields d : keeps I (WAVE_data.read_fields d).
Proof. unfold WAVE_data.read_fields. keeps_auto. Qed.

#[local] Hint Resolve keeps_fmt_read_fields keeps_data_read_fields : keeps.

Lemma reads_keep_with_base c ch : reads_keep I ch -> reads_keep I (with_base c ch).
Proof. now destruct ch. Qed.

Lemma keeps_any_read_fields (ch : AnyChunk) :
  reads_keep I ch -> keeps I (read_fields ch).
Proof.
  destruct ch; cbn [read_fields AnyChunk_ChunkLike reads_keep]; intros Hx; keeps_auto.
Qed.

Lemma keeps_any_read (ch : AnyChunk) : reads_keep I ch -> keeps I (Chunk.read ch).
Proof.
  intros Hx. apply keeps_chunk_read. intros c.
  now apply keeps_any_read_fields, reads_keep_with_base.
Qed.

Lemma keeps_header_read (h : Header) : keeps I (Chunk.read h).
Proof. apply keeps_chunk_read. intros c. apply keeps_header_read_fields. Qed.

#[local] Hint Resolve keeps_any_read keeps_header_read : keeps.

Lemma reads_keep_promote ch : reads_keep I ch -> reads_keep I (SoundFile.promote ch).
Proof. intros Hx. unfold SoundFile.promote. repeat case_match; auto; exact Logic.I. Qed.

Context {CC : CustomChunks} `{!HooksKeep I CC}.

Lemma keeps_read_chunk ch : reads_keep I ch -> keeps I (SoundFile.read_chunk ch).
Proof.
  intros Hx. unfold SoundFile.read_chunk. cbv zeta.
  apply keeps_bind; [typeclasses eauto | auto with keeps | intros _].
  now apply keeps_any_read, replace_keeps, reads_keep_promote.
Qed.

(** The header that is read owns plain chunks only. *)
Lemma header_read_plain sf h sf' :
  Chunk.read Header.make sf = (Ok h, sf') -> Forall (reads_keep I) (chunks h).
Proof.
  unfold Chunk.read, bind, file_position, gets, read_bytes.
  cbn [read_fields with_base Header_ChunkLike]. unfold Header.read_fields, bind, read_bytes.
  destruct (for_chunks_in_range _ _ _) as [[found|e] s1]; [|discriminate].
  intros [= <- _]. cbn [chunks Header.make app].
  induction found; constructor; [exact Logic.I | assumption].
Qed.

Lemma keeps_seek p : keeps I (SoundFile.seek p).
Proof. unfold SoundFile.seek. keeps_auto. Qed.

#[local] Hint Resolve keeps_seek : keeps.

Lemma keeps_classify {FC : FileCreator} header :
  keeps I create_file -> keeps I (SoundFile.classify header).
Proof. intros Hc. unfold SoundFile.classify. keeps_auto. Qed.

#[local] Hint Resolve keeps_classify : keeps.

(** Every relation that the read path keeps is kept by [read_file], on
    every file and for every embedder whose [create_file] keeps it. *)
Lemma keeps_read_file {FC : FileCreator} :
  keeps I create_file -> keeps I SoundFile.read_file.
Proof.
  intros Hc. unfold SoundFile.read_file.
  apply keeps_bind; [typeclasses eauto | auto with keeps | intros _].
  apply (keeps_bind_post I _ (fun h => Forall (reads_keep I) (chunks h)));
    [auto with keeps | apply header_read_plain | intros header Hh].
  keeps_auto.
  match goal with ty : InfoType |- _ => destruct ty end; keeps_auto.
  apply keeps_mapM_Forall; [typeclasses eauto|].
  eapply Forall_impl; [exact Hh|]. apply keeps_read_chunk.
Qed.

End ReadPath.

(** ** The write path *)

Section WritePath.
Context (I : relation SoundFile) `{!WriteStable I}.

#[local] Hint Resolve write_stable_seek write_stable_write : keeps.

Lemma keeps_file_position_w : keeps I file_position.
Proof. apply keeps_gets. typeclasses eauto. Qed.

Lemma keeps_file_size_w : keeps I file_size.
Proof. apply keeps_gets. typeclasses eauto. Qed.

#[local] Hint Resolve keeps_file_position_w keeps_file_size_w : keeps.

(** [Chunk::write] keeps what the virtual [write_fields] keeps. *)
Lemma keeps_chunk_write {T} `{ChunkLike T} (this : T) :
  (forall c, keeps I (write_fields (with_base c this))) -> keeps I (Chunk.write this).
Proof. intros Hf. unfold Chunk.write. keeps_auto. Qed.

Lemma keeps_fmt_write_fields w : keeps I (WAVE_fmt.write_fields w).
Proof. unfold WAVE_fmt.write_fields, WAVE_fmt.put_fields. keeps_auto. Qed.

Lemma keeps_data_write_fields d : keeps I (WAVE_data.write_fields d).
Proof. unfold WAVE_data.write_fields. keeps_auto. Qed.

#[local] Hint Resolve keeps_fmt_write_fields keeps_data_write_fields : keeps.

Lemma writes_keep_with_base c ch : writes_keep I ch -> writes_keep I (with_base c ch).
Proof. now destruct ch. Qed.

Lemma keeps_any_write_fields (ch : AnyChunk) :
  writes_keep I ch -> keeps I (write_fields ch).
Proof.
  destruct ch; cbn [write_fields AnyChunk_ChunkLike writes_keep]; intros Hx; keeps_auto.
Qed.

Lemma keeps_any_write (ch : AnyChunk) : writes_keep I ch -> keeps I (Chunk.write ch).
Proof.
  intros Hx. apply keeps_chunk_write. intros c.
  now apply keeps_any_write_fields, writes_keep_with_base.
Qed.

Lemma keeps_header_write_fields h :
  Forall (writes_keep I) (chunks h) -> keeps I (Header.write_fields h).
Proof.
  intros Hh. unfold Header.write_fields. keeps_auto.
  apply keeps_mapM_Forall; [typeclasses eauto|].
  eapply Forall_impl; [exact Hh|]. apply keeps_any_write.
Qed.

Lemma keeps_header_write (h : Header) :
  Forall (writes_keep I) (chunks h) -> keeps I (Chunk.write h).
Proof. intros Hh. apply keeps_chunk_write. intros c. now apply keeps_header_write_fields. Qed.

Context {CC : CustomChunks} `{!HooksKeep I CC}.

(** The chunks of the header that [write_file] builds keep [I]. *)
Lemma wave_header_writes_keep sz ao :
  Forall (writes_keep I) (chunks (SoundFile.wave_header sz ao)).
Proof.
  unfold SoundFile.wave_header. cbv zeta. cbn [chunks Header.make app].
  apply Forall_app. split; [apply add_keeps|]; repeat constructor.
Qed.

(** Every relation that the write path keeps is kept by [write_file], for
    every embedder whose chunks keep it. *)
Lemma keeps_wave_header_write sz ao :
  keeps I (Chunk.write (SoundFile.wave_header sz ao)).
Proof. apply keeps_header_write, wave_header_writes_keep. Qed.

#[local] Hint Resolve keeps_wave_header_write : keeps.

Lemma keeps_write_file : keeps I SoundFile.write_file.
Proof.
  unfold SoundFile.write_file. keeps_auto.
  match goal with ty : InfoType |- _ => destruct ty end; keeps_auto.
Qed.

End WritePath.

(** ** The instances *)

#[export] Instance cursor_valid_preorder : PreOrder cursor_valid.
Proof. split; unfold cursor_valid; [intros sf H; exact H | intros a b c; tauto]. Qed.

#[export] Instance read_only_preorder : PreOrder read_only.
Proof.
  split; unfold read_only; [intros sf; auto | intros a b c [] []; split; congruence].
Qed.

#[export] Instance description_kept_preorder : PreOrder description_kept.
Proof.
  split; unfold description_kept;
    [intros sf; auto | intros a b c [] []; split; congruence].
Qed.

Lemma cursor_valid_seek p : keeps cursor_valid (file_seek p).
Proof. intros sf Hwf. now apply seek_wf. Qed.

Lemma cursor_valid_write_bytes buf : keeps cursor_valid (write_bytes buf).
Proof. intros sf Hwf. now apply write_bytes_wf. Qed.

#[export] Instance cursor_valid_write : WriteStable cursor_valid.
Proof.
  split; [typeclasses eauto | apply cursor_valid_seek | apply cursor_valid_write_bytes
         | now intros o sf].
Qed.

#[export] Instance read_only_read : ReadStable read_only.
Proof.
  split; [typeclasses eauto | | | now intros i sf | now intros o sf].
  - intros p sf. split; [apply seek_data | reflexivity].
  - intros buf sf. split; reflexivity.
Qed.

#[export] Instance description_kept_write : WriteStable description_kept.
Proof.
  split; [typeclasses eauto | | | now intros o sf]; intros x sf; split; reflexivity.
Qed.

(** The sound file that overrides nothing hands out no chunk of its own. *)
#[export] Instance no_custom_chunks_keep I : HooksKeep I no_custom_chunks.
Proof. split; auto. Qed.

(** ** The invariants *)

(** C10: [read_file] reads only: on every file, well formed or not, and for
    every embedder whose chunks and whose [create_file] write nothing,
    the bytes of the file and [sample_size] are the same after
    [read_file], whether it returns or throws. *)
Theorem read_file_reads_only {CC : CustomChunks} {FC : FileCreator} sf :
  HooksKeep read_only CC -> keeps read_only create_file ->
  data_of (SoundFile.read_file sf).2 = data_of sf /\
  sample_size (SoundFile.read_file sf).2 = sample_size sf.
Proof. intros HK Hc. now apply (keeps_read_file read_only). Qed.

(** C11: [write_file] keeps the description of the stream: whatever the
    file holds, and for every embedder whose chunks keep the description
    and the cursor, [info] and [sample_size] are the same after
    [write_file], and a cursor that is not negative stays so. *)
Theorem write_file_keeps_description {CC : CustomChunks} sf :
  HooksKeep description_kept CC -> HooksKeep cursor_valid CC ->
  info (SoundFile.write_file sf).2 = info sf /\
  sample_size (SoundFile.write_file sf).2 = sample_size sf /\
  cursor_valid sf (SoundFile.write_file sf).2.
Proof.
  intros HK1 HK2. destruct (keeps_write_file description_kept sf) as [Hi Hs].
  repeat split; auto. apply (keeps_write_file cursor_valid).
Qed.

(** ** Concrete instances *)

Lemma keeps_create_by_writing (I : relation SoundFile) `{!WriteStable I}
    {CC : CustomChunks} `{!HooksKeep I CC} :
  (forall f sf, I sf (with_file f sf)) ->
  keeps I (create_file (FileCreator := create_by_writing)).
Proof.
  intros Hf. cbn [create_file create_by_writing].
  apply keeps_bind; [typeclasses eauto | now apply keeps_modify |].
  intros _. now apply keeps_write_file.
Qed.

Definition demo_garbage : SoundFile :=
  mkSoundFile (ByteFile.mk (tag "RIFF" ++ of_u 4 7 ++ tag "WAVE" ++ tag "fmt ") 3)
              (mkInfo WAVE 0 0) 0 4.

Lemma read_file_reads_only_witness :
  data_of (SoundFile.read_file (FC := quiet_creator) demo_garbage).2 =
    data_of demo_garbage /\
  sample_size (SoundFile.read_file (FC := quiet_creator) demo_garbage).2 =
    sample_size demo_garbage.
Proof.
  apply (read_file_reads_only (FC := quiet_creator) demo_garbage);
    [typeclasses eauto | apply keeps_ret; typeclasses eauto].
Defined.

Lemma write_file_keeps_description_witness :
  info (SoundFile.write_file (CC := no_custom_chunks) demo_garbage).2 = info demo_garbage /\
  sample_size (SoundFile.write_file (CC := no_custom_chunks) demo_garbage).2 =
    sample_size demo_garbage /\
  cursor_valid demo_garbage (SoundFile.write_file (CC := no_custom_chunks) demo_garbage).2.
Proof.
  apply (write_file_keeps_description (CC := no_custom_chunks) demo_garbage);
    typeclasses eauto.
Defined.
