(* ===== verification/Hooks.v ===== *)
(** * The hooks of the embedder

    [SoundFile] has three virtual functions for the code that embeds the
    codec.  [replace_custom_chunk] is called in the loop of [read_file] on
    every child of the header, after the codec has given the chunks it
    knows their types, and may give the chunk a type of the embedder;
    [add_custom_chunks] is called by [write_file] between the format chunk
    and the data chunk and may add chunks to the header.

    The codec calls the hooks on the chunks it knows as well, so what
    [read_file] computes depends on the embedder.  [LawfulHooks] is the
    contract under which it does not: the embedder leaves the format chunk
    and the data chunk alone, keeps the base subobject of the other
    chunks, and gives them types whose [read_fields] returns and moves
    nothing but the cursor.  The theorems of this file are proved against
    that contract and hold for every embedder that meets it:

    - [read_file] computes the same result and the same description of
      the stream as it does without hooks, on every file;
    - hence the refinement of the chunk-level specification, proved in
      [Reader] for the sound file that overrides nothing, holds for every
      lawful embedder.

    An embedder that does not meet the contract can switch the codec off.
    [OverridingHooks] is the other extreme: the hook gives every chunk,
    the format chunk and the data chunk included, a type that is read
    quietly.  Under it [read_file] succeeds on every WAVE container and
    takes nothing from the file, whatever encoding and bit depth the
    format chunk announces ([read_file_hooks_override]).

    The hooks of this model are functions on chunks.  The virtual
    functions of the sources are members of [SoundFile] and could assign
    to the object as well; an embedder that does is outside both
    contracts. *)

From Stdlib Require Import ZArith Lia List String Relations RelationClasses Morphisms.
From stdpp Require Import base list.
From coqutil Require Import Byte.
From S2P Require Import Prelude Bytes Stream SoundState Chunk Scan Wave SoundFile.
From S2P Require Import Children Reader.
Import ListNotations.
Local Open Scope Z_scope.
Local Open Scope otto_scope.

(** ** Sound files that differ in the cursor only *)

Definition same_but_cursor : relation SoundFile :=
  fun a b => data_of a = data_of b /\ meta a = meta b.

#[export] Instance same_but_cursor_equiv : Equivalence same_but_cursor.
Proof.
  split.
  - intros a. split; reflexivity.
  - intros a b [Hd Hm]. split; congruence.
  - intros a b c [Hd Hm] [Hd' Hm']. split; congruence.
Qed.

(** Setting the cursor makes such files equal. *)
#[export] Instance at_byte_proper p : Proper (same_but_cursor ==> eq) (at_byte p).
Proof.
  intros [[d c] i ao ss] [[d' c'] i' ao' ss'] [Hd Hm].
  cbv in Hd, Hm. injection Hm as -> -> ->. subst d'. reflexivity.
Qed.

#[export] Instance audioOffset_proper : Proper (same_but_cursor ==> eq) audioOffset.
Proof. intros a b [_ Hm]. unfold meta in Hm. congruence. Qed.

Lemma same_but_cursor_at_byte p sf : same_but_cursor (at_byte p sf) sf.
Proof. split; reflexivity. Qed.

(** The outcomes of two runs agree: the results are the same, the states
    differ in the cursor at most, and not at all after a throw. *)
Definition agree {A} (r1 r2 : result Error A * SoundFile) : Prop :=
  r1.1 = r2.1 /\ same_but_cursor r1.2 r2.2 /\
  (forall e, r2.1 = Throw e -> r1.2 = r2.2).

#[export] Instance agree_refl {A} : Reflexive (@agree A).
Proof. intros r. repeat split; reflexivity. Qed.

(** They agree, and are the same when the payload offset they end with is
    a byte of the file. *)
Definition agree_exactly {A} (r1 r2 : result Error A * SoundFile) : Prop :=
  agree r1 r2 /\ (0 <= audioOffset r2.2 -> r1 = r2).

#[export] Instance agree_exactly_refl {A} : Reflexive (@agree_exactly A).
Proof. intros r. split; reflexivity. Qed.

(** Two runs that agree so far go on to related outcomes when their
    continuations give related outcomes from states that differ in the
    cursor only. *)
Lemma bind_related {A B} (R : relation (result Error B * SoundFile)) `{!Reflexive R}
    (m1 m2 : SF A) (k1 k2 : A -> SF B) sA sB :
  agree (m1 sA) (m2 sB) ->
  (forall a s1 s2, same_but_cursor s1 s2 -> R (k1 a s1) (k2 a s2)) ->
  R (bind m1 k1 sA) (bind m2 k2 sB).
Proof.
  intros (Hr & Hs & Ht) Hk. unfold bind.
  destruct (m1 sA) as [[a|e] s1], (m2 sB) as [[a'|e'] s2]; cbn [fst snd] in *;
    try discriminate; injection Hr as ->; [now apply Hk|].
  now rewrite (Ht _ eq_refl).
Qed.

(** The same for two runs that are one run so far. *)
Lemma bind_related_same {A B} (R : relation (result Error B * SoundFile)) `{!Reflexive R}
    (m : SF A) (k1 k2 : A -> SF B) s :
  (forall a s', m s = (Ok a, s') -> R (k1 a s') (k2 a s')) ->
  R (bind m k1 s) (bind m k2 s).
Proof. intros Hk. unfold bind. destruct (m s) as [[a|e] s']; [auto | reflexivity]. Qed.

(** ** The contract *)

(** A method that returns, and moves nothing but the cursor. *)
Definition quiet {A} (m : SF A) : Prop :=
  forall sf, ByteFile.wf (file sf) ->
    exists a sf', m sf = (Ok a, sf') /\ same_but_cursor sf' sf.

(** A chunk that is read without an effect on the sound file: a plain
    chunk, or a chunk of the embedder whose [read_fields] is quiet. *)
Definition reads_quietly (ch : AnyChunk) : Prop :=
  match ch with
  | Plain _ => True
  | Custom x => forall c, quiet (custom_read_fields x c)
  | Fmt _ | Data _ => False
  end.

Class LawfulHooks (CC : CustomChunks) : Prop := {
  replace_fmt : forall w, replace_custom_chunk (Fmt w) = Fmt w;
  replace_data : forall d, replace_custom_chunk (Data d) = Data d;
  replace_base : forall c, base (replace_custom_chunk (Plain c)) = c;
  replace_quiet : forall c, reads_quietly (replace_custom_chunk (Plain c))
}.

#[export] Instance no_custom_chunks_lawful : LawfulHooks no_custom_chunks.
Proof. split; intros; try reflexivity; exact I. Qed.

(** ** One round of the loop of [read_file] *)

(** The type the codec gives a chunk depends on its tag only. *)
Lemma promote_cases c :
  SoundFile.promote (Plain c) = Fmt (WAVE_fmt.of_chunk c) \/
  SoundFile.promote (Plain c) = Data (WAVE_data.of_chunk c) \/
  SoundFile.promote (Plain c) = Plain c.
Proof.
  destruct (decide (id c = tag "fmt ")) as [Hf|Hf]; [left; now apply promote_fmt|].
  destruct (decide (id c = tag "data")) as [Hd|Hd];
    [right; left; now apply promote_data | right; right; now apply promote_other].
Qed.

(** The round starts at the offset of the chunk, wherever the cursor was. *)
Lemma read_chunk_start {CC : CustomChunks} ch sf :
  0 <= offset (base (replace_custom_chunk (SoundFile.promote ch))) ->
  SoundFile.read_chunk ch sf =
  Chunk.read (replace_custom_chunk (SoundFile.promote ch))
    (at_byte (offset (base (replace_custom_chunk (SoundFile.promote ch)))) sf).
Proof.
  intros H. unfold SoundFile.read_chunk. cbv zeta. unfold bind, Chunk.beginning.
  now rewrite file_seek_at.
Qed.

(** Reading a chunk that is read quietly returns, with the cursor moved. *)
Lemma read_quietly ch sf :
  reads_quietly ch -> Chunk.wf (base ch) -> ByteFile.wf (file sf) ->
  exists ch' sf', Chunk.read ch sf = (Ok ch', sf') /\ same_but_cursor sf' sf.
Proof.
  intros Hq Hwf Hsf. rewrite chunk_read_run by assumption.
  destruct ch as [c| | |x]; try contradiction;
    cbn [read_fields with_base base AnyChunk_ChunkLike].
  - eexists _, _. split; [reflexivity | apply same_but_cursor_at_byte].
  - cbn [custom_read_fields custom_chunk].
    destruct (Hq (head_at sf (custom_chunk x)) (at_byte (cursor_of sf + 8) sf))
      as (a & sf' & E & Hs);
      [unfold ByteFile.wf, at_byte, cursor_of in *; cbn [file with_file ByteFile.cursor]; lia|].
    unfold bind. rewrite E. eexists _, _. split; [reflexivity|].
    etransitivity; [exact Hs | apply same_but_cursor_at_byte].
Qed.

Section Lawful.
Context {CC : CustomChunks} `{!LawfulHooks CC}.

(** One round with the hooks of the embedder and one without. *)
Lemma read_chunk_lawful c sfA sfB :
  placed c -> same_but_cursor sfA sfB ->
  agree ((_ <- @SoundFile.read_chunk CC (Plain c) ;; ret tt) sfA)
        ((_ <- @SoundFile.read_chunk no_custom_chunks (Plain c) ;; ret tt) sfB).
Proof.
  intros [Hwf Hoff] Hs. unfold bind.
  destruct (promote_cases c) as [E|[E|E]].
  1,2: rewrite !read_chunk_start; cbn [replace_custom_chunk no_custom_chunks];
       rewrite E, ?replace_fmt, ?replace_data; cbn [base AnyChunk_ChunkLike
         WAVE_fmt.of_chunk WAVE_data.of_chunk fmt_chunk data_chunk]; auto;
       rewrite (at_byte_proper _ _ _ Hs); reflexivity.
  rewrite !read_chunk_start; cbn [replace_custom_chunk no_custom_chunks];
    rewrite E, ?replace_base; cbn [base AnyChunk_ChunkLike]; auto.
  rewrite (at_byte_proper _ _ _ Hs).
  destruct (read_quietly (replace_custom_chunk (Plain c)) (at_byte (offset c) sfB))
    as (ch1 & s1 & -> & H1); [apply replace_quiet | now rewrite replace_base | exact Hoff |].
  destruct (read_quietly (Plain c) (at_byte (offset c) sfB))
    as (ch2 & s2 & -> & H2); [exact I | exact Hwf | exact Hoff |].
  unfold ret. split; [reflexivity|]. split; [cbn [snd]; now rewrite H1, H2 | discriminate].
Qed.

(** The loop with the hooks of the embedder and the loop without. *)
Lemma read_chunks_lawful cs : forall sfA sfB,
  Forall placed cs -> same_but_cursor sfA sfB ->
  agree ((_ <- mapM (@SoundFile.read_chunk CC) (map Plain cs) ;; ret tt) sfA)
        ((_ <- mapM (@SoundFile.read_chunk no_custom_chunks) (map Plain cs) ;; ret tt) sfB).
Proof.
  induction cs as [|c cs IH]; intros sfA sfB Hp Hs.
  - split; [reflexivity|]. split; [exact Hs | discriminate].
  - apply Forall_cons in Hp as [Hc Hp]. cbn [map]. rewrite !mapM_cons_tt.
    apply bind_related; [typeclasses eauto | now apply read_chunk_lawful |].
    intros _ s1 s2 Hs'. now apply IH.
Qed.

(** The move to sample 0 that ends [read_file]. *)
Lemma seek_0_agree sA sB :
  same_but_cursor sA sB ->
  agree_exactly ((_ <- SoundFile.seek 0 ;; ret tt) sA) ((_ <- SoundFile.seek 0 ;; ret tt) sB).
Proof.
  intros Hs. unfold agree_exactly, agree, bind, ret. rewrite !seek_run. cbn [fst snd].
  split; [split; [reflexivity | split; [|discriminate]]|].
  - destruct Hs as [Hd Hm]. split; [|exact Hm].
    unfold data_of in *. cbn [file with_file]. now rewrite !seek_data.
  - cbn [audioOffset with_file]. intros Hao. f_equal.
    unfold byte_of_sample. rewrite <- (audioOffset_proper _ _ Hs), !Z.mul_0_l, !Z.add_0_r.
    rewrite !seek_reaches by (rewrite ?(audioOffset_proper _ _ Hs); assumption).
    apply (at_byte_proper _ _ _ Hs).
Qed.

(** [read_file] with the hooks of the embedder and without. *)
Lemma read_file_lawful_run {FC : FileCreator} sf :
  agree_exactly (@SoundFile.read_file CC FC sf)
                (@SoundFile.read_file no_custom_chunks FC sf).
Proof.
  unfold SoundFile.read_file.
  apply bind_related_same; [typeclasses eauto | intros p0 s0 H0].
  rewrite file_seek_at in H0 by lia. injection H0 as _ <-.
  apply bind_related_same; [typeclasses eauto | intros header s1 Hh].
  apply header_read_placed in Hh as (cs & Hcs & Hp).
  apply bind_related_same; [typeclasses eauto | intros [] s2 _].
  apply bind_related_same; [typeclasses eauto | intros ty s3 _].
  apply bind_related; [typeclasses eauto | | intros _ sA sB; apply seek_0_agree].
  destruct ty; [|reflexivity]. rewrite Hcs. now apply read_chunks_lawful.
Qed.

End Lawful.

(** ** [read_file] under a lawful embedder *)

(** C12: a lawful embedder does not change what [read_file] computes: on
    every file, with the hooks of an embedder that meets [LawfulHooks],
    [read_file] returns or throws as it does without hooks, and leaves the
    same bytes and the same description of the stream; the two states are
    the same altogether when the payload offset is a byte of the file. *)
Theorem read_file_lawful_hooks {CC : CustomChunks} {FC : FileCreator} sf :
  LawfulHooks CC ->
  agree_exactly (@SoundFile.read_file CC FC sf)
                (@SoundFile.read_file no_custom_chunks FC sf).
Proof. intros HL. apply read_file_lawful_run. Qed.

(** C13: the refinement holds for every lawful embedder: on a RIFF/WAVE
    container with well-formed children, and from a payload offset that is
    a byte of the file, [read_file] with the hooks of a lawful embedder is
    the chunk-level specification [absorb_all] over the children followed
    by the move to sample 0, whatever chunk types the embedder gives the
    chunks the codec does not know. *)
Theorem read_file_refines_under_hooks {CC : CustomChunks} {FC : FileCreator}
    rs rest sf :
  LawfulHooks CC -> wave_ok rs -> data_of sf = wave_image rs ++ rest ->
  0 <= audioOffset sf ->
  @SoundFile.read_file CC FC sf =
  (_ <- absorb_all 12 rs ;; _ <- SoundFile.seek 0 ;; ret tt)
    (as_wave (at_byte (riff_end rs) sf)).
Proof.
  intros HL Hok Hd Hao.
  rewrite <- (read_file_wave_ok rs rest sf Hok Hd).
  apply read_file_lawful_run. rewrite (read_file_wave_ok rs rest sf Hok Hd).
  unfold bind. pose proof (absorb_all_offset rs 12 (as_wave (at_byte (riff_end rs) sf))
                             ltac:(lia) Hao) as H.
  destruct (absorb_all _ _ _) as [[[]|e] s1]; [|exact H].
  rewrite seek_run. exact H.
Qed.

(** ** An embedder that takes every chunk *)

(** The hook gives every chunk a type that is read quietly, and keeps its
    base subobject. *)
Class OverridingHooks (CC : CustomChunks) : Prop := {
  override_base : forall ch, base (replace_custom_chunk ch) = base ch;
  override_quiet : forall ch, reads_quietly (replace_custom_chunk ch)
}.

(** The codec keeps the base subobject of the chunks it gives a type. *)
Lemma promote_base c : base (SoundFile.promote (Plain c)) = c.
Proof. destruct (promote_cases c) as [E|[E|E]]; now rewrite E. Qed.

Section Override.
Context {CC : CustomChunks} `{!OverridingHooks CC}.

(** One round of the loop: the chunk is read as the type of the embedder,
    whatever its tag. *)
Lemma read_chunk_override c sf :
  placed c ->
  exists sf', (_ <- SoundFile.read_chunk (Plain c) ;; ret tt) sf = (Ok tt, sf') /\
              same_but_cursor sf' sf.
Proof.
  intros [Hwf Hoff]. unfold bind.
  rewrite read_chunk_start; rewrite override_base, promote_base; [|exact Hoff].
  destruct (read_quietly (replace_custom_chunk (SoundFile.promote (Plain c)))
              (at_byte (offset c) sf)) as (ch' & sf' & -> & Hs);
    [apply override_quiet | now rewrite override_base, promote_base | exact Hoff |].
  exists sf'. split; [reflexivity|]. now rewrite Hs, same_but_cursor_at_byte.
Qed.

Lemma read_chunks_override cs : forall sf,
  Forall placed cs ->
  exists sf', (_ <- mapM SoundFile.read_chunk (map Plain cs) ;; ret tt) sf = (Ok tt, sf') /\
              same_but_cursor sf' sf.
Proof.
  induction cs as [|c cs IH]; intros sf Hp.
  - exists sf. split; reflexivity.
  - apply Forall_cons in Hp as [Hc Hp]. cbn [map]. rewrite mapM_cons_tt.
    destruct (read_chunk_override c sf Hc) as (s1 & E1 & H1).
    destruct (IH s1 Hp) as (s2 & E2 & H2).
    exists s2. rewrite (bind_ok _ _ _ _ _ E1). split; [exact E2 | now rewrite H2].
Qed.

Lemma read_file_override_run {FC : FileCreator} rs rest sf :
  wave_ok rs -> data_of sf = wave_image rs ++ rest -> 0 <= audioOffset sf ->
  SoundFile.read_file sf = (Ok tt, as_wave (at_byte (audioOffset sf) sf)).
Proof.
  intros [Hok _ Hsz] Hd Hao.
  pose proof (header_read_riff (tag "RIFF") (tag "WAVE") rs rest sf
                eq_refl eq_refl Hok Hsz Hd) as Hh.
  rewrite (read_file_wave_children (mkChunk (tag "RIFF") _ 0) _ sf _ eq_refl Hh).
  destruct (header_read_placed _ _ _ Hh) as (cs & Hcs & Hp). cbn [chunks] in Hcs.
  rewrite Hcs.
  destruct (read_chunks_override cs (as_wave (at_byte (riff_end rs) sf)) Hp)
    as (s1 & E & Hs).
  rewrite (bind_ok _ _ _ _ _ E), seek_0_at by now rewrite (audioOffset_proper _ _ Hs).
  now rewrite (audioOffset_proper _ _ Hs), (at_byte_proper _ _ _ Hs).
Qed.

End Override.

(** C19: the embedder has the last word on every chunk, those of the codec
    included: with a hook that gives every chunk a type that is read
    quietly, [read_file] on a RIFF/WAVE container with well-formed
    children succeeds whatever the format chunk announces, marks the file
    as WAVE, and takes neither the channel count nor the rate nor the
    payload offset from the file; the cursor ends at the payload offset
    the sound file had. *)
Theorem read_file_hooks_override {CC : CustomChunks} {FC : FileCreator} rs rest sf :
  OverridingHooks CC ->
  wave_ok rs -> data_of sf = wave_image rs ++ rest -> 0 <= audioOffset sf ->
  @SoundFile.read_file CC FC sf = (Ok tt, as_wave (at_byte (audioOffset sf) sf)).
Proof. intros HO. apply read_file_override_run. Qed.

(** ** An embedder with a chunk type of its own *)

(** A chunk whose [read_fields] reads the payload into a buffer of the
    size the head announces. *)
Definition payload_reader (c : Chunk) : CustomChunk :=
  mkCustomChunk c
    (fun this => _ <- read_bytes (zeros (Z.to_nat (as_u (size this)))) ;; ret tt)
    (fun this => ret tt).

(** The embedder that reads the chunks tagged ["LIST"]. *)
Definition list_reader : CustomChunks := {|
  replace_custom_chunk ch :=
    match ch with
    | Plain c => if tag_eqb (id c) "LIST" then Custom (payload_reader c) else ch
    | _ => ch
    end;
  add_custom_chunks cs := cs
|}.

#[export] Instance list_reader_lawful : LawfulHooks list_reader.
Proof.
  split; intros; cbn [replace_custom_chunk list_reader]; try reflexivity;
    destruct (tag_eqb _ _); try reflexivity; try exact I.
  intros this sf _. eexists _, _. split; [reflexivity|]. split; reflexivity.
Qed.

(** An embedder that takes every chunk for a plain one. *)
Definition chunk_hider : CustomChunks := {|
  replace_custom_chunk ch := Plain (base ch);
  add_custom_chunks cs := cs
|}.

#[export] Instance chunk_hider_overrides : OverridingHooks chunk_hider.
Proof. split; intros ch; [reflexivity | exact I]. Qed.

(** A WAVE file with a ["LIST"] chunk between the format chunk and the
    data chunk. *)
Definition demo_list : list raw :=
  [fmt_chunk_of (demo_block_of 3 32); mkRaw (tag "LIST") (zeros 6);
   data_chunk_of (zeros 32)].

Lemma demo_list_ok : wave_ok demo_list.
Proof.
  split; [repeat constructor | repeat constructor; try discriminate; intros _; cbn; lia
         | now vm_compute].
Qed.

Lemma read_file_lawful_hooks_witness :
  agree_exactly (@SoundFile.read_file list_reader _ (demo_on (wave_image demo_list)))
                (@SoundFile.read_file no_custom_chunks _ (demo_on (wave_image demo_list))) /\
  cursor_of (@SoundFile.read_chunk list_reader (Plain (mkChunk (tag "LIST") (of_u 4 6) 36))
               (demo_on (wave_image demo_list))).2 = 50 /\
  cursor_of (@SoundFile.read_chunk no_custom_chunks (Plain (mkChunk (tag "LIST") (of_u 4 6) 36))
               (demo_on (wave_image demo_list))).2 = 44.
Proof.
  split; [|now vm_compute].
  apply (read_file_lawful_hooks (CC := list_reader) (demo_on (wave_image demo_list))).
  typeclasses eauto.
Defined.

Lemma read_file_refines_under_hooks_witness :
  @SoundFile.read_file list_reader _ (demo_on (wave_image demo_list)) =
  (_ <- absorb_all 12 demo_list ;; _ <- SoundFile.seek 0 ;; ret tt)
    (as_wave (at_byte (riff_end demo_list) (demo_on (wave_image demo_list)))).
Proof.
  apply (read_file_refines_under_hooks (CC := list_reader) demo_list []
           (demo_on (wave_image demo_list)));
    [typeclasses eauto | apply demo_list_ok | now vm_compute | now vm_compute].
Defined.

(** The file is one that [read_file] refuses when nothing is overridden:
    its format chunk announces PCM samples of 16 bits. *)
Lemma read_file_hooks_override_witness :
  @SoundFile.read_file chunk_hider _ (demo_wave_of 1 16) =
    (Ok tt, as_wave (at_byte (audioOffset (demo_wave_of 1 16)) (demo_wave_of 1 16))) /\
  (@SoundFile.read_file no_custom_chunks _ (demo_wave_of 1 16)).1 =
    Throw UnsupportedEncoding /\
  fmt_channels (demo_block_of 1 16) = 2 /\
  channels (info (@SoundFile.read_file chunk_hider _ (demo_wave_of 1 16)).2) = 0.
Proof.
  split; [|now vm_compute].
  apply (read_file_hooks_override (CC := chunk_hider) (demo_children_of 1 16) []
           (demo_wave_of 1 16));
    [typeclasses eauto | apply demo_children_ok | now vm_compute | now vm_compute].
Defined.
