(* ===== verification/WriterHooks.v ===== *)
(** * [write_file] with the chunks of the embedder

    [write_file] calls [add_custom_chunks] on the vector that holds the
    format chunk, and appends the data chunk to what the hook returns.
    The contract of this file is for an embedder that appends chunks of
    its own, each with a [write_fields] that stores a block of bytes at the
    cursor ([stores]).  Under it the layout of the written header is
    known: the 36 bytes up to the end of the format chunk, the blocks of
    the embedder, and the head of the data chunk, which lies after them;
    [audioOffset] becomes the byte after that head.

    The size that [write_file] gives the data chunk is computed before
    anything is written, from the payload offset the sound file had, and
    the bytes behind the header stay where they are.  A header that is
    longer than the one the file had therefore lies over the first bytes
    of the payload, and the payload offset moves past them: in the layout
    of [write_file_with_chunks] the new offset is 44 plus the length of
    the blocks of the embedder, whatever the offset was. *)

From Stdlib Require Import ZArith Lia List String.
From stdpp Require Import base list.
From coqutil Require Import Byte.
From S2P Require Import Prelude Bytes Stream SoundState Chunk Scan Wave SoundFile.
From S2P Require Import Children Reader Writer Hooks.
Import ListNotations.
Local Open Scope Z_scope.
Local Open Scope otto_scope.

(** ** Chunks that store a block *)

(** The chunk is a chunk of the embedder whose [write_fields] writes
    [payload] at the cursor. *)
Definition stores (ch : AnyChunk) (payload : bytes) : Prop :=
  Chunk.wf (base ch) /\
  match ch with
  | Custom x => forall c sf, custom_write_fields x c sf = write_bytes payload sf
  | _ => False
  end.

(** The bytes such a chunk puts into the file: its head and the payload. *)
Definition stored_image (ch : AnyChunk) (payload : bytes) : bytes :=
  id (base ch) ++ size (base ch) ++ payload.

Fixpoint stored_images (chs : list AnyChunk) (ps : list bytes) : bytes :=
  match chs, ps with
  | ch :: chs', p :: ps' => stored_image ch p ++ stored_images chs' ps'
  | _, _ => []
  end.

(** The bytes that [write_file] stores when the embedder adds the blocks
    [blocks]. *)
Definition wave_head_with (blocks : bytes) (sf : SoundFile) : bytes :=
  tag "RIFF" ++ zeros 4 ++ tag "WAVE" ++
  tag "fmt " ++ zeros 4 ++ fmt_image (WAVE_fmt.compute_fields sf WAVE_fmt.make) ++
  blocks ++
  tag "data" ++ of_u 4 (ByteFile.size (file sf) - audioOffset sf).

Lemma wave_head_with_nil sf : wave_head_with [] sf = wave_head sf.
Proof. reflexivity. Qed.

Lemma wave_head_with_length blocks sf :
  length (wave_head_with blocks sf) = (44 + length blocks)%nat.
Proof.
  unfold wave_head_with.
  rewrite !length_app, fmt_image_length by apply compute_fields_wf.
  autorewrite with otto_rw. cbn [String.length]. rewrite ?length_zeros, ?length_of_u. lia.
Qed.

Section Stored.
Variable sf : SoundFile.
Hypothesis Hc : 0 <= cursor_of sf.

(** Writing a chunk that stores a block appends its image. *)
Lemma write_stored ch payload pre :
  stores ch payload ->
  exists ch',
    Chunk.write ch (appended pre sf) = (Ok ch', appended (pre ++ stored_image ch payload) sf).
Proof.
  intros [[Hi Hs] Hst]. destruct ch as [| | |x]; try contradiction.
  rewrite chunk_write_run by (rewrite appended_cursor; lia).
  cbn [write_fields with_base base AnyChunk_ChunkLike custom_write_fields custom_chunk].
  unfold bind. rewrite Hst, write_bytes_appended. eexists. unfold ret. f_equal.
  rewrite !appended_app by (rewrite ?appended_cursor; lia).
  unfold stored_image. cbn [base AnyChunk_ChunkLike]. now rewrite <- !app_assoc.
Qed.

(** Writing the chunks of the embedder appends their images in order. *)
Lemma write_stored_all chs : forall ps pre,
  Forall2 stores chs ps ->
  exists chs',
    mapM Chunk.write chs (appended pre sf) =
    (Ok chs', appended (pre ++ stored_images chs ps) sf).
Proof.
  induction chs as [|ch chs IH]; intros ps pre H; inversion H as [|? p ? ps' Hch Hrest]; subst.
  - exists []. cbn. now rewrite app_nil_r.
  - destruct (write_stored ch p pre Hch) as [ch' E].
    destruct (IH ps' (pre ++ stored_image ch p) Hrest) as [chs' E'].
    exists (ch' :: chs'). cbn [mapM stored_images].
    rewrite (bind_ok _ _ _ _ _ E), (bind_ok _ _ _ _ _ E'). unfold ret.
    now rewrite <- app_assoc.
Qed.

End Stored.

(** ** The header with the chunks of the embedder *)

Section WithChunks.
Context {CC : CustomChunks}.
Variables (extras : list AnyChunk) (payloads : list bytes).
Hypothesis Hadd : forall cs, add_custom_chunks cs = cs ++ extras.
Hypothesis Hst : Forall2 stores extras payloads.

Let blocks : bytes := stored_images extras payloads.

Lemma wave_header_with sz ao :
  SoundFile.wave_header sz ao =
  mkHeader (mkChunk (tag "RIFF") (zeros 4) 0) (tag "WAVE")
    ([Fmt WAVE_fmt.make] ++ extras ++
     [Data (mkWAVE_data (mkChunk (tag "data") (of_u 4 (sz - ao)) 0))]).
Proof.
  unfold SoundFile.wave_header. cbv zeta. rewrite Hadd. reflexivity.
Qed.

(** The children of the header, written after the bytes [pre]. *)
Lemma write_children_with d pre sf :
  0 <= cursor_of sf ->
  exists cs,
    mapM Chunk.write ([Fmt WAVE_fmt.make] ++ extras ++ [Data d]) (appended pre sf) =
    (Ok cs,
     with_audioOffset (cursor_of sf + Z.of_nat (length pre) + 32 + Z.of_nat (length blocks))
       (appended (pre ++ tag "fmt " ++ zeros 4 ++
                  fmt_image (WAVE_fmt.compute_fields sf WAVE_fmt.make) ++ blocks ++
                  id (data_chunk d) ++ size (data_chunk d)) sf)).
Proof.
  intros Hc. set (img := fmt_image _).
  assert (Himg : length img = 16%nat) by apply fmt_image_length, compute_fields_wf.
  destruct (write_stored_all sf Hc extras payloads
              (pre ++ tag "fmt " ++ zeros 4 ++ img) Hst) as [chs' E].
  eexists. rewrite mapM_app. cbn [mapM].
  erewrite bind_ok.
  2:{ erewrite bind_ok by (apply write_fmt_chunk; rewrite appended_cursor; lia).
      rewrite bind_ret_l. unfold ret. rewrite appended_app by assumption.
      rewrite (compute_fields_meta _ sf) by reflexivity. reflexivity. }
  erewrite bind_ok.
  2:{ rewrite mapM_app. cbn [mapM]. fold img. erewrite bind_ok by exact E.
      erewrite bind_ok.
      2:{ erewrite bind_ok by (apply write_data_chunk; rewrite appended_cursor; lia).
          rewrite bind_ret_l. reflexivity. }
      reflexivity. }
  unfold ret. f_equal.
  rewrite appended_app, appended_cursor by assumption. fold blocks img.
  rewrite !length_app, Himg, <- !app_assoc.
  rewrite ?length_zeros, ?tag_length. cbn [String.length].
  f_equal. lia.
Qed.

Lemma write_file_with_run sf :
  type (info sf) = WAVE ->
  SoundFile.write_file sf =
  (Ok tt, with_audioOffset (44 + Z.of_nat (length blocks))
            (appended (wave_head_with blocks sf) (at_byte 0 sf))).
Proof.
  intros Hty. rewrite write_file_unfold, wave_header_with by assumption.
  destruct (write_children_with
              (mkWAVE_data (mkChunk (tag "data")
                 (of_u 4 (ByteFile.size (file sf) - audioOffset sf)) 0))
              ((tag "RIFF" ++ zeros 4) ++ tag "WAVE") (at_byte 0 sf)) as [cs E];
    [cbn; lia|].
  rewrite (compute_fields_meta _ sf) in E by reflexivity.
  erewrite bind_ok.
  2:{ rewrite chunk_write_run by (cbn; lia).
      cbn [write_fields with_base base Header_ChunkLike header_chunk id size].
      unfold Header.write_fields. cbn [format chunks header_chunk].
      erewrite bind_ok by apply write_bytes_appended.
      rewrite appended_app by (cbn; lia).
      erewrite bind_ok by exact E. reflexivity. }
  unfold ret, wave_head_with. fold blocks.
  rewrite <- !app_assoc. reflexivity.
Qed.

End WithChunks.

(** C14: the layout of the header when the embedder adds chunks: with a
    hook that appends chunks of its own, each storing a block at the
    cursor, [write_file] on a WAVE sound file stores the 36 bytes up to the
    end of the format chunk, the heads and blocks of the added chunks in
    order, and the head of the data chunk; the cursor and [audioOffset]
    end at the byte after that head, and the size of the data chunk is
    [size() - audioOffset] of the sound file before the write. *)
Theorem write_file_with_chunks {CC : CustomChunks} extras payloads sf :
  (forall cs, add_custom_chunks cs = cs ++ extras) ->
  Forall2 stores extras payloads ->
  type (info sf) = WAVE ->
  SoundFile.write_file sf =
  (Ok tt,
   mkSoundFile
     (ByteFile.mk (splice 0 (wave_head_with (stored_images extras payloads) sf) (data_of sf))
                  (44 + Z.of_nat (length (stored_images extras payloads))))
     (info sf) (44 + Z.of_nat (length (stored_images extras payloads))) (sample_size sf)).
Proof.
  intros Hadd Hst Hty. rewrite (write_file_with_run extras payloads) by assumption.
  rewrite appended_at_0, wave_head_with_length.
  unfold with_audioOffset, with_file. cbn [file info audioOffset sample_size].
  do 3 f_equal. lia.
Qed.

(** ** Concrete embedders and files *)

(** A chunk of the embedder that stores six bytes under the tag ["cue "]. *)
Definition cue_chunk : CustomChunk :=
  mkCustomChunk (mkChunk (tag "cue ") (of_u 4 6) 0)
                (fun _ => ret tt) (fun _ => write_bytes (zeros 6)).

(** The embedder that adds it to every header. *)
Definition cue_writer : CustomChunks := {|
  replace_custom_chunk ch := ch;
  add_custom_chunks cs := cs ++ [Custom cue_chunk]
|}.

Lemma cue_chunk_stores : Forall2 stores [Custom cue_chunk] [zeros 6].
Proof. repeat constructor. Qed.

Lemma write_file_with_chunks_witness :
  @SoundFile.write_file cue_writer demo_written =
  (Ok tt,
   mkSoundFile
     (ByteFile.mk (splice 0 (wave_head_with (stored_images [Custom cue_chunk] [zeros 6])
                                            demo_written)
                          (data_of demo_written))
                  (44 + Z.of_nat (length (stored_images [Custom cue_chunk] [zeros 6]))))
     (info demo_written)
     (44 + Z.of_nat (length (stored_images [Custom cue_chunk] [zeros 6])))
     (sample_size demo_written)) /\
  44 + Z.of_nat (length (stored_images [Custom cue_chunk] [zeros 6])) = 58.
Proof.
  split; [|reflexivity].
  apply (write_file_with_chunks (CC := cue_writer) [Custom cue_chunk] [zeros 6] demo_written);
    [reflexivity | apply cue_chunk_stores | reflexivity].
Defined.
