(* ===== verification/RoundTrip.v ===== *)
(** * The header with its sizes set: writing and reading back

    [write_file] leaves the size of the header and the size of the format
    chunk as the constructors set them, so a reader finds no chunk in what
    it writes ([Writer]).  This file shows that nothing else is missing:
    the header that [write_file] builds, with the three size fields set to
    the lengths they describe ([sized_header]), is written by the same
    [Header::write], [WAVE_fmt::write_fields] and [WAVE_data::write_fields]
    as a well-formed WAVE container, and [read_file] reads back from it the
    channel count and the sample rate of the writer and the payload offset
    the writer ended with. *)

From Stdlib Require Import ZArith Lia List String.
From stdpp Require Import base list.
From coqutil Require Import Byte.
From S2P Require Import Prelude Bytes Stream SoundState Chunk Scan Wave SoundFile.
From S2P Require Import Children Reader Writer.
Import ListNotations.
Local Open Scope Z_scope.
Local Open Scope otto_scope.

(** The header of [write_file] for a payload of [n] bytes, with the sizes
    of the container, of the format chunk and of the data chunk set. *)
Definition sized_header (n : Z) : Header :=
  mkHeader (mkChunk (tag "RIFF") (of_u 4 (36 + n)) 0) (tag "WAVE")
    [Fmt (WAVE_fmt.with_chunk (mkChunk (tag "fmt ") (of_u 4 16) 0) WAVE_fmt.make);
     Data (mkWAVE_data (mkChunk (tag "data") (of_u 4 n) 0))].

(** The 44 bytes it is written as, for the sound file [sf]. *)
Definition sized_head (sf : SoundFile) (n : Z) : bytes :=
  tag "RIFF" ++ of_u 4 (36 + n) ++ tag "WAVE" ++
  tag "fmt " ++ of_u 4 16 ++ fmt_image (WAVE_fmt.compute_fields sf WAVE_fmt.make) ++
  tag "data" ++ of_u 4 n.

(** The format block that the sound file [sf] stores. *)
Definition fmt_block (sf : SoundFile) : bytes :=
  fmt_image (WAVE_fmt.compute_fields sf WAVE_fmt.make).

Lemma sized_head_length sf n : length (sized_head sf n) = 44%nat.
Proof.
  unfold sized_head.
  rewrite !length_app, fmt_image_length by apply compute_fields_wf.
  now autorewrite with otto_rw.
Qed.

(** Written at byte 0, the header stores its 44 bytes and sets the payload
    offset to the byte after them. *)
Lemma sized_header_write sf n :
  exists h,
    Chunk.write (sized_header n) (at_byte 0 sf) =
    (Ok h, with_audioOffset 44 (appended (sized_head sf n) (at_byte 0 sf))).
Proof.
  destruct (header_write_run (mkChunk (tag "RIFF") (of_u 4 (36 + n)) 0) (tag "WAVE")
              (WAVE_fmt.with_chunk (mkChunk (tag "fmt ") (of_u 4 16) 0) WAVE_fmt.make)
              (mkWAVE_data (mkChunk (tag "data") (of_u 4 n) 0)) (at_byte 0 sf))
    as [h Hh];
    [cbn; lia | split; [reflexivity | apply length_of_u] | reflexivity
    | split; [reflexivity | apply length_of_u] |].
  exists h. unfold sized_header. rewrite Hh. reflexivity.
Qed.

(** The 44 bytes followed by the payload are a WAVE container with a
    format chunk and a data chunk. *)
Lemma sized_head_image sf payload :
  sized_head sf (Z.of_nat (length payload)) ++ payload =
  wave_image [fmt_chunk_of (fmt_block sf); data_chunk_of payload].
Proof.
  unfold sized_head, wave_image, riff, images, fmt_block. cbn [map concat].
  unfold raw_image, raw_size. cbn [raw_id raw_payload fmt_chunk_of data_chunk_of].
  rewrite !length_app, fmt_image_length by apply compute_fields_wf.
  rewrite ?length_of_u, ?tag_length. cbn [String.length length].
  rewrite <- !app_assoc, app_nil_r. do 2 f_equal. f_equal. lia.
Qed.

(** The fields of a format block are the fields it was made from. *)
Lemma fmt_image_fields w :
  fmt_wf w ->
  fmt_encoding (fmt_image w) = as_u (audioFormat w) /\
  fmt_channels (fmt_image w) = as_u (numChannels w) /\
  fmt_rate (fmt_image w) = as_u (sampleRate w) /\
  fmt_bits (fmt_image w) = as_u (bitsPerSample w).
Proof.
  intros Hw. pose proof (fmt_parse_image w Hw) as H.
  repeat split;
    [change (fmt_encoding (fmt_image w))
       with (as_u (audioFormat (fmt_parse (fmt_chunk w) (fmt_image w))))
    |change (fmt_channels (fmt_image w))
       with (as_u (numChannels (fmt_parse (fmt_chunk w) (fmt_image w))))
    |change (fmt_rate (fmt_image w))
       with (as_u (sampleRate (fmt_parse (fmt_chunk w) (fmt_image w))))
    |change (fmt_bits (fmt_image w))
       with (as_u (bitsPerSample (fmt_parse (fmt_chunk w) (fmt_image w))))];
    now rewrite H.
Qed.

Section RoundTrip.
Context {FC : FileCreator}.
Variables (writer reader : SoundFile) (payload : bytes).
Hypothesis Hss : sample_size writer = 4.
Hypothesis Hch : 0 <= channels (info writer) < 2 ^ 16.
Hypothesis Hsr : 0 <= samplerate (info writer) < 2 ^ 32.
Hypothesis Hlen : 36 + Z.of_nat (length payload) < 2 ^ 32.
Hypothesis Hfile : drop 44 (data_of writer) = payload.

Let n : Z := Z.of_nat (length payload).
Let written : SoundFile := (Chunk.write (sized_header n) (at_byte 0 writer)).2.

(** The file after the write: the 44 bytes and the payload. *)
Lemma written_file :
  data_of written = wave_image [fmt_chunk_of (fmt_block writer); data_chunk_of payload] /\
  audioOffset written = 44.
Proof.
  unfold written, n. destruct (sized_header_write writer (Z.of_nat (length payload))) as [h ->].
  rewrite appended_at_0. cbn [snd data_of with_audioOffset with_file file ByteFile.data
    audioOffset].
  split; [|reflexivity].
  now rewrite splice_0, sized_head_length, Hfile, sized_head_image.
Qed.

Lemma written_ok : wave_ok [fmt_chunk_of (fmt_block writer); data_chunk_of payload].
Proof.
  assert (Hb : length (fmt_block writer) = 16%nat)
    by apply fmt_image_length, compute_fields_wf.
  split.
  - repeat constructor; unfold raw_size; cbn [raw_payload fmt_chunk_of data_chunk_of];
      rewrite ?Hb; lia.
  - repeat constructor; try discriminate; intros _; cbn [raw_payload fmt_chunk_of]; lia.
  - unfold riff, raw_size, images, raw_image. cbn [map concat raw_id raw_payload
      fmt_chunk_of data_chunk_of].
    rewrite !length_app, Hb, ?length_of_u, ?tag_length. cbn [String.length length]. lia.
Qed.

Lemma sized_round_trip_run :
  data_of reader = data_of written ->
  SoundFile.read_file reader =
  (Ok tt, mkSoundFile (ByteFile.mk (data_of reader) (audioOffset written))
                      (mkInfo WAVE (channels (info writer)) (samplerate (info writer)))
                      (audioOffset written) (sample_size reader)).
Proof.
  intros Hd. destruct written_file as [Hw ->]. rewrite Hw in Hd.
  destruct (fmt_image_fields _ (compute_fields_wf writer WAVE_fmt.make))
    as (He & Hc & Hr & Hb).
  fold (fmt_block writer) in He, Hc, Hr, Hb.
  rewrite (read_file_canonical_run (fmt_block writer) payload [] reader written_ok).
  - rewrite Hc, Hr. cbn [numChannels sampleRate WAVE_fmt.compute_fields].
    rewrite !as_u_of_u_small by assumption.
    unfold fmt_block. rewrite fmt_image_length by apply compute_fields_wf. reflexivity.
  - now rewrite app_nil_r.
  - rewrite He. cbn [audioFormat WAVE_fmt.compute_fields].
    apply as_u_of_u_small. change (2 ^ (8 * Z.of_nat 2)) with 65536. lia.
  - rewrite Hb. cbn [bitsPerSample WAVE_fmt.compute_fields]. rewrite Hss.
    apply as_u_of_u_small. change (2 ^ (8 * Z.of_nat 2)) with 65536. lia.
Qed.

End RoundTrip.

(** C15: round trip of the header: a sound file whose payload lies from
    byte 44 on writes [sized_header], the header of [write_file] with the
    three sizes set, through [Header::write]; [read_file] on the file that
    results succeeds, takes the channel count and the sample rate of the
    writer, and sets the payload offset to the one the writer ended with,
    byte 44, whatever description the reader held before. *)
Theorem sized_header_round_trip {FC : FileCreator} writer reader payload :
  sample_size writer = 4 ->
  0 <= channels (info writer) < 2 ^ 16 -> 0 <= samplerate (info writer) < 2 ^ 32 ->
  36 + Z.of_nat (length payload) < 2 ^ 32 ->
  drop 44 (data_of writer) = payload ->
  let written :=
    (Chunk.write (sized_header (Z.of_nat (length payload))) (at_byte 0 writer)).2 in
  data_of reader = data_of written ->
  audioOffset written = 44 /\
  SoundFile.read_file reader =
  (Ok tt, mkSoundFile (ByteFile.mk (data_of reader) 44)
                      (mkInfo WAVE (channels (info writer)) (samplerate (info writer)))
                      44 (sample_size reader)).
Proof.
  intros Hss Hch Hsr Hlen Hfile written Hd.
  destruct (written_file writer payload Hfile) as [_ Hao]. split; [exact Hao|].
  rewrite <- Hao. now apply sized_round_trip_run.
Qed.

Lemma sized_header_round_trip_witness :
  (audioOffset (Chunk.write (sized_header 32) (at_byte 0 demo_written)).2 = 44 /\
   SoundFile.read_file
     (demo_on (data_of (Chunk.write (sized_header 32) (at_byte 0 demo_written)).2)) =
   (Ok tt,
    mkSoundFile
      (ByteFile.mk
         (data_of (demo_on (data_of (Chunk.write (sized_header 32)
                                       (at_byte 0 demo_written)).2))) 44)
      (mkInfo WAVE (channels (info demo_written)) (samplerate (info demo_written)))
      44 4)) /\
  channels (info demo_written) = 2 /\ samplerate (info demo_written) = 44100.
Proof.
  split; [|now vm_compute].
  apply (sized_header_round_trip demo_written
           (demo_on (data_of (Chunk.write (sized_header 32) (at_byte 0 demo_written)).2))
           (zeros 32)); now vm_compute.
Defined.
