(* ===== verification/Session.v ===== *)
(** * Sessions: the methods of the sound file in any order

    An embedder holds one [SoundFile] and calls its methods in the order
    it likes: [read_file], [write_file], [seek], [position], [length].  A
    method that throws leaves the object as it was at the throw, and the
    embedder may catch the exception and go on.  This file is the
    transition system of such an object: a state is the sound file, a
    step is one call with what it returned or threw ([step]), a session
    is a sequence of steps ([session]).  The function [run] executes a
    list of calls; it and the relation describe the same sessions.

    The calls, the replies and the labels are the notation of this file
    for what an embedder does with the object; the sources have no type
    for them.

    The theorems are proved by induction on the session:
    - in a session that does not call [write_file] the bytes of the file
      never change ([reading_session_reads_only]);
    - on a WAVE file with a format chunk and a data chunk, every
      [read_file] of a session without [write_file] returns, and leaves
      the same description of the stream, however many times it is called
      and whatever is called in between ([read_file_repeatable]). *)

From Stdlib Require Import ZArith Lia List String Relations RelationClasses.
From stdpp Require Import base list.
From S2P Require Import Prelude Bytes Stream SoundState Chunk Scan Wave SoundFile.
From S2P Require Import Children Reader Writer Invariants.
Import ListNotations.
Local Open Scope Z_scope.
Local Open Scope otto_scope.

(** ** The transition system *)

(** The public methods of [SoundFile]. *)
Inductive Call : Type :=
| ReadFile
| WriteFile
| Seek (p : Z)
| Position
| Length.

#[export] Instance Call_eq_dec : EqDecision Call.
Proof. solve_decision. Defined.

(** What a method returns: nothing, or a sample index. *)
Inductive Reply : Type :=
| Done
| Index (p : Z).

(** What the embedder sees of a call: the call and its outcome. *)
Definition Label : Type := Call * result Error Reply.

Section Session.
Context {CC : CustomChunks} {FC : FileCreator}.

(** The method behind a call. *)
Definition call (c : Call) : SF Reply :=
  match c with
  | ReadFile => _ <- SoundFile.read_file ;; ret Done
  | WriteFile => _ <- SoundFile.write_file ;; ret Done
  | Seek p => r <- SoundFile.seek p ;; ret (Index r)
  | Position => r <- SoundFile.position ;; ret (Index r)
  | Length => r <- SoundFile.length ;; ret (Index r)
  end.

(** One call on the object. *)
Inductive step : SoundFile -> Label -> SoundFile -> Prop :=
| step_call c sf : step sf (c, (call c sf).1) (call c sf).2.

(** A sequence of calls, each on the state the one before left. *)
Inductive session : SoundFile -> list Label -> SoundFile -> Prop :=
| session_nil sf : session sf [] sf
| session_cons sf l sf1 tr sf2 :
    step sf l sf1 -> session sf1 tr sf2 -> session sf (l :: tr) sf2.

(** The same, as a function of the calls. *)
Fixpoint run (cs : list Call) (sf : SoundFile) : list Label * SoundFile :=
  match cs with
  | [] => ([], sf)
  | c :: cs =>
      let r := call c sf in
      let rest := run cs r.2 in
      ((c, r.1) :: rest.1, rest.2)
  end.

(** ** The function and the relation *)

Lemma run_session cs : forall sf, session sf (run cs sf).1 (run cs sf).2.
Proof.
  induction cs as [|c cs IH]; intros sf; cbn [run fst snd]; econstructor;
    [constructor | apply IH].
Qed.

Lemma session_run sf tr sf' : session sf tr sf' -> run (map fst tr) sf = (tr, sf').
Proof.
  induction 1 as [sf|sf l sf1 tr sf2 Hstep _ IH]; [reflexivity|].
  destruct Hstep as [c sf]. cbn [map fst run]. now rewrite IH.
Qed.

(** The object is deterministic: the calls determine the session. *)
Lemma session_deterministic sf tr1 sf1 tr2 sf2 :
  session sf tr1 sf1 -> session sf tr2 sf2 -> map fst tr1 = map fst tr2 ->
  tr1 = tr2 /\ sf1 = sf2.
Proof.
  intros H1%session_run H2%session_run E. rewrite E, H2 in H1. now inversion H1.
Qed.

Lemma session_app sf tr1 sf1 tr2 sf2 :
  session sf tr1 sf1 -> session sf1 tr2 sf2 -> session sf (tr1 ++ tr2) sf2.
Proof. induction 1; cbn [app]; [auto | econstructor; eauto]. Qed.

End Session.

(** ** Sessions that only read *)

(** The state a method leaves does not depend on what is made of its
    result. *)
Lemma bind_ret_state {A B} (m : SF A) (f : A -> B) sf :
  ((x <- m ;; ret (f x)) sf).2 = (m sf).2.
Proof. unfold bind, ret. now destruct (m sf) as [[a|e] s]. Qed.

Lemma bind_ret_result {A B} (m : SF A) (f : A -> B) sf a s :
  m sf = (Ok a, s) -> ((x <- m ;; ret (f x)) sf).1 = Ok (f a).
Proof. unfold bind, ret. now intros ->. Qed.

(** A session without [write_file]. *)
Definition reading (tr : list Label) : Prop := Forall (fun l => l.1 <> WriteFile) tr.

Section Reading.
Context (I : relation SoundFile) `{!ReadStable I}.
Context {CC : CustomChunks} `{!HooksKeep I CC} {FC : FileCreator}.
Hypothesis Hcreate : keeps I create_file.

#[local] Hint Resolve keeps_file_position keeps_seek keeps_read_file : keeps.

Lemma reading_call_keeps c : c <> WriteFile -> keeps I (call c).
Proof.
  destruct c; cbn [call]; intros Hc; try contradiction; keeps_auto.
Qed.

Lemma reading_session_keeps sf tr sf' : session sf tr sf' -> reading tr -> I sf sf'.
Proof.
  induction 1 as [sf|sf l sf1 tr sf2 Hstep _ IH]; intros Hr; [reflexivity|].
  apply Forall_cons in Hr as [Hl Hr]. destruct Hstep as [c sf]. cbn [fst] in Hl.
  etransitivity; [exact (reading_call_keeps c Hl sf) | now apply IH].
Qed.

End Reading.

(** A session that does not call [write_file] does not write: the
    bytes of the file after it are the bytes before it, whatever is read
    and whatever throws, for every embedder whose chunks and whose
    [create_file] write nothing. *)
Theorem reading_session_reads_only {CC : CustomChunks} {FC : FileCreator} sf tr sf' :
  HooksKeep read_only CC -> keeps read_only create_file ->
  session sf tr sf' -> reading tr ->
  data_of sf' = data_of sf.
Proof.
  intros HK Hc Hs Hr. now apply (reading_session_keeps read_only Hc sf tr sf' Hs Hr).
Qed.

(** ** Reading again *)

Section Repeatable.
Context {FC : FileCreator}.
Variables (blk payload rest : bytes).
Hypothesis Hok : wave_ok [fmt_chunk_of blk; data_chunk_of payload].
Hypothesis He : fmt_encoding blk = 3.
Hypothesis Hb : fmt_bits blk = 32.

(** The bytes of the file. *)
Let image : bytes := wave_image [fmt_chunk_of blk; data_chunk_of payload] ++ rest.

(** The description [read_file] takes from them. *)
Definition described (sf : SoundFile) : Prop :=
  info sf = mkInfo WAVE (fmt_channels blk) (fmt_rate blk) /\
  audioOffset sf = 28 + Z.of_nat (length blk).

(** One call of a reading session on the file. *)
Lemma reading_step sf c :
  data_of sf = image -> c <> WriteFile ->
  data_of (call c sf).2 = image /\
  (c = ReadFile -> (call c sf).1 = Ok Done /\ described (call c sf).2) /\
  (c <> ReadFile -> meta (call c sf).2 = meta sf).
Proof.
  intros Hd Hc. destruct c; try contradiction; cbn [call].
  - pose proof (read_file_canonical_run blk payload rest sf Hok Hd He Hb) as Hrun.
    rewrite bind_ret_state, (bind_ret_result _ _ _ _ _ Hrun), Hrun.
    split; [exact Hd | split; [intros _; repeat split | contradiction]].
  - rewrite bind_ret_state. unfold data_of. rewrite seek_data_unchanged.
    split; [exact Hd | split; [discriminate | intros _; apply seek_meta]].
  - rewrite bind_ret_state. unfold data_of. rewrite position_data_unchanged.
    split; [exact Hd | split; [discriminate | intros _; apply position_meta]].
  - rewrite bind_ret_state. split; [exact Hd | split; [discriminate | reflexivity]].
Qed.

Lemma described_meta sf sf' : meta sf' = meta sf -> described sf -> described sf'.
Proof. unfold meta, described. intros [= -> -> _]. auto. Qed.

Lemma repeatable_run sf tr sf' :
  session sf tr sf' -> data_of sf = image -> reading tr ->
  data_of sf' = image /\
  Forall (fun l => l.1 = ReadFile -> l.2 = Ok Done) tr /\
  (described sf \/ Exists (fun l => l.1 = ReadFile) tr -> described sf').
Proof.
  induction 1 as [sf|sf l sf1 tr sf2 Hstep _ IH]; intros Hd Hr.
  - split; [assumption | split; [constructor|]].
    intros [H|H]; [assumption | now apply Exists_nil in H].
  - apply Forall_cons in Hr as [Hl Hr]. destruct Hstep as [c sf]. cbn [fst snd] in *.
    destruct (reading_step sf c Hd Hl) as (Hd1 & Hread & Hmeta).
    destruct (IH Hd1 Hr) as (Hd2 & Hall & Hdesc).
    split; [assumption | split; [constructor; [apply Hread | assumption]|]].
    intros Hbefore. apply Hdesc.
    destruct (decide (c = ReadFile)) as [Hc|Hc]; [left; now apply Hread|].
    destruct Hbefore as [H|H%Exists_cons].
    + left. eapply described_meta; [now apply Hmeta | assumption].
    + destruct H as [H|H]; [contradiction | now right].
Qed.

End Repeatable.

(** C18: [read_file] can be repeated: on a WAVE file with a format chunk
    of 32-bit float samples and a data chunk, in a session that does not
    call [write_file], every [read_file] returns, however many times it is
    called and whatever [seek], [position] and [length] are called in
    between; the bytes of the file are unchanged at the end, and once
    [read_file] has been called the sound file holds the channel count
    and the rate of the format chunk and the offset of the payload. *)
Theorem read_file_repeatable {FC : FileCreator} blk payload rest sf tr sf' :
  wave_ok [fmt_chunk_of blk; data_chunk_of payload] ->
  fmt_encoding blk = 3 -> fmt_bits blk = 32 ->
  data_of sf = wave_image [fmt_chunk_of blk; data_chunk_of payload] ++ rest ->
  session sf tr sf' -> reading tr ->
  data_of sf' = data_of sf /\
  Forall (fun l => l.1 = ReadFile -> l.2 = Ok Done) tr /\
  (Exists (fun l => l.1 = ReadFile) tr -> described blk sf').
Proof.
  intros Hok He Hb Hd Hs Hr.
  destruct (repeatable_run blk payload rest Hok He Hb sf tr sf' Hs Hd Hr) as (H1 & H2 & H3).
  rewrite Hd. auto.
Qed.

(** ** Concrete sessions *)

Lemma run_calls {CC : CustomChunks} {FC : FileCreator} cs :
  forall sf, map fst (run cs sf).1 = cs.
Proof. induction cs as [|c cs IH]; intros sf; cbn [run map fst]; [|rewrite IH]; easy. Qed.

Lemma run_reading {CC : CustomChunks} {FC : FileCreator} cs :
  forall sf, Forall (fun c => c <> WriteFile) cs -> reading (run cs sf).1.
Proof.
  induction cs as [|c cs IH]; intros sf H; cbn [run fst]; [constructor|].
  apply Forall_cons in H as [H1 H2]. constructor; [exact H1 | apply IH, H2].
Qed.

(** Every method once, and [read_file] again after [write_file]. *)
Definition demo_calls : list Call :=
  [ReadFile; Seek 3; Position; WriteFile; Length; ReadFile].

(** Reads and moves only. *)
Definition demo_reads : list Call :=
  [ReadFile; Seek 2; Position; ReadFile; Length; Seek (-1); ReadFile].

Lemma reading_session_reads_only_witness :
  data_of (run (FC := quiet_creator) demo_reads demo_garbage).2 = data_of demo_garbage.
Proof.
  apply (reading_session_reads_only (FC := quiet_creator) demo_garbage
           (run (FC := quiet_creator) demo_reads demo_garbage).1);
    [typeclasses eauto | apply keeps_ret; typeclasses eauto | apply run_session
    | apply run_reading; repeat constructor; discriminate].
Defined.

Lemma read_file_repeatable_witness :
  data_of (run (FC := quiet_creator) demo_reads (demo_wave_of 3 32)).2 =
    data_of (demo_wave_of 3 32) /\
  Forall (fun l => l.1 = ReadFile -> l.2 = Ok Done)
         (run (FC := quiet_creator) demo_reads (demo_wave_of 3 32)).1 /\
  (Exists (fun l => l.1 = ReadFile)
          (run (FC := quiet_creator) demo_reads (demo_wave_of 3 32)).1 ->
   described (demo_block_of 3 32)
             (run (FC := quiet_creator) demo_reads (demo_wave_of 3 32)).2).
Proof.
  apply (read_file_repeatable (FC := quiet_creator) (demo_block_of 3 32) (zeros 32) []
           (demo_wave_of 3 32));
    [apply demo_children_ok | now vm_compute | now vm_compute | now vm_compute
    | apply run_session | apply run_reading; repeat constructor; discriminate].
Defined.

(** After [write_file] the same file is read as a container without
    chunks: the second [read_file] of [demo_calls] returns and leaves the
    description that the first one took. *)
Example session_read_after_write :
  map snd (run (FC := quiet_creator) demo_calls (demo_wave_of 3 32)).1 =
    [Ok Done; Ok (Index 3); Ok (Index 3); Ok Done; Ok (Index 8); Ok Done] /\
  audioOffset (run (FC := quiet_creator) demo_calls (demo_wave_of 3 32)).2 = 44.
Proof. now vm_compute. Qed.
