(* ===== verification/Pingpong.v ===== *)
(** * The screen of the ping-pong delay

    [PingpongScreen] of pingpong.cpp handles the events of the user
    interface for the delay effect: a rotary event steps the property of
    its colour ([delaytime], [feedback], [tone] or [spread]), a click on
    one of the four encoders toggles [bpm_follow], any other key is left
    to the caller.  [Pingpong::process] hands the audio to the DSP engine.

    The property class and the DSP engine are not among the sources: a
    property is any type with a [step] (class [Steppable]), the engine any
    type with a [run] (class [Engine]).  The theorems say what each
    handler changes and what it leaves alone, for every property type.

    [PingpongScreen::draw] is in [Draw]. *)

From Stdlib Require Import ZArith Lia Bool String.
From stdpp Require Import base decidable vector.
From S2P Require Import Prelude.
Local Open Scope Z_scope.

(** [ui::Rotary]: the four encoders. *)
Inductive Rotary : Type := Blue | Green | White | Red.

#[export] Instance Rotary_eq_dec : EqDecision Rotary.
Proof. solve_decision. Defined.

(** [ui::RotaryEvent]. *)
Record RotaryEvent : Type := mkRotaryEvent {
  rotary_of : Rotary;
  clicks : Z
}.

(** [ui::Key]: the four clicks the screen handles, and the other keys. *)
Inductive Key : Type :=
| blue_click
| green_click
| white_click
| red_click
| other_key (code : nat).

(** A property that can be stepped by a number of clicks. *)
Class Steppable (P : Type) : Type := {
  step : Z -> P -> P
}.

(** The DSP engine behind [process]. *)
Class Engine (D Frame : Type) : Type := {
  run : D -> Frame -> Frame * D
}.

(** The properties of the engine that the screen touches: the four
    parameters, the switch, and the levels of the twenty delay lines. *)
Record Props (P : Type) : Type := mkProps {
  delaytime : P;
  feedback : P;
  tone : P;
  spread : P;
  bpm_follow : bool;
  delay_level : vec P 20
}.

Arguments mkProps {P}.
Arguments delaytime {P}.
Arguments feedback {P}.
Arguments tone {P}.
Arguments spread {P}.
Arguments bpm_follow {P}.
Arguments delay_level {P}.

(** The effect engine: the name it registers with, its properties, and the
    DSP engine.  The screen is constructed with a pointer to the engine it
    belongs to: its handlers act on [effect_props]. *)
Record Effect (D P : Type) : Type := mkEffect {
  effect_name : string;
  effect_props : Props P;
  faust_ : D
}.

Arguments mkEffect {D P}.
Arguments effect_name {D P}.
Arguments effect_props {D P}.
Arguments faust_ {D P}.

Module Pingpong.

(** [Pingpong::Pingpong()], from the properties and the DSP engine as
    their constructors leave them. *)
Definition make {D P} (props : Props P) (faust : D) : Effect D P :=
  mkEffect "PingPong"%string props faust.

(** [Pingpong::process]: the DSP engine processes the audio; the name and
    the properties are not touched. *)
Definition process {D P Frame} `{Engine D Frame} (e : Effect D P) (data : Frame) :
    Frame * Effect D P :=
  let (out, faust) := run (faust_ e) data in
  (out, mkEffect (effect_name e) (effect_props e) faust).

End Pingpong.

Module PingpongScreen.

Section Handlers.
Context {P : Type} `{Steppable P}.

Definition rotary (ev : RotaryEvent) (props : Props P) : Props P :=
  match rotary_of ev with
  | Blue =>
      mkProps (step (clicks ev) (delaytime props)) (feedback props) (tone props)
              (spread props) (bpm_follow props) (delay_level props)
  | Green =>
      mkProps (delaytime props) (step (clicks ev) (feedback props)) (tone props)
              (spread props) (bpm_follow props) (delay_level props)
  | White =>
      mkProps (delaytime props) (feedback props) (step (clicks ev) (tone props))
              (spread props) (bpm_follow props) (delay_level props)
  | Red =>
      mkProps (delaytime props) (feedback props) (tone props)
              (step (clicks ev) (spread props)) (bpm_follow props) (delay_level props)
  end.

Definition keypress (key : Key) (props : Props P) : bool * Props P :=
  match key with
  | blue_click | green_click | white_click | red_click =>
      (true, mkProps (delaytime props) (feedback props) (tone props) (spread props)
                     (negb (bpm_follow props)) (delay_level props))
  | other_key _ => (false, props)
  end.

End Handlers.

End PingpongScreen.

(** A property with a range: a value between two bounds, stepped by a
    fixed amount and kept inside the bounds. *)
Record Ranged : Type := mkRanged {
  value : Z;
  lowest : Z;
  highest : Z;
  step_size : Z
}.

Definition clamp (lo hi v : Z) : Z := Z.max lo (Z.min hi v).

#[export] Instance Ranged_Steppable : Steppable Ranged := {
  step n p :=
    mkRanged (clamp (lowest p) (highest p) (value p + n * step_size p))
             (lowest p) (highest p) (step_size p)
}.

(** Whether a key is one of the four clicks. *)
Definition is_click (key : Key) : bool :=
  match key with
  | other_key _ => false
  | _ => true
  end.

(** ** The rotary handler *)

Section RotaryTheorems.
Context {P : Type} `{Steppable P}.
Implicit Types (ev : RotaryEvent) (props : Props P).

(** The property that belongs to an encoder. *)
Definition prop_of (r : Rotary) (props : Props P) : P :=
  match r with
  | Blue => delaytime props
  | Green => feedback props
  | White => tone props
  | Red => spread props
  end.

(** C36: a rotary event steps the property of its encoder by the clicks of
    the event and changes nothing else: each of the four properties is
    stepped if the event is for its colour and is unchanged otherwise, and
    [bpm_follow] and the levels of the delay lines are unchanged. *)
Theorem rotary_steps_its_property ev props r :
  prop_of r (PingpongScreen.rotary ev props) =
    (if decide (rotary_of ev = r) then step (clicks ev) (prop_of r props)
     else prop_of r props) /\
  bpm_follow (PingpongScreen.rotary ev props) = bpm_follow props /\
  delay_level (PingpongScreen.rotary ev props) = delay_level props.
Proof.
  unfold PingpongScreen.rotary.
  destruct (rotary_of ev), r; repeat split; reflexivity.
Qed.

(** Events of two different encoders commute: the order in which they
    are handled does not matter. *)
Theorem rotary_commutes ev1 ev2 props :
  rotary_of ev1 <> rotary_of ev2 ->
  PingpongScreen.rotary ev1 (PingpongScreen.rotary ev2 props) =
  PingpongScreen.rotary ev2 (PingpongScreen.rotary ev1 props).
Proof.
  intros Hne. unfold PingpongScreen.rotary.
  destruct (rotary_of ev1), (rotary_of ev2); try reflexivity; contradiction.
Qed.

End RotaryTheorems.

(** ** The key handler *)

Section KeyTheorems.
Context {P : Type} `{Steppable P}.
Implicit Types (key : Key) (props : Props P).

(** C37: [keypress] handles the four clicks and only them: it returns
    [true] and negates [bpm_follow] on a click, and returns [false] with
    the properties unchanged on any other key; the four stepped properties
    are never changed. *)
Theorem keypress_toggles_on_click key props :
  (PingpongScreen.keypress key props).1 = is_click key /\
  bpm_follow (PingpongScreen.keypress key props).2 =
    xorb (is_click key) (bpm_follow props) /\
  (forall r, prop_of r (PingpongScreen.keypress key props).2 = prop_of r props).
Proof.
  destruct key; simpl; repeat split; try (now destruct (bpm_follow props));
    intros []; reflexivity.
Qed.

(** Pressing the same key twice restores the properties. *)
Theorem keypress_twice key props :
  (PingpongScreen.keypress key (PingpongScreen.keypress key props).2).2 = props.
Proof.
  destruct key, props; simpl; now rewrite ?negb_involutive.
Qed.

End KeyTheorems.

(** ** A property with a range *)

Lemma clamp_range lo hi v : lo <= hi -> lo <= clamp lo hi v <= hi.
Proof. unfold clamp. lia. Qed.

(** Stepping keeps a ranged property inside its bounds. *)
Lemma step_in_range n (p : Ranged) :
  lowest p <= highest p -> lowest (step n p) <= value (step n p) <= highest (step n p).
Proof. intros Hr. simpl. now apply clamp_range. Qed.

Definition demo_props : Props Ranged :=
  mkProps (mkRanged 50 0 100 1) (mkRanged 5 0 10 1) (mkRanged 5 0 10 1)
          (mkRanged 0 0 10 1) false (vreplicate 20 (mkRanged 0 0 100 1)).

Lemma rotary_commutes_witness :
  PingpongScreen.rotary (mkRotaryEvent Blue 3)
    (PingpongScreen.rotary (mkRotaryEvent Red (-2)) demo_props) =
  PingpongScreen.rotary (mkRotaryEvent Red (-2))
    (PingpongScreen.rotary (mkRotaryEvent Blue 3) demo_props).
Proof.
  apply (rotary_commutes (mkRotaryEvent Blue 3) (mkRotaryEvent Red (-2)) demo_props).
  discriminate.
Defined.
