(* ===== verification/Draw.v ===== *)
(** * Drawing the screen of the delay

    [PingpongScreen::draw] of pingpong.cpp draws twenty pairs of vertical
    lines, one pair for each delay line: a gray line of the full height of
    the bar and a blue line of the height scaled by the level of the delay
    line.  The heights start at 100 and are multiplied, after every bar, by
    a factor computed from [feedback] and [tone], with the product
    converted back to [int].  Before the level of a delay line is read it
    is refreshed from the DSP engine, which is the one change [draw] makes
    to the properties.

    The function mixes [int], [float] and [double].  The model keeps the
    conversions where the source has them: the operations are those of the
    class [FloatArith] on a type [F] for [float] and a type [D] for
    [double], and the integers are [Z].  The canvas is the list of the
    calls made on it, in order.  The instance in which [float] and
    [double] are the IEEE 754 formats is in [Binary32], and the theorem
    that bounds the heights in that instance is in [Rounding].

    [delay_level] is indexed by the loop from 0 to 19 and its declaration
    is not among the sources: the model takes it to be an array of twenty
    levels ([vec P 20] in [Props]), so every access is inside it.

    The theorems of this file hold for every arithmetic: the loop with its
    two running heights is a map over the indices with the heights in
    closed form, and the properties after [draw] are the properties before
    it with every level refreshed ([draw_closed_form]); the heights stay
    between -100 and 100 when the factors lengthen no bar
    ([draw_heights_bounded]); the handlers of the keys and of the red
    encoder do not change the picture ([draw_after_events]).  [draw]
    computes [feedbackLimit], [line_length] and [space] and never uses
    them; of the three the model has [feedbackLimit]. *)

From Stdlib Require Import ZArith Lia List.
From stdpp Require Import base list vector fin finite.
From S2P Require Import Prelude Pingpong.
Import ListNotations.
Local Open Scope Z_scope.

(** ** The canvas *)

(** [ui::vg::Fonts]. *)
Inductive Font : Type := Norm.

(** [ui::vg::Colours]: the two colours of the function. *)
Module Colours.
Inductive t : Type := Gray50 | Blue.
End Colours.

(** The calls of [draw] on the canvas. *)
Inductive Command (F : Type) : Type :=
| font (f : Font) (size : F)
| lineWidth (w : F)
| beginPath
| moveTo (x y : F)
| lineTo (x y : F)
| stroke (c : Colours.t).

Arguments font {F}.
Arguments lineWidth {F}.
Arguments beginPath {F}.
Arguments moveTo {F}.
Arguments lineTo {F}.
Arguments stroke {F}.

(** ** Arithmetic *)

(** The operations of [draw] on [float] (the type [F]) and on [double]
    (the type [D]), and the conversions between them and [int]. *)
Class FloatArith (F D : Type) : Type := {
  f_of_int : Z -> F;
  int_of_f : F -> Z;
  f_add : F -> F -> F;
  f_sub : F -> F -> F;
  f_mul : F -> F -> F;
  d_of_f : F -> D;
  f_of_d : D -> F;
  int_of_d : D -> Z;
  d_lit : Z -> Z -> D;
  d_sub : D -> D -> D;
  d_mul : D -> D -> D;
  d_max : D -> D -> D;
  d_floor : D -> D
}.

(** A property of type [float]: the conversion to its value, and the
    refresh from the DSP engine. *)
Class FloatProperty (P F : Type) : Type := {
  as_float : P -> F;
  refresh_links : P -> P
}.

(** The state of the loop: the calls made so far, the properties, and the
    two heights. *)
Record Loop (F P : Type) : Type := mkLoop {
  canvas : list (Command F);
  engine_props : Props P;
  y_height_top : Z;
  y_height_bot : Z
}.

Arguments mkLoop {F P}.
Arguments canvas {F P}.
Arguments engine_props {F P}.
Arguments y_height_top {F P}.
Arguments y_height_bot {F P}.

Module PingpongDraw.

Section Draw.
Context {F D P : Type} `{!FloatArith F D} `{!FloatProperty P F}.
Variables (width height : Z).

Definition x_pad : F := f_of_int 30.
Definition x_spacing_min : Z := Z.quot width 25.
Definition x_scaling : Z := 50.
Definition y_base : Z := Z.quot height 2.

(** [floor(20.0*engine.props.feedback)], converted to [int]. *)
Definition feedbackLimit (props : Props P) : Z :=
  int_of_d (d_floor (d_mul (d_lit 20 1) (d_of_f (as_float (feedback props))))).

(** The two factors, computed in [double] and stored as [float]. *)
Definition dim_scale_top (props : Props P) : F :=
  f_of_d (d_sub (d_sub (d_of_f (as_float (feedback props))) (d_lit 1 100))
                (d_mul (d_lit 2 10)
                   (d_max (d_lit 0 1)
                      (d_sub (d_lit 5 10) (d_of_f (as_float (tone props))))))).

Definition dim_scale_bot (props : Props P) : F :=
  f_of_d (d_sub (d_sub (d_of_f (as_float (feedback props))) (d_lit 1 100))
                (d_mul (d_lit 2 10)
                   (d_max (d_lit 0 1)
                      (d_sub (d_of_f (as_float (tone props))) (d_lit 5 10))))).

(** [x_pad + i*(x_spacing_min + x_scaling*engine.props.delaytime)],
    assigned to the [int] [x_pos]. *)
Definition x_pos (props : Props P) (i : Z) : Z :=
  int_of_f (f_add x_pad
              (f_mul (f_of_int i)
                 (f_add (f_of_int x_spacing_min)
                    (f_mul (f_of_int x_scaling) (as_float (delaytime props)))))).

(** [y_height *= dim_scale]: the product in [float], converted to [int]. *)
Definition scale (s : F) (h : Z) : Z := int_of_f (f_mul (f_of_int h) s).

(** [engine.props.delay_level[i].level.refresh_links()]. *)
Definition refresh_at (i : fin 20) (props : Props P) : Props P :=
  mkProps (delaytime props) (feedback props) (tone props) (spread props)
          (bpm_follow props)
          (vinsert i (refresh_links (delay_level props !!! i)) (delay_level props)).

(** The calls of one round, for the bar at [x] with the heights [top] and
    [bot] and the level [level]. *)
Definition bar_calls (x : Z) (top bot : Z) (level : F) : list (Command F) :=
  [ beginPath;
    moveTo (f_of_int x) (f_of_int (y_base - top));
    lineTo (f_of_int x) (f_of_int (y_base + bot));
    stroke Colours.Gray50;
    beginPath;
    moveTo (f_of_int x) (f_sub (f_of_int y_base) (f_mul (f_of_int top) level));
    lineTo (f_of_int x) (f_add (f_of_int y_base) (f_mul (f_of_int bot) level));
    stroke Colours.Blue ].

(** The body of the loop. *)
Definition body (dst dsb : F) (st : Loop F P) (i : fin 20) : Loop F P :=
  let x := x_pos (engine_props st) (Z.of_nat (fin_to_nat i)) in
  let props := refresh_at i (engine_props st) in
  let level := as_float (delay_level props !!! i) in
  mkLoop (canvas st ++ bar_calls x (y_height_top st) (y_height_bot st) level)
         props
         (scale dst (y_height_top st))
         (scale dsb (y_height_bot st)).

Definition draw (props : Props P) : Loop F P :=
  let ctx := [font Norm (f_of_int 35); lineWidth (f_of_int 6)] in
  fold_left (body (dim_scale_top props) (dim_scale_bot props)) (fin_enum 20)
            (mkLoop ctx props 100 100).

End Draw.

End PingpongDraw.

(** ** The loop in closed form *)

Section DrawTheory.
Context {F D P : Type} `{!FloatArith F D} `{!FloatProperty P F}.
Variables (width height : Z).

Import PingpongDraw.

(** The height before round [i]: the factor applied [i] times to 100. *)
Definition heights (s : F) (i : nat) : Z := Nat.iter i (scale s) 100.

(** The calls of round [i], from the properties before [draw]. *)
Definition bar (dst dsb : F) (props : Props P) (i : fin 20) : list (Command F) :=
  bar_calls height (x_pos width props (Z.of_nat (fin_to_nat i)))
            (heights dst (fin_to_nat i)) (heights dsb (fin_to_nat i))
            (as_float (refresh_links (delay_level props !!! i))).

(** The properties after the levels at the indices [l] are refreshed. *)
Definition refreshed (l : list (fin 20)) (props : Props P) : Props P :=
  fold_left (fun p i => refresh_at i p) l props.

(** The properties with every level refreshed. *)
Definition all_refreshed (props : Props P) : Props P :=
  mkProps (delaytime props) (feedback props) (tone props) (spread props)
          (bpm_follow props) (vmap refresh_links (delay_level props)).

(** A list of indices that counts from 0: the index at position [k] is
    [k]. *)
Definition counted (l : list (fin 20)) : Prop :=
  fin_to_nat <$> l = seq 0 (length l).

Lemma counted_snoc l i :
  counted (l ++ [i]) -> counted l /\ fin_to_nat i = length l /\ i ∉ l.
Proof.
  unfold counted. rewrite fmap_app, length_app, seq_app. cbn [length seq fmap list_fmap].
  intros [Hl Hi]%app_inj_1; [|now rewrite length_fmap, length_seq].
  injection Hi as Hi. repeat split; [assumption..|].
  intros Hin. apply (list_elem_of_fmap_2 fin_to_nat) in Hin.
  rewrite Hl, Hi in Hin. apply elem_of_seq in Hin. lia.
Qed.

Lemma counted_enum : counted (fin_enum 20).
Proof. reflexivity. Qed.

Lemma refreshed_cons i l props :
  refreshed (i :: l) props = refreshed l (refresh_at i props).
Proof. reflexivity. Qed.

Lemma refreshed_delaytime l : forall props,
  delaytime (refreshed l props) = delaytime props.
Proof.
  induction l as [|i l IH]; intros props; [reflexivity|].
  now rewrite refreshed_cons, IH.
Qed.

Lemma refreshed_parameters l : forall props,
  feedback (refreshed l props) = feedback props /\
  tone (refreshed l props) = tone props /\
  spread (refreshed l props) = spread props /\
  bpm_follow (refreshed l props) = bpm_follow props.
Proof.
  induction l as [|i l IH]; intros props; [now repeat split|].
  rewrite refreshed_cons.
  destruct (IH (refresh_at i props)) as (-> & -> & -> & ->). now repeat split.
Qed.

(** A level that is not refreshed is the level before. *)
Lemma refreshed_lookup_notin l : forall props j,
  j ∉ l -> delay_level (refreshed l props) !!! j = delay_level props !!! j.
Proof.
  induction l as [|i l IH]; intros props j Hj; [reflexivity|].
  apply not_elem_of_cons in Hj as [Hne Hj]. rewrite refreshed_cons, IH by assumption.
  cbn [refresh_at delay_level]. now rewrite vlookup_insert_ne.
Qed.

(** A level that is refreshed is refreshed once. *)
Lemma refreshed_lookup_in l : forall props j,
  NoDup l -> j ∈ l ->
  delay_level (refreshed l props) !!! j = refresh_links (delay_level props !!! j).
Proof.
  induction l as [|i l IH]; intros props j Hnd Hj; [now apply elem_of_nil in Hj|].
  apply NoDup_cons in Hnd as [Hi Hnd]. rewrite refreshed_cons.
  destruct (decide (j = i)) as [->|Hne].
  - rewrite refreshed_lookup_notin by assumption.
    cbn [refresh_at delay_level]. now rewrite vlookup_insert.
  - apply elem_of_cons in Hj as [Hj|Hj]; [contradiction|].
    rewrite IH by assumption. cbn [refresh_at delay_level]. now rewrite vlookup_insert_ne.
Qed.

Lemma refreshed_all props : refreshed (fin_enum 20) props = all_refreshed props.
Proof.
  pose proof (refreshed_delaytime (fin_enum 20) props) as Hd.
  destruct (refreshed_parameters (fin_enum 20) props) as (Hf & Ht & Hs & Hb).
  assert (Hl : delay_level (refreshed (fin_enum 20) props) =
               vmap refresh_links (delay_level props)).
  { apply vec_eq. intros j. rewrite vlookup_map.
    apply refreshed_lookup_in; [exact (NoDup_enum (fin 20)) | exact (elem_of_enum j)]. }
  unfold all_refreshed. destruct (refreshed (fin_enum 20) props).
  cbn in Hd, Hf, Ht, Hs, Hb, Hl. now subst.
Qed.

(** One round after the rounds of [l]. *)
Lemma body_after l i dst dsb props c :
  fin_to_nat i = length l -> i ∉ l ->
  body width height dst dsb
       (mkLoop c (refreshed l props) (heights dst (length l)) (heights dsb (length l))) i =
  mkLoop (c ++ bar dst dsb props i) (refreshed (l ++ [i]) props)
         (heights dst (length (l ++ [i]))) (heights dsb (length (l ++ [i]))).
Proof.
  intros Hi Hni. unfold body, bar, refreshed. rewrite fold_left_app, length_app, Nat.add_1_r.
  cbn [canvas engine_props y_height_top y_height_bot fold_left length].
  fold (refreshed l props). f_equal. f_equal. unfold x_pos.
  rewrite refreshed_delaytime, Hi. f_equal.
  cbn [refresh_at delay_level]. now rewrite vlookup_insert, refreshed_lookup_notin.
Qed.

Lemma loop_closed_form dst dsb props c l :
  counted l ->
  fold_left (body width height dst dsb) l (mkLoop c props 100 100) =
  mkLoop (c ++ flat_map (bar dst dsb props) l) (refreshed l props)
         (heights dst (length l)) (heights dsb (length l)).
Proof.
  induction l as [|i l IH] using rev_ind; intros Hc.
  - cbn. now rewrite app_nil_r.
  - apply counted_snoc in Hc as (Hc & Hi & Hni).
    rewrite fold_left_app, IH by assumption. cbn [fold_left].
    rewrite body_after by assumption.
    now rewrite flat_map_app, app_assoc; cbn [flat_map]; rewrite app_nil_r.
Qed.

Lemma draw_run (props : Props P) :
  draw width height props =
  mkLoop ([font Norm (f_of_int 35); lineWidth (f_of_int 6)] ++
          flat_map (bar (dim_scale_top props) (dim_scale_bot props) props) (fin_enum 20))
         (all_refreshed props)
         (heights (dim_scale_top props) 20) (heights (dim_scale_bot props) 20).
Proof.
  unfold draw. rewrite loop_closed_form by apply counted_enum.
  now rewrite refreshed_all.
Qed.

(** C16: the loop of [PingpongScreen::draw] in closed form: the calls on
    the canvas are the font and the line width followed, for each of the
    twenty indices in order, by the eight calls of the bar, whose heights
    are the two factors applied to 100 as many times as the index says and
    whose level is the refreshed level of that delay line; the properties
    after the call are the properties before it with every level
    refreshed; the heights at the end are the factors applied 20 times. *)
Theorem draw_closed_form (props : Props P) :
  draw width height props =
  mkLoop ([font Norm (f_of_int 35); lineWidth (f_of_int 6)] ++
          flat_map (bar (dim_scale_top props) (dim_scale_bot props) props) (fin_enum 20))
         (all_refreshed props)
         (heights (dim_scale_top props) 20) (heights (dim_scale_bot props) 20).
Proof. apply draw_run. Qed.

(** ** The heights stay on the screen *)

(** A factor that lengthens no bar of at most 100 pixels. *)
Definition shrinks (s : F) : Prop :=
  forall h, Z.abs h <= 100 -> Z.abs (scale s h) <= Z.abs h.

(** The same, decided by scaling each of the 201 heights. *)
Definition shrinksb (s : F) : bool :=
  forallb (fun h => Z.abs (scale s h) <=? Z.abs h) (seqZ (-100) 201).

Lemma shrinksb_shrinks s : shrinksb s = true -> shrinks s.
Proof.
  unfold shrinksb, shrinks. rewrite forallb_forall. intros Hall h Hh.
  apply Z.leb_le, Hall, list_elem_of_In, elem_of_seqZ. lia.
Qed.

(** Under such a factor the heights are at most 100 and never grow. *)
Lemma heights_shrink s :
  shrinks s -> forall i, Z.abs (heights s (S i)) <= Z.abs (heights s i) <= 100.
Proof.
  intros Hs. induction i as [|i [IH1 IH2]].
  - split; [apply Hs|]; cbn; lia.
  - split; [apply Hs|]; lia.
Qed.

Lemma heights_bounded s : shrinks s -> forall i, Z.abs (heights s i) <= 100.
Proof. intros Hs i. apply (heights_shrink s Hs i). Qed.

(** Every pixel row that the calls of a bar name is within 100 of the
    base line. *)
Definition on_screen (c : Command F) : Prop :=
  match c with
  | moveTo _ y | lineTo _ y =>
      (exists h, Z.abs h <= 100 /\ y = f_of_int (y_base height - h)) \/
      (exists h l, Z.abs h <= 100 /\ y = f_sub (f_of_int (y_base height)) (f_mul (f_of_int h) l)) \/
      (exists h l, Z.abs h <= 100 /\ y = f_add (f_of_int (y_base height)) (f_mul (f_of_int h) l))
  | _ => True
  end.

Lemma bar_on_screen dst dsb props i :
  shrinks dst -> shrinks dsb -> Forall on_screen (bar dst dsb props i).
Proof.
  intros Ht Hb. pose proof (heights_bounded dst Ht (fin_to_nat i)) as H1.
  pose proof (heights_bounded dsb Hb (fin_to_nat i)) as H2.
  unfold bar, bar_calls.
  repeat first [apply Forall_nil_2 | apply Forall_cons_2]; try exact Logic.I; cbn.
  - left. eexists. split; [exact H1 | reflexivity].
  - left. exists (- heights dsb (fin_to_nat i)). split; [lia | f_equal; lia].
  - right. left. eauto.
  - right. right. eauto.
Qed.

(** The bars stay within 100 pixels of the base line: when neither factor
    lengthens a bar of at most 100 pixels, every height the loop of [draw]
    holds, from the first round to the value it ends with, is between -100
    and 100 and no larger in size than the height of the round before, and
    every row passed to [moveTo] or [lineTo] is the base line moved by at
    most 100 pixels or by such a height times a level.  [Rounding] shows
    that the factors of size at most 1 are such factors in binary32. *)
Theorem draw_heights_bounded (props : Props P) :
  shrinks (dim_scale_top props) -> shrinks (dim_scale_bot props) ->
  Z.abs (y_height_top (draw width height props)) <= 100 /\
  Z.abs (y_height_bot (draw width height props)) <= 100 /\
  (forall i, Z.abs (heights (dim_scale_top props) (S i))
             <= Z.abs (heights (dim_scale_top props) i) <= 100) /\
  (forall i, Z.abs (heights (dim_scale_bot props) (S i))
             <= Z.abs (heights (dim_scale_bot props) i) <= 100) /\
  Forall on_screen (canvas (draw width height props)).
Proof.
  intros Ht Hb. rewrite draw_run. cbn [y_height_top y_height_bot canvas].
  do 2 (split; [now apply heights_bounded|]).
  do 2 (split; [now apply heights_shrink|]).
  apply Forall_app. split; [repeat constructor|].
  apply Forall_flat_map, Forall_forall. intros i _. now apply bar_on_screen.
Qed.

End DrawTheory.

(** ** The handlers and the picture *)

Section DrawAfterEvents.
Context {F D P : Type} `{!FloatArith F D} `{!FloatProperty P F} `{!Steppable P}.
Variables (width height : Z).

Import PingpongDraw.

(** The calls of [draw] are a function of [delaytime], [feedback], [tone]
    and the levels. *)
Lemma draw_reads (props props' : Props P) :
  delaytime props = delaytime props' -> feedback props = feedback props' ->
  tone props = tone props' -> delay_level props = delay_level props' ->
  canvas (draw width height props) = canvas (draw width height props').
Proof.
  intros Hd Hf Ht Hl. rewrite !draw_run. cbn [canvas].
  unfold bar, dim_scale_top, dim_scale_bot, x_pos. now rewrite Hd, Hf, Ht, Hl.
Qed.

(** The picture does not show [spread] or [bpm_follow]: after a key
    press, handled or not, and after a turn of the red encoder, [draw]
    makes the same calls on the canvas as before the event. *)
Theorem draw_after_events (props : Props P) key n :
  canvas (draw width height (PingpongScreen.keypress key props).2) =
    canvas (draw width height props) /\
  canvas (draw width height (PingpongScreen.rotary (mkRotaryEvent Red n) props)) =
    canvas (draw width height props).
Proof. split; [destruct key|]; now apply draw_reads. Qed.

End DrawAfterEvents.
