(* ===== verification/Screen.v ===== *)
(** * The screen as a whole: events in any order

    [struct PingpongScreen : EngineScreen<Pingpong>] of pingpong.cpp
    overrides the three entry points of a screen: [draw], [keypress] and
    [rotary].  The user interface calls them as events arrive and as
    frames are due, in an order the screen does not choose.  This file has
    the interface as a class ([EngineScreen]), the screen of the delay as
    its instance ([pingpong_screen]), and the user interface around any
    screen as a transition system: a state holds the canvas, the engine
    and the keys the screen has left to the caller, a step is one event
    ([ui_step]), and [ui_run] handles a list of events.

    What the entry points do not share makes the order of the events
    immaterial to most of the state.  Two sets of properties agree on the
    knobs when their four parameters are equal ([same_knobs], an
    equivalence that the handlers respect); up to it the parameters after
    any events are those after the rotary events among them.  In the same
    way [bpm_follow] counts the clicks, the canvas counts the frames, and
    the keys left to the caller are the keys that are not clicks
    ([ui_run_normal_form]). *)

From Stdlib Require Import ZArith Lia List Bool Morphisms RelationClasses.
From stdpp Require Import base list vector fin finite.
From S2P Require Import Prelude Pingpong Draw.
Import ListNotations.
Local Open Scope Z_scope.

(** ** The interface *)

(** [EngineScreen<E>]: the entry points of a screen that belongs to an
    engine with the state [E] and draws on a [Canvas]. *)
Class EngineScreen (E Canvas : Type) : Type := {
  screen_draw : Canvas -> E -> Canvas * E;
  screen_keypress : Key -> E -> bool * E;
  screen_rotary : RotaryEvent -> E -> E
}.

(** What the user interface sends to a screen. *)
Inductive Event : Type :=
| Rotate (ev : RotaryEvent)
| Press (key : Key)
| Redraw.

(** The user interface around a screen: the canvas, the engine, and the
    keys for which [keypress] returned [false]. *)
Record UI (E Canvas : Type) : Type := mkUI {
  ui_canvas : Canvas;
  ui_engine : E;
  ui_unhandled : list Key
}.

Arguments mkUI {E Canvas}.
Arguments ui_canvas {E Canvas}.
Arguments ui_engine {E Canvas}.
Arguments ui_unhandled {E Canvas}.

Section Dispatch.
Context {E Canvas : Type} `{!EngineScreen E Canvas}.

(** One event. *)
Definition handle (e : Event) (ui : UI E Canvas) : UI E Canvas :=
  match e with
  | Rotate ev =>
      mkUI (ui_canvas ui) (screen_rotary ev (ui_engine ui)) (ui_unhandled ui)
  | Press key =>
      let r := screen_keypress key (ui_engine ui) in
      mkUI (ui_canvas ui) r.2
           (if r.1 then ui_unhandled ui else ui_unhandled ui ++ [key])
  | Redraw =>
      let r := screen_draw (ui_canvas ui) (ui_engine ui) in
      mkUI r.1 r.2 (ui_unhandled ui)
  end.

(** The same, as a step of a transition system. *)
Inductive ui_step : UI E Canvas -> Event -> UI E Canvas -> Prop :=
| step_rotate ev c e u :
    ui_step (mkUI c e u) (Rotate ev) (mkUI c (screen_rotary ev e) u)
| step_handled key c e e' u :
    screen_keypress key e = (true, e') ->
    ui_step (mkUI c e u) (Press key) (mkUI c e' u)
| step_unhandled key c e e' u :
    screen_keypress key e = (false, e') ->
    ui_step (mkUI c e u) (Press key) (mkUI c e' (u ++ [key]))
| step_redraw c e c' e' u :
    screen_draw c e = (c', e') ->
    ui_step (mkUI c e u) Redraw (mkUI c' e' u).

Inductive ui_steps : UI E Canvas -> list Event -> UI E Canvas -> Prop :=
| ui_steps_nil ui : ui_steps ui [] ui
| ui_steps_cons ui e ui1 es ui2 :
    ui_step ui e ui1 -> ui_steps ui1 es ui2 -> ui_steps ui (e :: es) ui2.

Definition ui_run (es : list Event) (ui : UI E Canvas) : UI E Canvas :=
  fold_left (fun ui e => handle e ui) es ui.

Lemma ui_step_handle ui e ui' : ui_step ui e ui' <-> ui' = handle e ui.
Proof.
  split.
  - intros []; cbn [handle ui_canvas ui_engine ui_unhandled];
      repeat match goal with H : _ = (_, _) |- _ => rewrite H end; reflexivity.
  - intros ->. destruct ui as [c en u], e as [ev|key|]; cbn [handle ui_canvas ui_engine
      ui_unhandled].
    + constructor.
    + destruct (screen_keypress key en) as [[|] e'] eqn:Hk; cbn [fst snd];
        [now apply step_handled | now apply step_unhandled].
    + destruct (screen_draw c en) as [c' e'] eqn:Hd. now apply step_redraw.
Qed.

Lemma ui_steps_run es : forall ui ui', ui_steps ui es ui' <-> ui' = ui_run es ui.
Proof.
  induction es as [|e es IH]; intros ui ui'; cbn [ui_run fold_left].
  - split; [now inversion 1 | intros ->; constructor].
  - split.
    + inversion 1 as [|? ? ui1 ? ? Hs Hr]; subst.
      apply ui_step_handle in Hs as ->. now apply IH.
    + intros ->. econstructor; [now apply ui_step_handle | now apply IH].
Qed.

End Dispatch.

(** ** The screen of the delay *)

Section Pingpong.
Context {F D P : Type} `{!FloatArith F D} `{!FloatProperty P F} `{!Steppable P}.
Variables (width height : Z).

(** [struct PingpongScreen : EngineScreen<Pingpong>]. *)
Definition pingpong_screen : EngineScreen (Props P) (list (Command F)) := {|
  screen_draw ctx props :=
    let st := PingpongDraw.draw width height props in
    (ctx ++ canvas st, engine_props st);
  screen_keypress := PingpongScreen.keypress;
  screen_rotary := PingpongScreen.rotary
|}.

#[local] Existing Instance pingpong_screen.

(** The rotary events among the events. *)
Fixpoint rotations (es : list Event) : list RotaryEvent :=
  match es with
  | [] => []
  | Rotate ev :: es => ev :: rotations es
  | _ :: es => rotations es
  end.

(** The keys among the events that are not clicks. *)
Fixpoint other_keys (es : list Event) : list Key :=
  match es with
  | [] => []
  | Press key :: es => if is_click key then other_keys es else key :: other_keys es
  | _ :: es => other_keys es
  end.

(** Whether the number of clicks among the events is odd. *)
Fixpoint odd_clicks (es : list Event) : bool :=
  match es with
  | [] => false
  | Press key :: es => xorb (is_click key) (odd_clicks es)
  | _ :: es => odd_clicks es
  end.

(** The number of frames among the events. *)
Fixpoint frames (es : list Event) : nat :=
  match es with
  | [] => 0
  | Redraw :: es => S (frames es)
  | _ :: es => frames es
  end.

(** The rotary events alone. *)
Definition turn_all (evs : list RotaryEvent) (props : Props P) : Props P :=
  fold_left (fun p ev => PingpongScreen.rotary ev p) evs props.

(** ** Agreement on the knobs *)

Definition same_knobs : relation (Props P) :=
  fun p q => forall r, prop_of r p = prop_of r q.

#[export] Instance same_knobs_equiv : Equivalence same_knobs.
Proof.
  split; [now intros p r | now intros p q H r | intros p q s H1 H2 r].
  now rewrite H1.
Qed.

#[export] Instance rotary_proper ev :
  Proper (same_knobs ==> same_knobs) (PingpongScreen.rotary ev).
Proof.
  intros p q H r. unfold PingpongScreen.rotary.
  pose proof (H Blue). pose proof (H Green). pose proof (H White). pose proof (H Red).
  destruct (rotary_of ev), r; cbn in *; congruence.
Qed.

#[export] Instance turn_all_proper evs : Proper (same_knobs ==> same_knobs) (turn_all evs).
Proof.
  induction evs as [|ev evs IH]; intros p q H; cbn [turn_all fold_left]; [exact H|].
  apply IH. now apply rotary_proper.
Qed.

Lemma keypress_same_knobs key props :
  same_knobs (PingpongScreen.keypress key props).2 props.
Proof. intros r. now destruct key, r. Qed.

Lemma draw_same_knobs props :
  same_knobs (engine_props (PingpongDraw.draw width height props)) props.
Proof. intros r. rewrite draw_run. now destruct r. Qed.

Lemma rotary_bpm_follow ev (props : Props P) :
  bpm_follow (PingpongScreen.rotary ev props) = bpm_follow props.
Proof. unfold PingpongScreen.rotary. now destruct (rotary_of ev). Qed.

Lemma keypress_result key (props : Props P) :
  (PingpongScreen.keypress key props).1 = is_click key /\
  bpm_follow (PingpongScreen.keypress key props).2 = xorb (is_click key) (bpm_follow props).
Proof. destruct key, props as [? ? ? ? [|] ?]; cbn; split; reflexivity. Qed.

(** Each frame makes 162 calls. *)
Lemma draw_calls props : length (canvas (PingpongDraw.draw width height props)) = 162%nat.
Proof. rewrite draw_run. reflexivity. Qed.

(** ** Any events *)

(** The state after one event, component by component. *)
Lemma handle_parts e ui :
  same_knobs (ui_engine (handle e ui))
             (match e with
              | Rotate ev => PingpongScreen.rotary ev (ui_engine ui)
              | _ => ui_engine ui
              end) /\
  bpm_follow (ui_engine (handle e ui)) =
    xorb (match e with Press key => is_click key | _ => false end)
         (bpm_follow (ui_engine ui)) /\
  ui_unhandled (handle e ui) =
    ui_unhandled ui ++
    match e with Press key => if is_click key then [] else [key] | _ => [] end /\
  length (ui_canvas (handle e ui)) =
    (length (ui_canvas ui) + match e with Redraw => 162 | _ => 0 end)%nat.
Proof.
  destruct e as [ev|key|]; cbn [handle ui_engine ui_unhandled ui_canvas screen_rotary
    screen_keypress screen_draw pingpong_screen fst snd].
  - rewrite rotary_bpm_follow, app_nil_r, Nat.add_0_r. now repeat split.
  - destruct (keypress_result key (ui_engine ui)) as [-> ->].
    rewrite Nat.add_0_r. split; [apply keypress_same_knobs|].
    repeat split. destruct (is_click key); [now rewrite app_nil_r | reflexivity].
  - rewrite length_app, draw_calls, app_nil_r. split; [apply draw_same_knobs|].
    split; [now rewrite draw_run | now split].
Qed.

Lemma ui_run_parts es : forall ui,
  same_knobs (ui_engine (ui_run es ui)) (turn_all (rotations es) (ui_engine ui)) /\
  bpm_follow (ui_engine (ui_run es ui)) = xorb (odd_clicks es) (bpm_follow (ui_engine ui)) /\
  ui_unhandled (ui_run es ui) = ui_unhandled ui ++ other_keys es /\
  length (ui_canvas (ui_run es ui)) = (length (ui_canvas ui) + 162 * frames es)%nat.
Proof.
  induction es as [|e es IH]; intros ui.
  - cbn. rewrite app_nil_r, Nat.add_0_r. now repeat split.
  - change (ui_run (e :: es) ui) with (ui_run es (handle e ui)).
    destruct (IH (handle e ui)) as (Hk & -> & -> & ->).
    destruct (handle_parts e ui) as (Hk1 & -> & -> & ->).
    split; [|split; [|split]].
    + rewrite Hk, Hk1. now destruct e.
    + destruct e as [ev|key|]; cbn [odd_clicks]; [reflexivity | | reflexivity].
      now destruct (is_click key), (odd_clicks es), (bpm_follow (ui_engine ui)).
    + rewrite <- app_assoc. f_equal.
      destruct e as [ev|key|]; cbn [other_keys]; try reflexivity.
      now destruct (is_click key).
    + destruct e; cbn [frames]; lia.
Qed.

End Pingpong.

(** C35: the state of the user interface after any events, in the order
    they came: the four parameters are those after the rotary events alone,
    [bpm_follow] has changed if the number of clicks is odd, the keys left
    to the caller are the pressed keys that are not clicks, in order, and
    the canvas has received 162 calls for each frame; nothing else of the
    events matters to these, whatever the arithmetic and the property
    type. *)
Theorem ui_run_normal_form {F D P : Type} `{!FloatArith F D} `{!FloatProperty P F}
    `{!Steppable P} (width height : Z) es (ui : UI (Props P) (list (Command F))) :
  let ui' := ui_run (EngineScreen0 := pingpong_screen width height) es ui in
  (forall r, prop_of r (ui_engine ui') =
             prop_of r (turn_all (rotations es) (ui_engine ui))) /\
  bpm_follow (ui_engine ui') = xorb (odd_clicks es) (bpm_follow (ui_engine ui)) /\
  ui_unhandled ui' = ui_unhandled ui ++ other_keys es /\
  length (ui_canvas ui') = (length (ui_canvas ui) + 162 * frames es)%nat.
Proof. apply ui_run_parts. Qed.
