(* ===== verification/Binary32.v ===== *)
(** * The arithmetic of [draw] in IEEE 754

    [PingpongScreen::draw] computes in [int], [float] and [double].  This
    file gives the instance of [FloatArith] in which [float] is binary32
    and [double] is binary64, on the specification of floating-point
    numbers of the Standard Library ([SpecFloat]): every operation rounds
    to nearest, ties to even, as the operations of C++ do in the default
    rounding mode.

    - An [int] converted to [float] is rounded ([f_of_int]); a [float] or
      [double] converted to [int] is truncated towards zero ([truncate]).
      C++ leaves the conversion of an infinity, of a NaN and of a value
      outside the range of [int] undefined; [truncate] gives 0 for the
      first two and the integer itself for the third, and
      [draw_bounded_binary32] of [Rounding] is the theorem that the
      heights of the loop stay far from that range.
    - A [float] converted to [double] keeps its value ([renorm] brings the
      mantissa to the 53 bits of the format); a [double] stored in a
      [float] is rounded to 24 bits.
    - A literal such as [0.01] is the [double] nearest to the fraction
      ([d_lit 1 100]), obtained by the correctly rounded division of the
      two integers.
    - [max] is [std::max]: the second argument if the first is less than
      it, the first otherwise.

    The property class is not among the sources; [Level] is the instance
    used in the runs: a value held by the user interface and the value at
    the DSP engine, which [refresh_links] copies into the first.

    The runs at the end evaluate [draw] on concrete properties: the
    heights of the bars for [feedback] at one half and at 1.  A setting
    where the factor is below zero is the subject of [Rounding]. *)

From Stdlib Require Import ZArith Lia List SpecFloat.
From stdpp Require Import base list vector fin finite.
From S2P Require Import Prelude Pingpong Draw.
Import ListNotations.
Local Open Scope Z_scope.

(** ** The two formats *)

(** A [float]: binary32, 24 bits of precision, exponents below 128. *)
Record float32 : Type := F32 { bits32 : spec_float }.

(** A [double]: binary64, 53 bits of precision, exponents below 1024. *)
Record float64 : Type := F64 { bits64 : spec_float }.

(** Conversion to [int]: the fraction is discarded. *)
Definition truncate (x : spec_float) : Z :=
  match x with
  | S754_finite s m e => cond_Zopp s (Z.shiftl (Z.pos m) e)
  | _ => 0
  end.

(** The number [x] in the format of precision [prec]: rounded if the
    format is narrower, with the mantissa brought to [prec] bits if it is
    wider. *)
Definition renorm (prec emax : Z) (x : spec_float) : spec_float :=
  match x with
  | S754_finite s m e => binary_normalize prec emax (cond_Zopp s (Z.pos m)) e s
  | _ => x
  end.

(** [floor] on [double]. *)
Definition floor64 (x : spec_float) : spec_float :=
  match x with
  | S754_finite s m (Z.neg p) =>
      binary_normalize 53 1024 (Z.shiftl (cond_Zopp s (Z.pos m)) (Z.neg p)) 0 s
  | _ => x
  end.

#[export] Instance IEEE_FloatArith : FloatArith float32 float64 := {
  f_of_int z := F32 (binary_normalize 24 128 z 0 false);
  int_of_f x := truncate (bits32 x);
  f_add x y := F32 (SFadd 24 128 (bits32 x) (bits32 y));
  f_sub x y := F32 (SFsub 24 128 (bits32 x) (bits32 y));
  f_mul x y := F32 (SFmul 24 128 (bits32 x) (bits32 y));
  d_of_f x := F64 (renorm 53 1024 (bits32 x));
  f_of_d x := F32 (renorm 24 128 (bits64 x));
  int_of_d x := truncate (bits64 x);
  d_lit n d := F64 (SFdiv 53 1024 (binary_normalize 53 1024 n 0 false)
                                  (binary_normalize 53 1024 d 0 false));
  d_sub x y := F64 (SFsub 53 1024 (bits64 x) (bits64 y));
  d_mul x y := F64 (SFmul 53 1024 (bits64 x) (bits64 y));
  d_max x y := if SFltb (bits64 x) (bits64 y) then y else x;
  d_floor x := F64 (floor64 (bits64 x))
}.

(** ** A property linked to the engine *)

Record Level : Type := mkLevel {
  held : float32;
  at_engine : float32
}.

#[export] Instance Level_FloatProperty : FloatProperty Level float32 := {
  as_float := held;
  refresh_links p := mkLevel (at_engine p) (at_engine p)
}.

(** ** Concrete properties *)

(** The [float] nearest to the fraction [n/d]. *)
Definition f32 (n d : Z) : float32 := f_of_d (d_lit n d).

(** A property that holds [n/d], at the engine too. *)
Definition knob (n d : Z) : Level := mkLevel (f32 n d) (f32 n d).

(** Properties with the given [delaytime], [feedback] and [tone], and
    twenty delay lines that all hold the level [lv]. *)
Definition props_of (dt fb tn lv : Level) : Props Level :=
  mkProps dt fb tn (knob 0 1) false (vreplicate 20 lv).

(** Every parameter at one half; the levels are 0 on the screen and one
    half at the engine. *)
Definition demo_half : Props Level :=
  props_of (knob 1 2) (knob 1 2) (knob 1 2) (mkLevel (f32 0 1) (f32 1 2)).

(** [feedback] and [tone] at 0. *)
Definition demo_dry : Props Level :=
  props_of (knob 1 2) (knob 0 1) (knob 0 1) (mkLevel (f32 0 1) (f32 1 2)).

(** [feedback] at 1. *)
Definition demo_full : Props Level :=
  props_of (knob 1 2) (knob 1 1) (knob 1 2) (mkLevel (f32 0 1) (f32 1 2)).

(** ** Runs *)

Import PingpongDraw.

(** The literals of [draw] and the factor for [feedback] and [tone] at
    one half: 0.49, as the [float] nearest to it. *)
Lemma dim_scale_half :
  dim_scale_top demo_half = F32 (S754_finite false 16441672 (-25)) /\
  dim_scale_bot demo_half = F32 (S754_finite false 16441672 (-25)).
Proof. now vm_compute. Qed.

Lemma draw_heights_bounded_witness :
  Z.abs (y_height_top (draw 320 240 demo_half)) <= 100 /\
  Z.abs (y_height_bot (draw 320 240 demo_half)) <= 100 /\
  (forall i, Z.abs (heights (dim_scale_top demo_half) (S i))
             <= Z.abs (heights (dim_scale_top demo_half) i) <= 100) /\
  (forall i, Z.abs (heights (dim_scale_bot demo_half) (S i))
             <= Z.abs (heights (dim_scale_bot demo_half) i) <= 100) /\
  Forall (on_screen 240) (canvas (draw 320 240 demo_half)).
Proof.
  apply (draw_heights_bounded 320 240 demo_half);
    apply shrinksb_shrinks; now vm_compute.
Defined.

(** A run of [draw] in binary32 on a screen of 320 by 240 with every
    parameter at one half: the factor is 0.49, the heights of the bars are
    100, 49, 24, 11, 5, 2 and then 0, the bars are 37 pixels apart from
    pixel 30 on, the canvas receives 162 calls, and the levels of the
    delay lines, 0 before the call, are the 0.5 of the engine after it. *)
Example draw_half_run :
  map (heights (dim_scale_top demo_half)) (seq 0 8) = [100; 49; 24; 11; 5; 2; 0; 0] /\
  map (fun i => x_pos 320 demo_half (Z.of_nat i)) (seq 0 4) = [30; 67; 104; 141] /\
  length (canvas (draw 320 240 demo_half)) = 162%nat /\
  firstn 6 (canvas (draw 320 240 demo_half)) =
    [font Norm (f_of_int 35); lineWidth (f_of_int 6); beginPath;
     moveTo (f_of_int 30) (f_of_int 20); lineTo (f_of_int 30) (f_of_int 220);
     stroke Colours.Gray50] /\
  delay_level (engine_props (draw 320 240 demo_half)) = vreplicate 20 (knob 1 2) /\
  feedbackLimit demo_half = 10.
Proof. now vm_compute. Qed.

(** With [feedback] at 1 the factor is 0.99 and each bar is one pixel
    shorter than the one before: the conversion to [int] discards the
    fraction of every product. *)
Example draw_full_run :
  map (heights (dim_scale_top demo_full)) (seq 0 21) =
  map (fun i => 100 - Z.of_nat i) (seq 0 21).
Proof. now vm_compute. Qed.
