(* ===== verification/Rounding.v ===== *)
(** * Rounding and the heights of the bars

    [y_height_top *= dim_scale_top] of [PingpongScreen::draw] converts the
    height to [float], multiplies, rounds the product to 24 bits and
    discards the fraction.  This file shows that in binary32 the result is
    never larger in size than the height, for every height of at most 100
    pixels and every finite factor of size at most 1, and so that the
    heights of [draw] stay within 100 pixels for all such factors
    ([draw_bounded_binary32]).

    The argument follows the rounding of the Standard Library
    ([binary_round_aux] of [SpecFloat]) step by step:
    - the right shift [shr] divides the mantissa by a power of two,
      rounding down, and its two extra bits are clear when the division is
      exact ([shifted], [shr_shifted]);
    - rounding to nearest even adds at most one unit, and nothing when the
      division was exact ([round_nearest_even_range]), so a number of at
      most [K] units of the grid is rounded to at most [K] units
      ([rounded_le]);
    - a product of at most [K < 2^24] is rounded at an exponent that is
      not positive, where every integer is a multiple of the unit
      ([fexp_nonpos]);
    - the second shift keeps the bound, so the rounded number is finite
      and of at most [K] ([round_aux_at_most]), and the conversion to
      [int] rounds down ([truncate_at_most]).

    The conversion of the heights to [float] is exact: that is checked for
    the 201 heights by computation ([of_int_exact]).

    The last part is about factors below zero, which the loop does not
    exclude: rounding keeps the sign bit, the sign of a product is the
    exclusive or of the signs, and the conversion to [int] keeps the side
    of zero, so the heights alternate in sign
    ([negative_factor_alternates]). *)

From Stdlib Require Import ZArith Lia Bool List SpecFloat.
From stdpp Require Import base list.
From S2P Require Import Prelude Pingpong Draw Binary32.
Import ListNotations.
Local Open Scope Z_scope.

(** ** Specifications *)

(** The record [mrs] holds the mantissa [m0] shifted right by [k] bits. *)
Definition shifted (m0 k : Z) (mrs : shr_record) : Prop :=
  shr_m mrs = m0 / 2 ^ k /\
  (m0 mod 2 ^ k = 0 -> shr_r mrs = false /\ shr_s mrs = false).

(** A number that is zero, or finite and of size at most [K]: neither a
    NaN nor an infinity. *)
Definition at_most (K : Z) (x : spec_float) : Prop :=
  match x with
  | S754_zero _ => True
  | S754_finite _ m e => e <= 0 /\ Z.pos m <= K * 2 ^ (- e)
  | _ => False
  end.

Definition at_most_one (x : spec_float) : Prop := at_most 1 x.

(** The number [x] is the integer [h], up to the sign. *)
Definition exact_int (h : Z) (x : spec_float) : bool :=
  match x with
  | S754_zero _ => h =? 0
  | S754_finite _ m e => (e <=? 0) && (Z.pos m =? Z.abs h * 2 ^ (- e))
  | _ => false
  end.

(** ** The number of bits of a mantissa *)

Lemma digits2_pos_bounds m :
  2 ^ (Z.pos (digits2_pos m) - 1) <= Z.pos m < 2 ^ Z.pos (digits2_pos m).
Proof.
  induction m as [m IH|m IH|]; cbn [digits2_pos]; [| |cbn; lia];
    rewrite Pos2Z.inj_succ;
    replace (Z.succ (Z.pos (digits2_pos m)) - 1)
      with (Z.succ (Z.pos (digits2_pos m) - 1)) by lia;
    rewrite !Z.pow_succ_r by lia; lia.
Qed.

(** ** The right shift *)

Lemma shr_1_spec mrs :
  0 <= shr_m mrs ->
  shr_m (shr_1 mrs) = shr_m mrs / 2 /\
  shr_r (shr_1 mrs) = Z.odd (shr_m mrs) /\
  shr_s (shr_1 mrs) = shr_r mrs || shr_s mrs.
Proof.
  destruct mrs as [[|[p|p|]|p] r s]; cbn [shr_m shr_r shr_s shr_1]; intros H;
    try lia; repeat split; try reflexivity.
  - rewrite Pos2Z.inj_xI. apply Z.div_unique with 1; lia.
  - rewrite Pos2Z.inj_xO. apply Z.div_unique with 0; lia.
Qed.

(** Induction on the number of rounds of [iter_pos]. *)
Lemma iter_pos_ind {A} (P : Z -> A -> Prop) (f : A -> A) :
  (forall k x, 0 <= k -> P k x -> P (k + 1) (f x)) ->
  forall p k x, 0 <= k -> P k x -> P (k + Z.pos p) (SpecFloat.iter_pos f p x).
Proof.
  intros Hf. induction p as [p IH|p IH|]; intros k x Hk Hx; cbn [SpecFloat.iter_pos].
  - replace (k + Z.pos p~1) with ((k + 1 + Z.pos p) + Z.pos p) by lia.
    apply IH; [lia|]. apply IH; [lia|]. now apply Hf.
  - replace (k + Z.pos p~0) with ((k + Z.pos p) + Z.pos p) by lia.
    apply IH; [lia|]. now apply IH.
  - now apply Hf.
Qed.

Lemma shifted_0 m : shifted m 0 (shr_record_of_loc m loc_Exact).
Proof.
  split; cbn [shr_record_of_loc shr_m shr_r shr_s]; [now rewrite Z.div_1_r | easy].
Qed.

Lemma shifted_step m0 k mrs :
  0 <= m0 -> 0 <= k -> shifted m0 k mrs -> shifted m0 (k + 1) (shr_1 mrs).
Proof.
  intros Hm Hk [Hs Hz].
  assert (Hp : 0 < 2 ^ k) by (apply Z.pow_pos_nonneg; lia).
  destruct (shr_1_spec mrs) as (H1 & H2 & H3);
    [rewrite Hs; apply Z.div_pos; lia|].
  split.
  - rewrite H1, Hs, Z.pow_add_r, Z.pow_1_r by lia. apply Z.div_div; lia.
  - intros Hmod. apply Z.mod_divide in Hmod as [q Hq]; [|rewrite Z.pow_add_r by lia; lia].
    rewrite Z.pow_add_r, Z.pow_1_r in Hq by lia.
    assert (Hd : m0 / 2 ^ k = q * 2)
      by (rewrite Hq, Z.mul_assoc, (Z.mul_comm (q * 2 ^ k)), Z.mul_assoc,
            (Z.mul_comm 2 q); apply Z.div_mul; lia).
    destruct Hz as [Hr Hss].
    { rewrite Hq. replace (q * (2 ^ k * 2)) with (q * 2 * 2 ^ k) by ring.
      apply Z.mod_mul; lia. }
    rewrite H2, H3, Hr, Hss, Hs, Hd, Z.odd_mul. cbn. now rewrite andb_false_r.
Qed.

Lemma shr_shifted m mrs e n :
  0 <= m -> shifted m 0 mrs ->
  shifted m (Z.max n 0) (shr mrs e n).1 /\ (shr mrs e n).2 = e + Z.max n 0.
Proof.
  intros Hm H0. destruct n as [|p|p]; cbn [shr fst snd].
  - split; [assumption | now rewrite Z.add_0_r].
  - rewrite Z.max_l by lia. split; [|reflexivity].
    apply (iter_pos_ind (shifted m) shr_1 (fun k x Hk => shifted_step m k x Hm Hk) p 0);
      [lia | assumption].
  - rewrite Z.max_r by lia. split; [assumption | now rewrite Z.add_0_r].
Qed.

Lemma shr_fexp_shifted prec emax m e :
  0 <= m ->
  let n := Z.max (fexp prec emax (Zdigits2 m + e) - e) 0 in
  shifted m n (shr_fexp prec emax m e loc_Exact).1 /\
  (shr_fexp prec emax m e loc_Exact).2 = e + n.
Proof.
  intros Hm n. unfold shr_fexp. apply shr_shifted; [assumption | apply shifted_0].
Qed.

(** ** Rounding to nearest even *)

Lemma round_nearest_even_range mrs :
  shr_m mrs <= round_nearest_even (shr_m mrs) (loc_of_shr_record mrs) <= shr_m mrs + 1 /\
  (shr_r mrs = false -> shr_s mrs = false ->
   round_nearest_even (shr_m mrs) (loc_of_shr_record mrs) = shr_m mrs).
Proof.
  destruct mrs as [m [|] [|]]; cbn; try destruct (Z.even m); split; try easy; lia.
Qed.

(** A number of at most [K] units of the grid is rounded to at most [K]
    units. *)
Lemma rounded_le m k mrs K :
  0 <= m -> 0 <= k -> shifted m k mrs -> m <= K * 2 ^ k ->
  0 <= round_nearest_even (shr_m mrs) (loc_of_shr_record mrs) <= K.
Proof.
  intros Hm Hk [Hs Hz] HK.
  assert (Hp : 0 < 2 ^ k) by (apply Z.pow_pos_nonneg; lia).
  destruct (round_nearest_even_range mrs) as [[Hlo Hhi] Hex].
  assert (H0 : 0 <= shr_m mrs) by (rewrite Hs; apply Z.div_pos; lia).
  split; [lia|].
  destruct (Z.eq_dec (m mod 2 ^ k) 0) as [Hmod|Hmod].
  - destruct (Hz Hmod) as [Hr Hss]. rewrite Hex, Hs by assumption.
    apply Z.div_le_upper_bound; lia.
  - assert (m < K * 2 ^ k).
    { destruct (Z.eq_dec m (K * 2 ^ k)) as [->|]; [|lia].
      now rewrite Z.mod_mul in Hmod by lia. }
    assert (m / 2 ^ k < K) by (apply Z.div_lt_upper_bound; lia). lia.
Qed.

(** The exponent at which a number of at most [K < 2^24] is rounded is not
    positive. *)
Lemma fexp_nonpos m e K :
  0 < m -> e <= 0 -> 0 <= K < 2 ^ 24 -> m <= K * 2 ^ (- e) ->
  e + Z.max (fexp 24 128 (Zdigits2 m + e) - e) 0 <= 0.
Proof.
  intros Hm He HK Hle. destruct m as [|p|p]; try lia. cbn [Zdigits2].
  pose proof (digits2_pos_bounds p) as [Hd _].
  assert (Hp : 0 < 2 ^ (- e)) by (apply Z.pow_pos_nonneg; lia).
  assert (Hlt : 2 ^ (Z.pos (digits2_pos p) - 1) < 2 ^ (24 - e)).
  { replace (24 - e) with (24 + - e) by lia. rewrite Z.pow_add_r by lia. nia. }
  apply Z.pow_lt_mono_r_iff in Hlt; [|lia..].
  unfold fexp, emin. lia.
Qed.

(** ** Conversion to [int] *)

Lemma abs_cond_Zopp s z : Z.abs (cond_Zopp s z) = Z.abs z.
Proof. destruct s; cbn; lia. Qed.

(** The conversion discards the fraction, so it does not leave the
    bound. *)
Lemma truncate_at_most K x : 0 <= K -> at_most K x -> Z.abs (truncate x) <= K.
Proof.
  intros HK Hx. destruct x as [s|s| |s m e]; cbn [truncate at_most] in *; try lia.
  destruct Hx as [He Hm].
  assert (Hp : 0 < 2 ^ (- e)) by (apply Z.pow_pos_nonneg; lia).
  rewrite abs_cond_Zopp, Z.abs_eq by (apply Z.shiftl_nonneg; lia).
  rewrite Z.shiftl_div_pow2 by lia. apply Z.div_le_upper_bound; lia.
Qed.

(** ** A rounded number *)

(** The second shift of [binary_round_aux]: a mantissa of at most [K]
    units stays one, at an exponent that is not positive. *)
Lemma renormalised_at_most m2 e1 K :
  0 <= m2 -> e1 <= 0 -> 0 <= K < 2 ^ 24 -> m2 <= K * 2 ^ (- e1) ->
  let r := shr_fexp 24 128 m2 e1 loc_Exact in
  r.2 <= 0 /\ 0 <= shr_m r.1 <= K * 2 ^ (- r.2).
Proof.
  intros Hm He HK Hle r.
  destruct (shr_fexp_shifted 24 128 m2 e1 Hm) as [[H2 _] E2]. fold r in H2, E2.
  set (n2 := Z.max (fexp 24 128 (Zdigits2 m2 + e1) - e1) 0) in *.
  assert (Hn2 : 0 <= n2) by (unfold n2; lia).
  assert (Hp2 : 0 < 2 ^ n2) by (apply Z.pow_pos_nonneg; lia).
  assert (Hg : r.2 <= 0).
  { rewrite E2. destruct (Z.eq_dec m2 0) as [->|]; [unfold n2, fexp, emin; cbn; lia|].
    apply (fexp_nonpos m2 e1 K); lia. }
  split; [exact Hg|]. rewrite H2. split; [apply Z.div_pos; lia|].
  apply Z.div_le_upper_bound; [lia|].
  rewrite Z.mul_comm, <- Z.mul_assoc, <- Z.pow_add_r by lia.
  now replace (- r.2 + n2) with (- e1) by lia.
Qed.

(** A mantissa [m] at the exponent [e] that stands for at most [K] is
    rounded to a number of at most [K]: the rounding gives neither an
    infinity nor a NaN, and does not go past the integer [K]. *)
Lemma round_aux_at_most sx m e K :
  0 < m -> e <= 0 -> 0 <= K < 2 ^ 24 -> m <= K * 2 ^ (- e) ->
  at_most K (binary_round_aux 24 128 sx m e loc_Exact).
Proof.
  intros Hm He HK Hle. unfold binary_round_aux.
  pose proof (fexp_nonpos m e K Hm He HK Hle) as Hg.
  destruct (shr_fexp_shifted 24 128 m e) as [H1 E1]; [lia|].
  destruct (shr_fexp 24 128 m e loc_Exact) as [mrs1 e1]. cbn [fst snd] in H1, E1.
  set (n1 := Z.max (fexp 24 128 (Zdigits2 m + e) - e) 0) in *.
  assert (Hn1 : 0 <= n1) by (unfold n1; lia).
  set (m2 := round_nearest_even (shr_m mrs1) (loc_of_shr_record mrs1)).
  assert (Hm2 : 0 <= m2 <= K * 2 ^ (- e1)).
  { apply (rounded_le m n1); [lia | lia | assumption |].
    rewrite <- Z.mul_assoc, <- Z.pow_add_r by lia.
    now replace (- e1 + n1) with (- e) by lia. }
  destruct (renormalised_at_most m2 e1 K) as [He2 Hm3]; [lia..|].
  destruct (shr_fexp 24 128 m2 e1 loc_Exact) as [mrs2 e2]. cbn [fst snd] in He2, Hm3.
  destruct (shr_m mrs2) as [|q|q]; [exact Logic.I | | lia].
  rewrite (proj2 (Z.leb_le e2 (128 - 24))) by lia. split; [assumption | lia].
Qed.

(** The conversion of a height to [float] is exact. *)
Lemma of_int_exact h :
  Z.abs h <= 100 -> exact_int h (binary_normalize 24 128 h 0 false) = true.
Proof.
  intros Hh.
  assert (H : forallb (fun h => exact_int h (binary_normalize 24 128 h 0 false))
                      (seqZ (-100) 201) = true) by now vm_compute.
  rewrite forallb_forall in H. apply H, list_elem_of_In, elem_of_seqZ. lia.
Qed.

(** The product of a height and a number of size at most 1 is finite and
    of the size of the height at most. *)
Lemma mul_at_most h y :
  Z.abs h <= 100 -> at_most_one y ->
  at_most (Z.abs h) (SFmul 24 128 (binary_normalize 24 128 h 0 false) y).
Proof.
  intros Hh Hy. pose proof (of_int_exact h Hh) as Hx.
  destruct (binary_normalize 24 128 h 0 false) as [sx|sx| |sx mx ex]; try discriminate;
    destruct y as [sy|sy| |sy my ey]; try contradiction; cbn [SFmul at_most]; try exact Logic.I.
  cbn [exact_int] in Hx. apply andb_prop in Hx as [He Hm].
  apply Z.leb_le in He. apply Z.eqb_eq in Hm. destruct Hy as [Hey Hmy].
  assert (0 < 2 ^ (- ex)) by (apply Z.pow_pos_nonneg; lia).
  apply round_aux_at_most; [lia | lia | lia |].
  rewrite Pos2Z.inj_mul, Hm. replace (- (ex + ey)) with (- ex + - ey) by lia.
  rewrite Z.pow_add_r by lia. nia.
Qed.

(** ** The heights of [draw] *)

Import PingpongDraw.

(** In binary32 a finite factor of size at most 1 lengthens no bar. *)
Lemma small_factor_shrinks (s : float32) : at_most_one (bits32 s) -> shrinks s.
Proof.
  intros Hs h Hh. apply truncate_at_most; [lia|]. now apply mul_at_most.
Qed.

(** The blue line is no longer than the gray one: the height times a
    level of size at most 1 is finite and of the size of the height at
    most. *)
Lemma level_scaled_at_most h (level : float32) :
  Z.abs h <= 100 -> at_most_one (bits32 level) ->
  at_most (Z.abs h) (bits32 (f_mul (f_of_int h) level)).
Proof. intros Hh Hl. now apply mul_at_most. Qed.

(** The heights that the loop holds for the factor [s]: none is larger in
    size than the one before or than 100, and the product of each with
    the factor is finite and no larger in size than the height. *)
Definition decays (s : float32) : Prop :=
  forall i,
    Z.abs (heights s (S i)) <= Z.abs (heights s i) <= 100 /\
    at_most (Z.abs (heights s i)) (bits32 (f_mul (f_of_int (heights s i)) s)).

Lemma small_factor_decays (s : float32) : at_most_one (bits32 s) -> decays s.
Proof.
  intros Hs i. pose proof (heights_shrink s (small_factor_shrinks s Hs) i) as H.
  split; [exact H|]. apply mul_at_most; [lia | exact Hs].
Qed.

(** C17: in binary32 the bars of [draw] stay within 100 pixels of the base
    line for every setting whose two factors are finite and of size at
    most 1, negative factors included: every height the loop holds, from
    the first round to the value it ends with, is between -100 and 100 and
    no larger in size than the height of the round before, although every
    product is rounded to 24 bits before its fraction is discarded; every
    such product is finite, so no conversion of a height to [int] is of a
    NaN, of an infinity or of a value outside the range of [int]; and
    every row passed to [moveTo] or [lineTo] is the base line moved by
    such a height or by it times a level. *)
Theorem draw_bounded_binary32 width height (props : Props Level) :
  at_most_one (bits32 (dim_scale_top props)) ->
  at_most_one (bits32 (dim_scale_bot props)) ->
  decays (dim_scale_top props) /\ decays (dim_scale_bot props) /\
  Z.abs (y_height_top (draw width height props)) <= 100 /\
  Z.abs (y_height_bot (draw width height props)) <= 100 /\
  Forall (on_screen height) (canvas (draw width height props)).
Proof.
  intros Ht Hb.
  destruct (draw_heights_bounded width height props) as (H1 & H2 & _ & _ & H3);
    [now apply small_factor_shrinks ..|].
  repeat split; try assumption; now apply small_factor_decays.
Qed.

Lemma draw_bounded_binary32_witness :
  (decays (dim_scale_top demo_dry) /\ decays (dim_scale_bot demo_dry) /\
   Z.abs (y_height_top (draw 320 240 demo_dry)) <= 100 /\
   Z.abs (y_height_bot (draw 320 240 demo_dry)) <= 100 /\
   Forall (on_screen 240) (canvas (draw 320 240 demo_dry))) /\
  bits32 (dim_scale_top demo_dry) = S754_finite true 14763950 (-27).
Proof.
  split; [|now vm_compute].
  apply (draw_bounded_binary32 320 240 demo_dry); vm_compute; split; discriminate.
Defined.

(** ** Factors below zero *)

(** The sign bit of [x] is [s]; a NaN has no sign. *)
Definition signed (s : bool) (x : spec_float) : Prop :=
  match x with
  | S754_zero s' | S754_infinity s' | S754_finite s' _ _ => s' = s
  | S754_nan => True
  end.

(** The integer [z] is on the side of zero that the sign bit [s] names. *)
Definition on_side (s : bool) (z : Z) : Prop := if s then z <= 0 else 0 <= z.

(** Rounding keeps the sign, also when it rounds to zero or overflows. *)
Lemma round_aux_signed prec emax sx m e l :
  signed sx (binary_round_aux prec emax sx m e l).
Proof.
  unfold binary_round_aux. destruct (shr_fexp prec emax m e l) as [mrs1 e1].
  destruct (shr_fexp prec emax _ e1 loc_Exact) as [mrs2 e2].
  destruct (shr_m mrs2); [reflexivity | | exact Logic.I].
  now destruct (e2 <=? emax - prec).
Qed.

(** An integer converted to [float] has its sign. *)
Lemma of_int_signed h : signed (h <? 0) (binary_normalize 24 128 h 0 false).
Proof.
  destruct h as [|p|p]; cbn [binary_normalize Z.ltb Z.compare]; [reflexivity | |];
    unfold binary_round; destruct (shl_align _ _ _) as [mz ez];
    apply round_aux_signed.
Qed.

(** The sign of a product is the exclusive or of the signs. *)
Lemma mul_signed sx sy x y :
  signed sx x -> signed sy y -> signed (xorb sx sy) (SFmul 24 128 x y).
Proof.
  destruct x as [s1|s1| |s1 m1 e1], y as [s2|s2| |s2 m2 e2];
    cbn [signed SFmul]; intros Hx Hy; subst; try reflexivity; try exact Logic.I.
  apply round_aux_signed.
Qed.

(** The conversion to [int] keeps the side of zero. *)
Lemma truncate_signed s x : signed s x -> on_side s (truncate x).
Proof.
  destruct x as [s'|s'| |s' m e]; cbn [signed truncate]; intros Hx; subst;
    try (destruct s; cbn; lia).
  pose proof (Z.shiftl_nonneg (Z.pos m) e) as [_ H].
  destruct s; cbn [on_side cond_Zopp]; specialize (H ltac:(lia)); lia.
Qed.

(** One round of the loop for a factor with the sign bit [sy]. *)
Lemma scale_signed (s : float32) sy h :
  signed sy (bits32 s) -> on_side (xorb (h <? 0) sy) (scale s h).
Proof.
  intros Hs. apply truncate_signed, mul_signed; [apply of_int_signed | exact Hs].
Qed.

(** The height 0 stays 0, whatever the factor. *)
Lemma scale_zero (s : float32) : scale s 0 = 0.
Proof. unfold scale. cbn. now destruct (bits32 s). Qed.

Lemma scale_negative (s : float32) h :
  signed true (bits32 s) -> (0 <= h -> scale s h <= 0) /\ (h <= 0 -> 0 <= scale s h).
Proof.
  intros Hs. pose proof (scale_signed s true h Hs) as H. split; intros Hh.
  - now rewrite (proj2 (Z.ltb_ge h 0) Hh) in H.
  - destruct (Z.eq_dec h 0) as [->|Hn]; [now rewrite scale_zero|].
    now rewrite (proj2 (Z.ltb_lt h 0)) in H by lia.
Qed.

(** C34: a factor below zero turns every other bar upside down.  The loop
    of [draw] multiplies the height by the factor without looking at its
    sign: in binary32, for every factor whose sign bit is set, one round
    takes a height that is not negative to one that is not positive and
    back, so the heights of the rounds of even index are not negative and
    those of the rounds of odd index are not positive: the gray line of a
    bar of odd index, which [draw] starts at [y_base - y_height_top],
    starts at the base line or below it. *)
Theorem negative_factor_alternates (s : float32) :
  signed true (bits32 s) ->
  (forall h, 0 <= h -> scale s h <= 0) /\
  (forall h, h <= 0 -> 0 <= scale s h) /\
  (forall i, 0 <= heights s (2 * i) /\ heights s (S (2 * i)) <= 0).
Proof.
  intros Hs.
  assert (Hdown : forall h, 0 <= h -> scale s h <= 0) by (intros h; now apply scale_negative).
  assert (Hup : forall h, h <= 0 -> 0 <= scale s h) by (intros h; now apply scale_negative).
  split; [exact Hdown | split; [exact Hup|]].
  induction i as [|i [IHe IHo]]; [split; [cbn; lia | apply Hdown; cbn; lia]|].
  replace (2 * S i)%nat with (S (S (2 * i))) by lia.
  assert (He : 0 <= heights s (S (S (2 * i)))) by now apply Hup.
  split; [exact He | now apply Hdown].
Qed.

(** With [feedback] and [tone] at 0 the factor of the upper half is about
    -0.11: the heights are 100, -11, 1 and 0, and the gray line of the
    second bar starts 11 pixels below the base line. *)
Lemma negative_factor_alternates_witness :
  ((forall h, 0 <= h -> scale (dim_scale_top demo_dry) h <= 0) /\
   (forall h, h <= 0 -> 0 <= scale (dim_scale_top demo_dry) h) /\
   (forall i, 0 <= heights (dim_scale_top demo_dry) (2 * i) /\
              heights (dim_scale_top demo_dry) (S (2 * i)) <= 0)) /\
  map (heights (dim_scale_top demo_dry)) (seq 0 4) = [100; -11; 1; 0] /\
  nth_error (canvas (draw 320 240 demo_dry)) 11 =
    Some (moveTo (f_of_int 67) (f_of_int (120 + 11))).
Proof.
  split; [|now vm_compute].
  apply (negative_factor_alternates (dim_scale_top demo_dry)). now vm_compute.
Defined.
